(** * TubeTale Analytics: JSON salvage, statistics layer and orchestrators

    A shallow embedding of [services/gemini_service.py],
    [services/data_processor.py] and the routes of [app.py], followed by
    the properties of the natural-language specification stated over it and
    by further properties of the code.

    Conventions.
    - A Python [str] is a list of Unicode code points ([N]).
    - Python/numpy/pandas floats are binary64: the kernel's primitive floats.
    - A Python [dict] is an association list with unique keys, kept in
      insertion order.
    - A raised exception is the [Raise] result; state changes made before the
      exception stay (the cache and the log of model calls are threaded
      explicitly).
    - Library behaviour the repository does not define (the hosted model, the
      HTTP client, [str.lower], [pd.to_numeric], [np.polyfit], ...) is a
      [Variable] of the section that uses it. *)

From stdpp Require Import base option list gmap sorting.
From Stdlib Require Import ZArith NArith Lia Floats.
From Stdlib Require String Ascii.
Import String.StringSyntax.

Set Warnings "-register-all,-inexact-float".
Set Default Proof Using "Type".

Local Open Scope string_scope.
Local Open Scope N_scope.
Local Open Scope list_scope.

(* ===================================================================== *)
(** * Part I. The model                                                   *)
(* ===================================================================== *)

(** ** Python strings *)

Module Text.

Definition char := N.
Definition str := list N.

(** String literals of this development are ASCII and written with the
    Standard Library's [string]; the apostrophe stands for the double quote
    (code point 34), which a literal of the proof language cannot hold
    conveniently. *)
Definition code (a : Ascii.ascii) : N :=
  let n := Ascii.N_of_ascii a in if n =? 39 then 34 else n.

Fixpoint py (s : String.string) : str :=
  match s with
  | String.EmptyString => []
  | String.String a s' => code a :: py s'
  end.

Definition str_eqb (a b : str) : bool := bool_decide (a = b).

(** [str.isspace] for one character, which is also what [\s] matches in a
    [str] pattern of [re]. *)
Definition isspace (c : N) : bool :=
  ((9 <=? c) && (c <=? 13)) || ((28 <=? c) && (c <=? 32))
  || (c =? 133) || (c =? 160) || (c =? 5760)
  || ((8192 <=? c) && (c <=? 8202))
  || (c =? 8232) || (c =? 8233) || (c =? 8239) || (c =? 8287) || (c =? 12288).

Fixpoint lstrip (s : str) : str :=
  match s with
  | c :: s' => if isspace c then lstrip s' else s
  | [] => []
  end.

Definition rstrip (s : str) : str := rev (lstrip (rev s)).

(** [text.strip()] *)
Definition strip (s : str) : str := rstrip (lstrip s).

(** [s.startswith(p)] *)
Fixpoint startswith (p s : str) : bool :=
  match p, s with
  | [], _ => true
  | a :: p', b :: s' => (a =? b) && startswith p' s'
  | _ :: _, [] => false
  end.

(** [s.find(sub)]: the lowest index where [sub] occurs; [None] is Python's
    [-1]. *)
Fixpoint find (sub s : str) : option nat :=
  if startswith sub s then Some O
  else match s with
       | [] => None
       | _ :: s' => S <$> find sub s'
       end.

(** [s.rfind(sub)]: the highest index where [sub] occurs. *)
Fixpoint rfind (sub s : str) : option nat :=
  match s with
  | [] => if startswith sub [] then Some O else None
  | _ :: s' =>
      match rfind sub s' with
      | Some i => Some (S i)
      | None => if startswith sub s then Some O else None
      end
  end.

(** [sub in s] *)
Definition contains (sub s : str) : bool :=
  match find sub s with Some _ => true | None => false end.

(** [s[i:j]] for [0 <= i], [0 <= j] *)
Definition slice (s : str) (i j : nat) : str := take (j - i) (drop i s).

End Text.
Export Text.

(** ** JSON values and [json.loads] *)

Module Json.

(** What [json.loads] builds: [None], [bool], [int], [float], [str], [list]
    and [dict]. *)
Inductive json :=
| JNull
| JBool (b : bool)
| JInt (z : Z)
| JFloat (f : float)
| JStr (s : str)
| JArr (l : list json)
| JObj (m : list (str * json)).

Definition dict := list (str * json).

(** [d.get(k)] / [k in d] *)
Fixpoint dict_get (k : str) (d : dict) : option json :=
  match d with
  | [] => None
  | (k', v) :: d' => if str_eqb k k' then Some v else dict_get k d'
  end.

Definition dict_has (k : str) (d : dict) : bool :=
  match dict_get k d with Some _ => true | None => false end.

(** [d[k] = v]: an existing key keeps its place, a new key goes last. *)
Fixpoint dict_set (k : str) (v : json) (d : dict) : dict :=
  match d with
  | [] => [(k, v)]
  | (k', v') :: d' =>
      if str_eqb k k' then (k, v) :: d' else (k', v') :: dict_set k v d'
  end.

(** Python truthiness: [bool(x)]. *)
Definition truthy (v : json) : bool :=
  match v with
  | JNull => false
  | JBool b => b
  | JInt z => negb (z =? 0)%Z
  | JFloat f => negb (PrimFloat.eqb f PrimFloat.zero)
  | JStr s => match s with [] => false | _ => true end
  | JArr l => match l with [] => false | _ => true end
  | JObj m => match m with [] => false | _ => true end
  end.

(** *** Numbers *)

(** An integer as the nearest binary64 value ([float(n)]). *)
Definition Z2F (z : Z) : float := SF2Prim (binary_normalize 53 1024 z 0 false).

(** [float(lexeme)] for the decimal number [(-1)^neg * m * 10^e]: the
    nearest binary64 value, ties to even. *)
Definition float_of_decimal (neg : bool) (m : Z) (e : Z) : float :=
  match m with
  | Zpos p =>
      if (0 <=? e)%Z
      then SF2Prim (binary_normalize 53 1024 ((if neg then -1 else 1) * (m * 10 ^ e)) 0 false)
      else match (10 ^ (- e))%Z with
           | Zpos q => SF2Prim (SFdiv 53 1024 (S754_finite neg p 0) (S754_finite false q 0))
           | _ => PrimFloat.nan
           end
  | _ => if neg then PrimFloat.neg_zero else PrimFloat.zero
  end.

Definition isdigit (c : N) : bool := (48 <=? c) && (c <=? 57).

(** The longest prefix of ASCII digits and what follows it. *)
Fixpoint span_digits (s : str) : str * str :=
  match s with
  | c :: s' =>
      if isdigit c then let '(d, r) := span_digits s' in (c :: d, r) else ([], s)
  | [] => ([], [])
  end.

Definition digits_value (d : str) : Z :=
  fold_left (fun acc c => (acc * 10 + Z.of_N (c - 48))%Z) d 0%Z.

(** The number grammar of the decoder: an optional minus sign; then a
    single 0, or a digit 1-9 and any further digits; then optionally a dot
    and one or more digits; then optionally e or E, an optional sign and
    one or more digits. A fraction or an exponent makes a [float],
    otherwise the lexeme is an [int]. *)
Definition match_number (s : str) : option (json * str) :=
  let '(neg, s0) :=
    match s with
    | c :: s' => if c =? 45 then (true, s') else (false, s)
    | [] => (false, s)
    end in
  let int_part : option (str * str) :=
    match s0 with
    | c :: s' =>
        if c =? 48 then Some ([c], s')
        else if isdigit c then let '(d, r) := span_digits s' in Some (c :: d, r)
        else None
    | [] => None
    end in
  match int_part with
  | None => None
  | Some (ip, s1) =>
      let '(fp, s2) :=
        match s1 with
        | dot :: s' =>
            if dot =? 46
            then match span_digits s' with
                 | ([], _) => ([], s1)
                 | (d, r) => (d, r)
                 end
            else ([], s1)
        | [] => ([], s1)
        end in
      let '(ex, s3) :=
        match s2 with
        | e :: s' =>
            if (e =? 101) || (e =? 69)
            then
              let '(eneg, s'') :=
                match s' with
                | sg :: t => if sg =? 45 then (true, t)
                             else if sg =? 43 then (false, t) else (false, s')
                | [] => (false, s')
                end in
              match span_digits s'' with
              | ([], _) => (None, s2)
              | (d, r) => (Some (if eneg then (- digits_value d)%Z else digits_value d), r)
              end
            else (None, s2)
        | [] => (None, s2)
        end in
      match fp, ex with
      | [], None =>
          Some (JInt (if neg then (- digits_value ip)%Z else digits_value ip), s3)
      | _, _ =>
          let e10 := (match ex with Some x => x | None => 0 end
                      - Z.of_nat (length fp))%Z in
          Some (JFloat (float_of_decimal neg (digits_value (ip ++ fp)) e10), s3)
      end
  end.

(** *** Strings *)

Definition hexval (c : N) : option N :=
  if isdigit c then Some (c - 48)
  else if (97 <=? c) && (c <=? 102) then Some (c - 87)
  else if (65 <=? c) && (c <=? 70) then Some (c - 55)
  else None.

Definition hex4 (a b c d : N) : option N :=
  match hexval a, hexval b, hexval c, hexval d with
  | Some x, Some y, Some z, Some w => Some (((x * 16 + y) * 16 + z) * 16 + w)
  | _, _, _, _ => None
  end.

Definition unescape (c : N) : option N :=
  if c =? 34 then Some 34            (* quote *)
  else if c =? 92 then Some 92       (* backslash *)
  else if c =? 47 then Some 47       (* slash *)
  else if c =? 98 then Some 8        (* b: backspace *)
  else if c =? 102 then Some 12      (* f: form feed *)
  else if c =? 110 then Some 10      (* n: line feed *)
  else if c =? 114 then Some 13      (* r: carriage return *)
  else if c =? 116 then Some 9       (* t: tab *)
  else None.

Definition is_high_surrogate (u : N) : bool := (55296 <=? u) && (u <=? 56319).
Definition is_low_surrogate (u : N) : bool := (56320 <=? u) && (u <=? 57343).
Definition join_surrogates (hi lo : N) : N :=
  65536 + ((hi - 55296) * 1024 + (lo - 56320)).

(** The body of a string literal, after its opening quote (strict mode:
    no raw control character). [acc] holds the decoded characters in
    reverse. *)
Fixpoint scanstring (s : str) (acc : str) : option (str * str) :=
  match s with
  | [] => None
  | c :: s' =>
      if c =? 34 then Some (rev acc, s')
      else if c =? 92 then
        match s' with
        | [] => None
        | e :: s'' =>
            if e =? 117 then
              match s'' with
              | h1 :: h2 :: h3 :: h4 :: s3 =>
                  match hex4 h1 h2 h3 h4 with
                  | None => None
                  | Some u =>
                      if is_high_surrogate u then
                        match s3 with
                        | b :: x :: k1 :: k2 :: k3 :: k4 :: s4 =>
                            if (b =? 92) && (x =? 117) then
                              match hex4 k1 k2 k3 k4 with
                              | None => None
                              | Some u2 =>
                                  if is_low_surrogate u2
                                  then scanstring s4 (join_surrogates u u2 :: acc)
                                  else scanstring s3 (u :: acc)
                              end
                            else scanstring s3 (u :: acc)
                        | _ => scanstring s3 (u :: acc)
                        end
                      else scanstring s3 (u :: acc)
                  end
              | _ => None
              end
            else match unescape e with
                 | Some x => scanstring s'' (x :: acc)
                 | None => None
                 end
        end
      else if c <? 32 then None
      else scanstring s' (c :: acc)
  end.

(** *** The decoder *)

(** JSON whitespace: space, tab, line feed, carriage return. *)
Definition is_ws (c : N) : bool := (c =? 32) || (c =? 9) || (c =? 10) || (c =? 13).

Fixpoint skip_ws (s : str) : str :=
  match s with
  | c :: s' => if is_ws c then skip_ws s' else s
  | [] => []
  end.

(** Result of a scan: a value and the unread rest, a syntax error
    ([JSONDecodeError]), or the recursion budget of the model exhausted. *)
Inductive pres (A : Type) :=
| POk (a : A) (rest : str)
| PErr
| PFuel.
Arguments POk {A} a rest.
Arguments PErr {A}.
Arguments PFuel {A}.

(** [dict(pairs)]: a repeated key keeps its first place and takes the last
    value. *)
Definition dict_of_pairs (ps : list (str * json)) : dict :=
  fold_left (fun d kv => dict_set (fst kv) (snd kv) d) ps [].

(** [scan_once], [parse_array] and [parse_object] of the decoder. The loops
    of the last two are [scan_elements] and [scan_members]; they carry the
    items read so far in reverse. *)
Fixpoint scan_once (fuel : nat) (s : str) {struct fuel} : pres json :=
  match fuel with
  | O => PFuel
  | S fuel' =>
      match s with
      | [] => PErr
      | c :: s' =>
          if c =? 34 then
            match scanstring s' [] with
            | Some (k, r) => POk (JStr k) r
            | None => PErr
            end
          else if c =? 123 then
            match skip_ws s' with
            | c1 :: r => if c1 =? 125 then POk (JObj []) r
                         else scan_members fuel' (skip_ws s') []
            | [] => PErr
            end
          else if c =? 91 then
            match skip_ws s' with
            | c1 :: r => if c1 =? 93 then POk (JArr []) r
                         else scan_elements fuel' (skip_ws s') []
            | [] => PErr
            end
          else if startswith (py "null") s then POk JNull (drop 4 s)
          else if startswith (py "true") s then POk (JBool true) (drop 4 s)
          else if startswith (py "false") s then POk (JBool false) (drop 5 s)
          else if startswith (py "NaN") s then POk (JFloat PrimFloat.nan) (drop 3 s)
          else if startswith (py "Infinity") s
               then POk (JFloat PrimFloat.infinity) (drop 8 s)
          else if startswith (py "-Infinity") s
               then POk (JFloat PrimFloat.neg_infinity) (drop 9 s)
          else match match_number s with
               | Some (v, r) => POk v r
               | None => PErr
               end
      end
  end
with scan_elements (fuel : nat) (s : str) (acc : list json) {struct fuel} : pres json :=
  match fuel with
  | O => PFuel
  | S fuel' =>
      match scan_once fuel' s with
      | POk v r =>
          match skip_ws r with
          | c :: r' =>
              if c =? 93 then POk (JArr (rev (v :: acc))) r'
              else if c =? 44 then scan_elements fuel' (skip_ws r') (v :: acc)
              else PErr
          | [] => PErr
          end
      | PErr => PErr
      | PFuel => PFuel
      end
  end
with scan_members (fuel : nat) (s : str) (acc : list (str * json)) {struct fuel} : pres json :=
  match fuel with
  | O => PFuel
  | S fuel' =>
      match s with
      | q :: s' =>
          if q =? 34 then
            match scanstring s' [] with
            | Some (k, r) =>
                match skip_ws r with
                | colon :: r1 =>
                    if colon =? 58 then
                      match scan_once fuel' (skip_ws r1) with
                      | POk v r2 =>
                          match skip_ws r2 with
                          | c :: r3 =>
                              if c =? 125
                              then POk (JObj (dict_of_pairs (rev ((k, v) :: acc)))) r3
                              else if c =? 44
                              then scan_members fuel' (skip_ws r3) ((k, v) :: acc)
                              else PErr
                          | [] => PErr
                          end
                      | PErr => PErr
                      | PFuel => PFuel
                      end
                    else PErr
                | [] => PErr
                end
            | None => PErr
            end
          else PErr
      | [] => PErr
      end
  end.

(** [json.loads(s)]: one value between optional whitespace, nothing else.
    [None] is [JSONDecodeError]. The budget [2 * len(s) + 1] is enough for
    every input ([JsonFacts.json_loads_total] below). Two limits of the
    interpreter are outside the model: the recursion limit, which very deep
    nesting exceeds, and the limit on the number of digits of an integer
    literal. *)
Definition json_loads (s : str) : option json :=
  match scan_once (2 * length s + 1) (skip_ws s) with
  | POk v r => match skip_ws r with [] => Some v | _ => None end
  | _ => None
  end.

End Json.
Export Json.

(** ** The fragment of [re] the sources use *)

Module Regex.

(** A set of characters: one character, [\s], [[\s\S]], or
    [[a-zA-Z0-9_-]]. *)
Inductive cset :=
| CChar (c : N)
| CSpace
| CAny
| CIdent.

Definition cset_mem (cs : cset) (c : N) : bool :=
  match cs with
  | CChar c' => c =? c'
  | CSpace => isspace c
  | CAny => true
  | CIdent => ((97 <=? c) && (c <=? 122)) || ((65 <=? c) && (c <=? 90))
              || isdigit c || (c =? 95) || (c =? 45)
  end.

(** One item of a pattern: a character of a set, a greedy star [x*], a lazy
    star [x*?], or the opening or closing parenthesis of group 1. *)
Inductive item :=
| One (cs : cset)
| Star (cs : cset)
| Lazy (cs : cset)
| GroupOpen
| GroupClose.

Definition pattern := list item.

(** A literal run of characters as a pattern. *)
Definition lit (s : str) : pattern := map (fun c => One (CChar c)) s.

(** The capture state: whether group 1 is open, and its characters so far
    in reverse. *)
Definition capture := (bool * str)%type.

Definition push (c : N) (cap : capture) : capture :=
  if cap.1 then (true, c :: cap.2) else cap.

(** Backtracking match of [p] at the head of [s], in the order [re] tries
    the alternatives: a greedy star takes as many characters as it can and
    gives them back one at a time, a lazy star takes as few as it can. The
    result is the text of group 1. *)
Fixpoint match_here (p : pattern) (s : str) (cap : capture) {struct p} : option str :=
  match p with
  | [] => Some (rev cap.2)
  | One cs :: p' =>
      match s with
      | c :: s' => if cset_mem cs c then match_here p' s' (push c cap) else None
      | [] => None
      end
  | GroupOpen :: p' => match_here p' s (true, [])
  | GroupClose :: p' => match_here p' s (false, cap.2)
  | Star cs :: p' =>
      (fix star (s : str) (cap : capture) {struct s} : option str :=
         match s with
         | c :: s' =>
             if cset_mem cs c
             then match star s' (push c cap) with
                  | Some r => Some r
                  | None => match_here p' s cap
                  end
             else match_here p' s cap
         | [] => match_here p' [] cap
         end) s cap
  | Lazy cs :: p' =>
      (fix lazy (s : str) (cap : capture) {struct s} : option str :=
         match match_here p' s cap with
         | Some r => Some r
         | None =>
             match s with
             | c :: s' => if cset_mem cs c then lazy s' (push c cap) else None
             | [] => None
             end
         end) s cap
  end.

(** An alternation at the head of a pattern is a list of patterns tried in
    order. *)
Fixpoint match_alt (alts : list pattern) (s : str) : option str :=
  match alts with
  | [] => None
  | p :: alts' =>
      match match_here p s (false, []) with
      | Some r => Some r
      | None => match_alt alts' s
      end
  end.

(** [re.search(p, s)]: the match at the leftmost position that has one;
    the result is [match.group(1)], [None] is no match. *)
Fixpoint re_search (alts : list pattern) (s : str) : option str :=
  match match_alt alts s with
  | Some r => Some r
  | None =>
      match s with
      | [] => None
      | _ :: s' => re_search alts s'
      end
  end.

End Regex.
Export Regex.

(** ** Exceptions *)

(** The exceptions the modelled code raises or lets through. *)
Inductive exn :=
| EmptyResponse        (* ValueError: AI returned an empty response *)
| ParseFailure         (* ValueError: Failed to parse AI response as JSON *)
| MissingField (f : str)  (* ValueError: Missing required field *)
| InvalidUrl           (* ValueError: Please provide a valid YouTube URL *)
| NoVideoId            (* ValueError: Could not extract video ID from URL *)
| NoMetadata           (* ValueError: Could not fetch video information *)
| ModelError           (* raised by the model client *)
| TypeError
| KeyError (k : str)
| AttributeError
| OverflowError        (* int() of an infinite float *)
| ValueError           (* int() of NaN *)
| LibraryError.        (* raised inside pandas or numpy *)

Inductive result (A : Type) :=
| Return (a : A)
| Raise (e : exn).
Arguments Return {A} a.
Arguments Raise {A} e.

#[global] Instance result_ret : MRet result := fun _ a => Return a.
#[global] Instance result_bind : MBind result := fun _ _ f m =>
  match m with
  | Return a => f a
  | Raise e => Raise e
  end.
#[global] Instance result_fmap : FMap result := fun _ _ f m =>
  match m with
  | Return a => Return (f a)
  | Raise e => Raise e
  end.

(** ** [services/gemini_service.py]: the JSON salvage extractor *)

Module Extractor.

Definition backticks : str := Eval vm_compute in py "```".
Definition fence_json : str := Eval vm_compute in py "```json".

(** [r'```json\s*(\{[\s\S]*?\})\s*```'] *)
Definition labeled_fence : pattern :=
  lit fence_json ++ [Star CSpace; GroupOpen; One (CChar 123); Lazy CAny;
                         One (CChar 125); GroupClose; Star CSpace] ++ lit backticks.

(** [r'```\s*(\{[\s\S]*?\})\s*```'] *)
Definition plain_fence : pattern :=
  lit backticks ++ [Star CSpace; GroupOpen; One (CChar 123); Lazy CAny;
                    One (CChar 125); GroupClose; Star CSpace] ++ lit backticks.

Definition patterns : list pattern := [labeled_fence; plain_fence].

(** The [for pattern in patterns] loop: the first pattern that matches and
    whose group parses returns; a match that does not parse goes on to the
    next pattern. *)
Fixpoint try_patterns (ps : list pattern) (clean_text : str) : option json :=
  match ps with
  | [] => None
  | p :: ps' =>
      match re_search [p] clean_text with
      | Some g =>
          match json_loads g with
          | Some v => Some v
          | None => try_patterns ps' clean_text
          end
      | None => try_patterns ps' clean_text
      end
  end.

(** The last strategy: from the first opening brace to the last closing
    brace. *)
Definition brace_span (clean_text : str) : option json :=
  match find [123] clean_text, rfind [125] clean_text with
  | Some first_brace, Some last_brace =>
      if (first_brace <? last_brace)%nat
      then json_loads (slice clean_text first_brace (last_brace + 1))
      else None
  | _, _ => None
  end.

Definition extract_json (text : str) : result json :=
  match text with
  | [] => Raise EmptyResponse
  | _ =>
      let clean_text := strip text in
      match json_loads clean_text with
      | Some v => Return v
      | None =>
          match try_patterns patterns clean_text with
          | Some v => Return v
          | None =>
              match brace_span clean_text with
              | Some v => Return v
              | None => Raise ParseFailure
              end
          end
      end
  end.

(** [extract_video_id]: the two URL patterns, the first one an alternation
    of four prefixes; group 1 is eleven identifier characters. *)
Definition video_id_patterns : list (list pattern) :=
  let id11 := GroupOpen :: replicate 11 (One CIdent) ++ [GroupClose] in
  [ [ lit (py "youtube.com/watch?v=") ++ id11;
      lit (py "youtu.be/") ++ id11;
      lit (py "youtube.com/embed/") ++ id11;
      lit (py "youtube.com/v/") ++ id11 ];
    [ lit (py "youtube.com/shorts/") ++ id11 ] ].

Fixpoint first_match (ps : list (list pattern)) (url : str) : option str :=
  match ps with
  | [] => None
  | p :: ps' =>
      match re_search p url with
      | Some g => Some g
      | None => first_match ps' url
      end
  end.

Definition extract_video_id (url : str) : option str :=
  first_match video_id_patterns url.

End Extractor.
Export Extractor.

(** ** Predicates used to state the properties of the extractor *)

Module FenceSpec.

(** After optional whitespace comes a triple backtick: what closes a
    fenced block. *)
Definition closes_fence (s : str) : bool := startswith backticks (lstrip s).

(** Some closing brace of [s] is followed, inside [s], by optional
    whitespace and a triple backtick. *)
Fixpoint early_close (s : str) : bool :=
  match s with
  | [] => false
  | c :: s' => ((c =? 125) && closes_fence s') || early_close s'
  end.

(** [s] holds an opening brace and, somewhere after it, a closing brace. *)
Definition has_brace_span (s : str) : Prop := [123; 125] `sublist_of` s.

End FenceSpec.
Export FenceSpec.

(** ** numpy and pandas arithmetic on binary64 *)

Module Numpy.
Local Open Scope float_scope.

Definition two52 : float := 4503599627370496.

(** [np.rint]: the nearest integer, ties to even. Below [2^52] adding and
    subtracting [2^52] rounds to an integer; from there on every binary64
    value is one. *)
Definition rint (x : float) : float :=
  let a := abs x in
  if a <? two52
  then let r := (a + two52) - two52 in if get_sign x then - r else r
  else x.

(** [round(x, decimals)] on a numpy scalar, [Series.round(decimals)]:
    numpy scales, rounds to an integer and scales back. *)
Definition np_round (x : float) (decimals : Z) : float :=
  let p := Z2F (10 ^ decimals) in rint (x * p) / p.

Definition fsum_from (acc : float) (l : list float) : float :=
  fold_left PrimFloat.add l acc.

(** Eight running sums over the blocks of eight of [l]; what is left when
    fewer than eight items remain is returned with them. [n] bounds the
    number of blocks. *)
Fixpoint sum_blocks (n : nat) (r : list float) (l : list float) : list float * list float :=
  match n with
  | O => (r, l)
  | S n' =>
      if (length l <? 8)%nat then (r, l)
      else sum_blocks n' (zip_with PrimFloat.add r (take 8 l)) (drop 8 l)
  end.

(** numpy's pairwise summation of a contiguous array: a plain loop below
    eight items, eight interleaved partial sums up to 128 items, and
    halving (on a multiple of eight) above. The budget bounds the depth of
    the halving; the length is always enough
    ([SumFacts.pairwise_sum_budget]). *)
Fixpoint pairwise_sum (fuel : nat) (l : list float) : float :=
  let n := length l in
  if (n <? 8)%nat then fsum_from 0 l
  else if (n <=? 128)%nat then
    match sum_blocks n (take 8 l) (drop 8 l) with
    | ([r0; r1; r2; r3; r4; r5; r6; r7], rest) =>
        fsum_from (((r0 + r1) + (r2 + r3)) + ((r4 + r5) + (r6 + r7))) rest
    | _ => nan
    end
  else
    match fuel with
    | O => nan
    | S fuel' =>
        let n2 := (n / 2)%nat in
        let n2 := (n2 - n2 mod 8)%nat in
        pairwise_sum fuel' (take n2 l) + pairwise_sum fuel' (drop n2 l)
    end.

(** [np.sum] / [Series.sum] of a one-dimensional float64 array. (With the
    optional bottleneck package pandas adds in plain order instead; the two
    orders are the same below eight items.) *)
Definition np_sum (l : list float) : float := pairwise_sum (length l) l.

Definition count (l : list float) : float := Z2F (Z.of_nat (length l)).

(** [np.mean]: the sum over the count. *)
Definition np_mean (l : list float) : float := np_sum l / count l.

(** [Series.dropna()] *)
Definition dropna (l : list float) : list float :=
  filter (fun x => is_nan x = false) l.

(** [Series.mean()] (it skips NaN): NaN for an empty series. *)
Definition series_mean (l : list float) : float :=
  match dropna l with
  | [] => nan
  | l' => np_sum l' / count l'
  end.

(** [Series.pct_change()]: each value over the one before it, minus one;
    the first entry has no predecessor and is NaN. *)
Fixpoint changes_from (prev : float) (l : list float) : list float :=
  match l with
  | [] => []
  | y :: l' => (y / prev - 1) :: changes_from y l'
  end.

Definition pct_change (l : list float) : list float :=
  match l with
  | [] => []
  | y :: l' => nan :: changes_from y l'
  end.

(** [int(x)]: truncation toward zero; [ValueError] on NaN, [OverflowError]
    on an infinity. *)
Definition int_of_float (x : float) : result Z :=
  match Prim2SF x with
  | S754_zero _ => Return 0%Z
  | S754_finite s m e =>
      let v := if (0 <=? e)%Z then (Zpos m * 2 ^ e)%Z else (Zpos m / 2 ^ (- e))%Z in
      Return (if s then (- v)%Z else v)
  | S754_infinity _ => Raise OverflowError
  | S754_nan => Raise ValueError
  end.

(** The exact value of a float scaled by [2^1074], an integer: comparing
    these keys is comparing the floats. The infinities lie beyond every
    finite key, and NaN, which a cleaned column does not hold, comes last as
    in numpy's sorts. *)
Definition order_key (x : float) : Z :=
  match Prim2SF x with
  | S754_zero _ => 0
  | S754_finite s m e =>
      let v := (Zpos m * 2 ^ (e + 1074))%Z in if s then (- v)%Z else v
  | S754_infinity s => if s then (- 2 ^ 2100)%Z else (2 ^ 2100)%Z
  | S754_nan => (2 ^ 2101)%Z
  end.

End Numpy.
Export Numpy.

(** ** [services/data_processor.py] *)

Module DataProcessor.

(** One row of the growth frame after the three columns were made
    numeric. A column is held as binary64 values; an integer column of
    pandas holds the same values as long as they are below [2^53] in
    magnitude. *)
Record row := Row { year : float; subscribers : float; videos : float }.

Definition frame := list row.

Definition K_year : str := Eval vm_compute in py "year".
Definition K_subscribers : str := Eval vm_compute in py "subscribers".
Definition K_videos : str := Eval vm_compute in py "videos".

(** [DataFrame.isna] on one cell of a column that was left as it came:
    a missing key, [None] and NaN count as missing. *)
Definition is_na (v : option json) : bool :=
  match v with
  | None => true
  | Some JNull => true
  | Some (JFloat f) => is_nan f
  | Some _ => false
  end.

(** The columns of [pd.DataFrame(list_of_dicts)]: every key of every
    entry. *)
Definition columns (tl : list dict) : list str := flat_map (map fst) tl.

Definition has_column (c : str) (tl : list dict) : bool :=
  bool_decide (c ∈ columns tl).

(** Rows compared by year. *)
Definition year_le (a b : row) : Prop := (order_key (year a) <= order_key (year b))%Z.

(** [df.sort_values('year')]: the rows in non-decreasing order of the year.
    pandas sorts with numpy's default kind, which is not stable: in which
    order rows of the same year come out is the library's choice, it differs
    between builds of numpy, and the code does not fix it. A sort is
    therefore any function that returns its rows rearranged in year order. *)
Record sorter := Sorter {
  sort_rows :> frame -> frame;
  sort_rows_perm : forall l, sort_rows l ≡ₚ l;
  sort_rows_sorted : forall l, Sorted year_le (sort_rows l)
}.

(** Two sorts for the examples: insertion sort that puts a row before the
    rows of its year that came after it in the input (rows of the same year
    stay in their order), or after them (rows of the same year come out
    reversed). *)
Fixpoint insert_row (after_ties : bool) (r : row) (l : frame) : frame :=
  match l with
  | [] => [r]
  | x :: l' =>
      if (if after_ties
          then order_key (year r) <? order_key (year x)
          else order_key (year r) <=? order_key (year x))%Z
      then r :: l
      else x :: insert_row after_ties r l'
  end.

Fixpoint insertion_sort (after_ties : bool) (l : frame) : frame :=
  match l with
  | [] => []
  | r :: l' => insert_row after_ties r (insertion_sort after_ties l')
  end.

Section Pandas.

(** [df.sort_values('year')] *)
Variable sort_values : sorter.

(** [pd.to_numeric(column, errors='coerce')], cell by cell: the number the
    cell holds, NaN when it holds none. *)
Variable to_numeric : json -> float.

(** [pd.DataFrame(x)] followed by the cleaning below, for a truthy [x]
    that is not a list of dicts. *)
Variable frame_of_other : json -> result frame.

(** [np.polyfit(x, y, 1)]: slope and intercept of the least-squares
    line. *)
Variable polyfit : list float -> list float -> result (float * float).

(** [normalize_topic_distribution(topics).to_dict('records')] *)
Variable normalize_topic_distribution : json -> result json.

Definition cell (k : str) (e : dict) : float :=
  match dict_get k e with
  | Some v => to_numeric v
  | None => PrimFloat.nan
  end.

Definition row_of (e : dict) : row :=
  Row (cell K_year e) (cell K_subscribers e) (cell K_videos e).

Definition numeric_column (c : str) : bool :=
  str_eqb c K_year || str_eqb c K_subscribers || str_eqb c K_videos.

(** [df.dropna()] keeps an entry when none of its cells is missing: the
    three numeric ones are not NaN, and every other column of the frame
    has a value in this entry. *)
Definition complete (cols : list str) (e : dict) : bool :=
  negb (is_nan (cell K_year e))
  && negb (is_nan (cell K_subscribers e))
  && negb (is_nan (cell K_videos e))
  && forallb (fun c => numeric_column c || negb (is_na (dict_get c e))) cols.

Definition clean_rows (tl : list dict) : frame :=
  map row_of (filter (fun e => complete (columns tl) e = true) tl).

(** [create_growth_dataframe] on a list of dicts. *)
Definition create_growth_dataframe_list (tl : list dict) : result frame :=
  match tl with
  | [] => Return []
  | _ =>
      if negb (has_column K_year tl) then Raise (KeyError K_year)
      else if negb (has_column K_subscribers tl) then Raise (KeyError K_subscribers)
      else if negb (has_column K_videos tl) then Raise (KeyError K_videos)
      else Return (sort_values (clean_rows tl))
  end.

(** The entries of a JSON list when all of them are objects. *)
Fixpoint as_dicts (l : list json) : option (list dict) :=
  match l with
  | [] => Some []
  | JObj m :: l' => (m ::.) <$> as_dicts l'
  | _ :: _ => None
  end.

Definition create_growth_dataframe (growth_timeline : json) : result frame :=
  if negb (truthy growth_timeline) then Return []
  else match growth_timeline with
       | JArr l =>
           match as_dicts l with
           | Some tl => create_growth_dataframe_list tl
           | None => frame_of_other growth_timeline
           end
       | _ => frame_of_other growth_timeline
       end.

(** *** [calculate_growth_rate] *)

Definition growth_trend_of (avg_sub_growth : float) : str :=
  if (10 <? avg_sub_growth)%float then py "rapid_growth"
  else if (0 <? avg_sub_growth)%float then py "steady_growth"
  else if (-5 <? avg_sub_growth)%float then py "stable"
  else py "declining".

(** [df[col].pct_change() * 100] *)
Definition growth_percent (col : list float) : list float :=
  map (fun c => (c * 100)%float) (pct_change col).

Definition calculate_growth_rate (df : frame) : result json :=
  if (length df <? 2)%nat then
    Return (JObj [(py "avg_subscriber_growth", JFloat 0);
                  (py "avg_video_growth", JFloat 0);
                  (py "growth_trend", JStr (py "insufficient_data"))])
  else
    let sub_growth := growth_percent (map subscribers df) in
    let video_growth := growth_percent (map videos df) in
    let avg_sub_growth := series_mean sub_growth in
    let avg_video_growth := series_mean video_growth in
    let trend := growth_trend_of avg_sub_growth in
    latest_subscribers ← int_of_float (default PrimFloat.nan (last (map subscribers df)));
    latest_videos ← int_of_float (default PrimFloat.nan (last (map videos df)));
    Return (JObj [(py "avg_subscriber_growth", JFloat (np_round avg_sub_growth 2));
                  (py "avg_video_growth", JFloat (np_round avg_video_growth 2));
                  (py "growth_trend", JStr trend);
                  (py "latest_subscribers", JInt latest_subscribers);
                  (py "latest_videos", JInt latest_videos)]).

(** *** [calculate_trend_prediction] *)

Definition trend_strength_of (r_squared : float) : str :=
  if (0.7 <? r_squared)%float then py "strong"
  else if (0.4 <? r_squared)%float then py "moderate"
  else py "weak".

Definition square (x : float) : float := (x * x)%float.

(** [np.array(range(a, a + n))] as floats *)
Definition arange (a n : nat) : list float :=
  map (fun i => Z2F (Z.of_nat i)) (seq a n).

Definition calculate_trend_prediction (df : frame) (periods : nat) : result json :=
  if (length df <? 3)%nat then
    Return (JObj [(py "prediction_available", JBool false)])
  else
    let x := arange 0 (length df) in
    let y := map subscribers df in
    coefficients ← polyfit x y;
    let '(slope, intercept) := coefficients in
    let trend_line := map (fun xi => (slope * xi + intercept)%float) x in
    let future_x := arange (length df) periods in
    let predictions := map (fun xi => (slope * xi + intercept)%float) future_x in
    let y_mean := np_mean y in
    let ss_tot := np_sum (map (fun yi => square (yi - y_mean)%float) y) in
    let ss_res := np_sum (zip_with (fun yi ti => square (yi - ti)%float) y trend_line) in
    let r_squared := (1 - ss_res / ss_tot)%float in
    predicted_next_year ←
      match predictions with
      | p :: _ => JInt <$> int_of_float p
      | [] => Return JNull
      end;
    Return (JObj [(py "prediction_available", JBool true);
                  (py "slope", JFloat slope);
                  (py "r_squared", JFloat r_squared);
                  (py "trend_strength", JStr (trend_strength_of r_squared));
                  (py "predicted_next_year", predicted_next_year)]).

(** *** [validate_channel_data] *)

(** [k in v] for a string [k]: a key of a dict, an item of a list, a
    substring of a string; [TypeError] on anything else. *)
Definition py_in (k : str) (v : json) : result bool :=
  match v with
  | JObj m => Return (dict_has k m)
  | JArr l => Return (existsb (fun x => match x with JStr s => str_eqb s k | _ => false end) l)
  | JStr s => Return (contains k s)
  | _ => Raise TypeError
  end.

Definition K_channelName : str := Eval vm_compute in py "channelName".
Definition K_stats : str := Eval vm_compute in py "stats".
Definition K_growthTimeline : str := Eval vm_compute in py "growthTimeline".
Definition K_growthStatistics : str := Eval vm_compute in py "growthStatistics".
Definition K_trendPrediction : str := Eval vm_compute in py "trendPrediction".
Definition K_topicAnalysis : str := Eval vm_compute in py "topicAnalysis".
Definition K_topicDistribution : str := Eval vm_compute in py "topicDistribution".
Definition K_prediction_available : str := Eval vm_compute in py "prediction_available".

Definition required_fields : list str := [K_channelName; K_stats; K_growthTimeline].

(** The loop over the required fields: the first one missing raises. *)
Fixpoint check_required (fields : list str) (channel_data : json) : result unit :=
  match fields with
  | [] => Return ()
  | field :: fields' =>
      present ← py_in field channel_data;
      if present : bool then check_required fields' channel_data
      else Raise (MissingField field)
  end.

(** [trend_pred.get('prediction_available')] as a condition *)
Definition prediction_available (trend_pred : json) : bool :=
  match trend_pred with
  | JObj m => match dict_get K_prediction_available m with
              | Some v => truthy v
              | None => false
              end
  | _ => false
  end.

(** The growth part of [validate_channel_data], on the dict. *)
Definition attach_growth (channel_data : dict) : result dict :=
  match dict_get K_growthTimeline channel_data with
  | None => Return channel_data
  | Some growth_timeline =>
      df ← create_growth_dataframe growth_timeline;
      growth_stats ← calculate_growth_rate df;
      let channel_data := dict_set K_growthStatistics growth_stats channel_data in
      trend_pred ← calculate_trend_prediction df 1;
      if prediction_available trend_pred
      then Return (dict_set K_trendPrediction trend_pred channel_data)
      else Return channel_data
  end.

(** The topic part: when the channel has a topic analysis that holds a
    topic distribution, the distribution is replaced by its normalized
    records. *)
Definition attach_topics (channel_data : dict) : result dict :=
  match dict_get K_topicAnalysis channel_data with
  | None => Return channel_data
  | Some topic_analysis =>
      present ← py_in K_topicDistribution topic_analysis;
      if present : bool then
        match topic_analysis with
        | JObj ta =>
            records ← normalize_topic_distribution
                        (default JNull (dict_get K_topicDistribution ta));
            Return (dict_set K_topicAnalysis
                      (JObj (dict_set K_topicDistribution records ta)) channel_data)
        | _ => Raise TypeError
        end
      else Return channel_data
  end.

Definition validate_channel_data (channel_data : json) : result json :=
  _ ← check_required required_fields channel_data;
  match channel_data with
  | JObj m =>
      m ← attach_growth m;
      m ← attach_topics m;
      Return (JObj m)
  | _ => Raise TypeError
  end.

(** *** [calculate_battle_statistics] *)

(** The statistics of two or more rows (mean, sample deviation, range,
    closeness and decisiveness of the overall scores). *)
Variable overall_statistics : list json -> result json.

Definition calculate_battle_statistics (scores_df : list json) : result json :=
  if (length scores_df <? 2)%nat
  then Return (JObj [(py "statistical_analysis", JStr (py "insufficient_data"))])
  else overall_statistics scores_df.

End Pandas.

End DataProcessor.
Export DataProcessor.

(** ** [services/gemini_service.py]: the orchestrators, and the battle route
       of [app.py] *)

Module Service.

(** The [web] part of a grounding chunk; an attribute that is absent is
    [None]. *)
Record web := Web { web_title : option str; web_uri : option str }.

(** What the model client returns. [resp_text] is [response.text], which
    can raise. [resp_chunks] are the grounding chunks of the first
    candidate, each with its [web] part when it has a truthy one; the list
    is empty when the response has no candidates, no grounding metadata or
    no chunks. *)
Record response := Response {
  resp_text : result str;
  resp_chunks : list (option web)
}.

(** A prompt, by the data its text is built from. *)
Inductive prompt :=
| ChannelPrompt (channel_name : str)
| BattlePrompt (channels : list json)
| TruthPrompt (video_input video_id : str) (title author : json).

(** The process state: the module-level [cache] and the log of the prompts
    sent to the model so far. *)
Record world := World {
  cache : gmap str json;
  calls : list prompt
}.

(** Computations that read and write the state and may raise; what was
    written before an exception stays written. *)
Definition M (A : Type) : Type := world -> result A * world.

#[global] Instance M_ret : MRet M := fun _ a w => (Return a, w).
#[global] Instance M_bind : MBind M := fun _ _ f m w =>
  match m w with
  | (Return a, w') => f a w'
  | (Raise e, w') => (Raise e, w')
  end.

Definition lift {A} (r : result A) : M A := fun w => (r, w).

Definition K_title : str := Eval vm_compute in py "title".
Definition K_uri : str := Eval vm_compute in py "uri".
Definition K_sources : str := Eval vm_compute in py "sources".

(** The sources of a response: title and uri of every chunk with a [web]
    part, with the defaults of [getattr]. *)
Definition sources_of (r : response) : list (str * str) :=
  omap (fun c : option web =>
          w ← c;
          Some (default (py "Source") (web_title w), default (py "#") (web_uri w)))
       (resp_chunks r).

(** The first source of every uri, in order. *)
Fixpoint unique_from (seen_uris : gset str) (sources : list (str * str)) : list (str * str) :=
  match sources with
  | [] => []
  | source :: rest =>
      if bool_decide (source.2 ∈ seen_uris)
      then unique_from seen_uris rest
      else source :: unique_from ({[source.2]} ∪ seen_uris) rest
  end.

Definition source_json (s : str * str) : json :=
  JObj [(K_title, JStr s.1); (K_uri, JStr s.2)].

Definition unique_sources (r : response) : json :=
  JArr (map source_json (unique_from ∅ (sources_of r))).

(** [v[k] = x] on a value that must be a dict. *)
Definition set_item (k : str) (x : json) (v : json) : result json :=
  match v with
  | JObj m => Return (JObj (dict_set k x m))
  | _ => Raise TypeError
  end.

(** [v[k]] for a string key. *)
Definition get_item (k : str) (v : json) : result json :=
  match v with
  | JObj m => match dict_get k m with Some x => Return x | None => Raise (KeyError k) end
  | _ => Raise TypeError
  end.

(** The answer of a route: [jsonify(result)], or an error with its
    status. *)
Inductive http_response :=
| Ok200 (v : json)
| Error400 (message : str)
| Error500 (e : exn).

Section Orchestrators.

(** [str.lower] *)
Variable lower : str -> str.

(** The hosted model: [GenerativeModel(...).generate_content(prompt)].
    Its answer may depend on everything it was asked before. *)
Variable generate_content : list prompt -> prompt -> result response.

(** [requests.get] on the oEmbed address of a video: [response.ok] and
    [response.json()], or the exception of the request itself. *)
Variable requests_get : str -> result (bool * result json).

(** The pandas and numpy functions of the statistics layer. *)
Variable sort_values : sorter.
Variable to_numeric : json -> float.
Variable frame_of_other : json -> result frame.
Variable polyfit : list float -> list float -> result (float * float).
Variable normalize_topic_distribution : json -> result json.
Variable overall_statistics : list json -> result json.

(** [pd.DataFrame(x)] as its rows. *)
Variable pd_DataFrame : json -> result (list json).

(** [calculate_confidence_interval] of the statistics layer. *)
Variable calculate_confidence_interval : json -> result json.

(** Flask's [jsonify(result)]: the body of the answer, or the [TypeError]
    of a value it cannot serialise (a numpy boolean among the statistics of
    a battle, for one). *)
Variable jsonify : json -> result json.

Definition call_model (p : prompt) : M response := fun w =>
  (generate_content (calls w) p, World (cache w) (calls w ++ [p])).

Definition cache_key (channel_name : str) : str :=
  py "channel:" ++ lower channel_name.

(** *** [analyze_channel] *)

(** The miss path between the model call and the cache write: extract,
    validate and enhance, attach the deduplicated sources. *)
Definition channel_report (response : response) : result json :=
  text ← resp_text response;
  channel_data ← extract_json text;
  channel_data ← validate_channel_data sort_values to_numeric frame_of_other polyfit
                   normalize_topic_distribution channel_data;
  set_item K_sources (unique_sources response) channel_data.

Definition store (key : str) (channel_data : json) : M json := fun w =>
  (Return channel_data, World (<[key := channel_data]> (cache w)) (calls w)).

Definition analyze_channel (channel_name : str) : M json := fun w =>
  let key := cache_key channel_name in
  match cache w !! key with
  | Some cached => (Return cached, w)
  | None =>
      (response ← call_model (ChannelPrompt channel_name);
       channel_data ← lift (channel_report response);
       store key channel_data) w
  end.

(** *** [run_battle] *)

Definition K_channels : str := Eval vm_compute in py "channels".
Definition K_scores : str := Eval vm_compute in py "scores".
Definition K_verdict : str := Eval vm_compute in py "verdict".
Definition K_statistics : str := Eval vm_compute in py "statistics".

(** [[analyze_channel(name) for name in channel_names]]; a name that is
    not a string has no [lower]. *)
Fixpoint analyze_all (channel_names : list json) : M (list json) :=
  match channel_names with
  | [] => mret []
  | name :: rest =>
      c ← match name with
          | JStr s => analyze_channel s
          | _ => lift (Raise AttributeError)
          end;
      cs ← analyze_all rest;
      mret (c :: cs)
  end.

(** [', '.join([c['channelName'] for c in channels])] needs every channel
    name to be a string. *)
Fixpoint joinable (channels : list json) : result unit :=
  match channels with
  | [] => Return ()
  | c :: rest =>
      n ← get_item K_channelName c;
      match n with
      | JStr _ => joinable rest
      | _ => Raise TypeError
      end
  end.

Definition run_battle (channel_names : list json) : M json :=
  channels ← analyze_all channel_names;
  _ ← lift (joinable channels);
  response ← call_model (BattlePrompt channels);
  lift (synthesis ← (text ← resp_text response; extract_json text);
        scores ← get_item K_scores synthesis;
        scores_df ← pd_DataFrame scores;
        battle_stats ← calculate_battle_statistics overall_statistics scores_df;
        verdict ← get_item K_verdict synthesis;
        Return (JObj [(K_channels, JArr channels);
                      (K_scores, scores);
                      (K_verdict, verdict);
                      (K_statistics, battle_stats)])).

(** *** [api_run_battle] of [app.py] *)

Definition is_list (v : json) : bool :=
  match v with JArr _ => true | _ => false end.

(** [[ch['channelName'] if isinstance(ch, dict) else ch for ch in channels]] *)
Fixpoint names_of (channels : list json) : result (list json) :=
  match channels with
  | [] => Return []
  | ch :: rest =>
      n ← match ch with
          | JObj _ => get_item K_channelName ch
          | _ => Return ch
          end;
      ns ← names_of rest;
      Return (n :: ns)
  end.

(** The route on the parsed request body [data]. *)
Definition api_run_battle (data : json) : world -> http_response * world := fun w =>
  match data with
  | JObj d =>
      let channels := default JNull (dict_get K_channels d) in
      if negb (truthy channels) || negb (is_list channels)
      then (Error400 (py "Channels array is required"), w)
      else
        match channels with
        | JArr l =>
            if (length l <? 2)%nat || (5 <? length l)%nat
            then (Error400 (py "Please provide 2-5 channels"), w)
            else
              match names_of l with
              | Raise e => (Error500 e, w)
              | Return channel_names =>
                  match run_battle channel_names w with
                  | (Return result, w') =>
                      match jsonify result with
                      | Return body => (Ok200 body, w')
                      | Raise e => (Error500 e, w')
                      end
                  | (Raise e, w') => (Error500 e, w')
                  end
              end
        | _ => (Error400 (py "Channels array is required"), w)
        end
  | _ => (Error500 AttributeError, w)
  end.

(** *** [fetch_video_metadata] and [analyze_video_truth] *)

Record metadata := Metadata { title : json; author : json }.

Definition fetch_video_metadata (video_url : str) : option metadata :=
  match requests_get video_url with
  | Return (true, Return (JObj data)) =>
      Some (Metadata (default (JStr (py "Unknown Title")) (dict_get (py "title") data))
                     (default (JStr (py "Unknown Creator")) (dict_get (py "author_name") data)))
  | _ => None
  end.

Definition K_videoTitle : str := Eval vm_compute in py "videoTitle".
Definition K_creatorName : str := Eval vm_compute in py "creatorName".
Definition K_truthScore : str := Eval vm_compute in py "truthScore".
Definition K_scoreConfidence : str := Eval vm_compute in py "scoreConfidence".
Definition K_references : str := Eval vm_compute in py "references".

Definition analyze_video_truth (video_input : str) : M json :=
  let is_url := contains (py "youtube.com/") (lower video_input)
                || contains (py "youtu.be/") (lower video_input) in
  if negb is_url then lift (Raise InvalidUrl)
  else
    match extract_video_id video_input with
    | None => lift (Raise NoVideoId)
    | Some video_id =>
        match fetch_video_metadata video_input with
        | None => lift (Raise NoMetadata)
        | Some metadata =>
            response ← call_model (TruthPrompt video_input video_id
                                     (title metadata) (author metadata));
            lift (analysis ← (text ← resp_text response; extract_json text);
                  analysis ← set_item K_videoTitle (title metadata) analysis;
                  analysis ← set_item K_creatorName (author metadata) analysis;
                  analysis ←
                    (match get_item K_truthScore analysis with
                     | Return score =>
                         confidence ← calculate_confidence_interval score;
                         set_item K_scoreConfidence confidence analysis
                     | Raise _ => Return analysis
                     end);
                  set_item K_references (unique_sources response) analysis)
        end
    end.

End Orchestrators.

End Service.
Export Service.

(** ** The two sorts of the examples are sorts *)

Module RowSort.

Lemma insert_row_perm b r l : insert_row b r l ≡ₚ r :: l.
Proof.
  induction l as [|x l IH]; [done|]. simpl.
  destruct (if b then _ else _); [done|]. rewrite IH. apply Permutation_swap.
Qed.

Lemma insertion_sort_perm b l : insertion_sort b l ≡ₚ l.
Proof.
  induction l as [|r l IH]; [done|]. simpl. by rewrite insert_row_perm, IH.
Qed.

Lemma insert_row_sorted b r l : Sorted year_le l -> Sorted year_le (insert_row b r l).
Proof.
  assert (forall x, (if (if b then order_key (year r) <? order_key (year x)
                          else order_key (year r) <=? order_key (year x))%Z
                     then year_le r x else year_le x r)) as Hcmp.
  { intros x. unfold year_le. destruct b.
    - destruct (Z.ltb_spec (order_key (year r)) (order_key (year x))); lia.
    - destruct (Z.leb_spec (order_key (year r)) (order_key (year x))); lia. }
  induction 1 as [|x l Hs IH Hhd]; simpl.
  - by repeat constructor.
  - pose proof (Hcmp x) as Hx.
    destruct (if b then _ else _)%Z.
    + by repeat constructor.
    + constructor; [done|].
      destruct Hhd as [|y l Hxy]; simpl; [by constructor|].
      pose proof (Hcmp y) as Hy.
      destruct (if b then _ else _)%Z; by constructor.
Qed.

Lemma insertion_sort_sorted b l : Sorted year_le (insertion_sort b l).
Proof. induction l; simpl; [constructor|by apply insert_row_sorted]. Qed.

(** Rows of the same year stay in their order. *)
Definition stable_sort : sorter :=
  Sorter (insertion_sort false) (insertion_sort_perm false) (insertion_sort_sorted false).

(** Rows of the same year come out reversed. *)
Definition reversing_sort : sorter :=
  Sorter (insertion_sort true) (insertion_sort_perm true) (insertion_sort_sorted true).

End RowSort.
Export RowSort.

(** ** Concrete libraries and inputs for the examples *)

Module Examples.

(** [str.lower] on ASCII text. *)
Definition ascii_lower (s : str) : str :=
  map (fun c => if (65 <=? c) && (c <=? 90) then c + 32 else c) s.

(** [pd.to_numeric] on the cells of the examples, which are JSON numbers;
    any other cell is taken as NaN here. *)
Definition numeric_cell (v : json) : float :=
  match v with
  | JInt z => Z2F z
  | JFloat f => f
  | _ => PrimFloat.nan
  end.

(** [pd.DataFrame] on the lists of the examples: one row per item. *)
Definition rows_of_list (v : json) : result (list json) :=
  match v with
  | JArr l => Return l
  | _ => Raise LibraryError
  end.

(** Library calls the examples never reach. *)
Definition unreached_frame (_ : json) : result frame := Raise LibraryError.
Definition unreached_json (_ : json) : result json := Raise LibraryError.
Definition unreached_rows (_ : list json) : result json := Raise LibraryError.
Definition unreached_fit (_ _ : list float) : result (float * float) := Raise LibraryError.

(** The least-squares line in closed form, standing for [np.polyfit] in
    the examples: slope [sum (x - mx)(y - my) / sum (x - mx)^2] and
    intercept [my - slope * mx]. numpy solves the same problem through a
    matrix factorization; the two agree up to the last digits. *)
Definition ols_fit (x y : list float) : result (float * float) :=
  let mx := np_mean x in
  let my := np_mean y in
  let sxy := np_sum (zip_with (fun xi yi => ((xi - mx) * (yi - my))%float) x y) in
  let sxx := np_sum (map (fun xi => ((xi - mx) * (xi - mx))%float) x) in
  let slope := (sxy / sxx)%float in
  Return (slope, (my - slope * mx)%float).

(** A model that answers every channel prompt with a minimal channel
    object, every battle prompt with one score and a verdict, and every
    truth prompt with a report that names another title and creator. *)
Definition scripted_model (_ : list prompt) (p : prompt) : result response :=
  match p with
  | ChannelPrompt _ =>
      Return (Response (Return (py "{'channelName': 'a', 'stats': {}, 'growthTimeline': []}")) [])
  | BattlePrompt _ =>
      Return (Response (Return (py "{'scores': [{'channelName': 'a', 'overall': 80}], 'verdict': {'winner': 'a'}}")) [])
  | TruthPrompt _ _ _ _ =>
      Return (Response (Return (py "{'videoTitle': 'Made up', 'creatorName': 'Nobody', 'claims': []}"))
                [Some (Web (Some (py "S")) (Some (py "http://s")));
                 Some (Web None (Some (py "http://s")))])
  end.

(** An oEmbed endpoint that knows every video under one title and
    author. *)
Definition scripted_oembed (_ : str) : result (bool * result json) :=
  Return (true, Return (JObj [(py "title", JStr (py "Real title"));
                              (py "author_name", JStr (py "Real author"))])).

Definition empty_world : world := World ∅ [].

Definition example_url : str := py "https://youtu.be/dQw4w9WgXcQ".

(** The report [analyze_video_truth] builds for [example_url] from the
    scripted answers. *)
Definition truth_report : json :=
  JObj [(K_videoTitle, JStr (py "Real title"));
        (K_creatorName, JStr (py "Real author"));
        (py "claims", JArr []);
        (K_references, JArr [JObj [(K_title, JStr (py "S")); (K_uri, JStr (py "http://s"))]])].

(** The timeline of the specification:
    (2020, 1000, 10), (2021, 1100, 12), (2022, 1210, 14). *)
Definition spec_timeline : frame :=
  [Row 2020 1000 10; Row 2021 1100 12; Row 2022 1210 14].

(** Three points whose least-squares prediction for the next period is
    266.67. *)
Definition rounding_timeline : frame :=
  [Row 2020 100 1; Row 2021 200 2; Row 2022 200 3].

Definition entry (y s v : Z) : dict :=
  [(K_year, JInt y); (K_subscribers, JInt s); (K_videos, JInt v)].

(** Two entries of the same year, in both orders. *)
Definition tied_timeline : list dict := [entry 2020 100 1; entry 2020 200 2].
Definition tied_timeline_swapped : list dict := [entry 2020 200 2; entry 2020 100 1].

Definition channel_with (timeline : list dict) (more : dict) : json :=
  JObj ([(K_channelName, JStr (py "a"));
         (K_stats, JObj []);
         (K_growthTimeline, JArr (map JObj timeline))] ++ more).

(** [jsonify] on the values of the examples, which hold no numpy boolean:
    the value itself. *)
Definition plain_jsonify (v : json) : result json := Return v.

(** Validation with a sort that reverses the rows of a year. *)
Definition validate_reversing : json -> result json :=
  validate_channel_data reversing_sort numeric_cell unreached_frame ols_fit unreached_json.

Definition validate_example : json -> result json :=
  validate_channel_data stable_sort numeric_cell unreached_frame ols_fit unreached_json.

Definition analyze_example : str -> M json :=
  analyze_channel ascii_lower scripted_model stable_sort numeric_cell unreached_frame ols_fit
    unreached_json.

Definition battle_example : list json -> M json :=
  run_battle ascii_lower scripted_model stable_sort numeric_cell unreached_frame ols_fit
    unreached_json unreached_rows rows_of_list.

Definition route_example : json -> world -> http_response * world :=
  api_run_battle ascii_lower scripted_model stable_sort numeric_cell unreached_frame ols_fit
    unreached_json unreached_rows rows_of_list plain_jsonify.

(** The report the scripted model leads to for any channel. *)
Definition channel_report_a : json :=
  JObj [(K_channelName, JStr (py "a"));
        (K_stats, JObj []);
        (K_growthTimeline, JArr []);
        (K_growthStatistics,
          JObj [(py "avg_subscriber_growth", JFloat 0);
                (py "avg_video_growth", JFloat 0);
                (py "growth_trend", JStr (py "insufficient_data"))]);
        (K_sources, JArr [])].

Definition one_name : list json := [JStr (py "a")].
Definition two_names : list json := [JStr (py "a"); JStr (py "b")].
Definition six_names : list json :=
  [JStr (py "a"); JStr (py "b"); JStr (py "c"); JStr (py "d"); JStr (py "e"); JStr (py "f")].

(** Whether a computation returned, and how many prompts went to the
    model. *)
Definition returned {A} (r : result A * world) : bool :=
  match r.1 with Return _ => true | Raise _ => false end.
Definition model_calls {A} (r : result A * world) : nat := length (calls r.2).

(** The length of the scores of a battle result. *)
Definition scores_length (r : result json * world) : option nat :=
  match r.1 with
  | Return (JObj m) =>
      match dict_get K_scores m with
      | Some (JArr l) => Some (length l)
      | _ => None
      end
  | _ => None
  end.

End Examples.

(** ** Predicates used to state the properties of [extract_video_id] *)

Module LinkSpec.

(** The literal prefixes of the first pattern of [extract_video_id], in the
    order of its alternation, and the prefix of the second pattern. *)
Definition watch_prefixes : list str :=
  Eval vm_compute in
    [py "youtube.com/watch?v="; py "youtu.be/"; py "youtube.com/embed/"; py "youtube.com/v/"].

Definition shorts_prefix : str := Eval vm_compute in py "youtube.com/shorts/".

Definition link_prefixes : list str := watch_prefixes ++ [shorts_prefix].

(** A character of the class [[a-zA-Z0-9_-]]. *)
Definition is_id_char (c : N) : bool := cset_mem CIdent c.

(** Eleven characters of that class. *)
Definition is_video_id (id : str) : Prop :=
  length id = 11%nat /\ forallb is_id_char id = true.

(** The pattern of one link prefix: the prefix, then the group of eleven
    identifier characters. *)
Definition link_pattern (prefix : str) : pattern :=
  lit prefix ++ GroupOpen :: replicate 11 (One CIdent) ++ [GroupClose].

End LinkSpec.
Export LinkSpec.

(** ** [services/data_processor.py]: [calculate_confidence_interval] *)

Module Confidence.
Local Open Scope float_scope.

(** The function can raise one exception that is not among [exn]. *)
Inductive error :=
| Known (e : exn)
| ZeroDivisionError.

Inductive attempt (A : Type) :=
| Done (a : A)
| Fails (e : error).
Arguments Done {A} a.
Arguments Fails {A} e.

#[global] Instance attempt_ret : MRet attempt := fun _ a => Done a.
#[global] Instance attempt_bind : MBind attempt := fun _ _ f m =>
  match m with
  | Done a => f a
  | Fails e => Fails e
  end.

(** [float(n)] for a Python [int]: the nearest binary64 value, and
    [OverflowError] when that is beyond the largest one. *)
Definition float_of_int (z : Z) : attempt float :=
  let f := Z2F z in
  if is_infinity f then Fails (Known OverflowError) else Done f.

(** A JSON value as an operand of float arithmetic: a number is taken as a
    float ([True] and [False] are the integers 1 and 0), anything else is a
    [TypeError]. *)
Definition as_float (v : json) : attempt float :=
  match v with
  | JInt z => float_of_int z
  | JBool b => Done (if b then 1 else 0)
  | JFloat f => Done f
  | _ => Fails (Known TypeError)
  end.

(** [num / den] rounded to the nearest integer, ties to the even one, for
    [0 <= num] and [0 < den]. *)
Definition round_half_even (num den : Z) : Z :=
  let q := (num / den)%Z in
  let r := (num mod den)%Z in
  if (2 * r <? den)%Z then q
  else if (den <? 2 * r)%Z then (q + 1)%Z
  else if Z.even q then q else (q + 1)%Z.

(** [round(x, ndigits)] on a Python [float], for [ndigits >= 0]: the
    decimal with [ndigits] digits after the point that is nearest to the
    exact value of [x], ties going to the even last digit, read back as a
    float. NaN and the infinities are returned as they are. *)
Definition py_round (x : float) (ndigits : nat) : float :=
  match Prim2SF x with
  | S754_finite s m e =>
      let scaled := (Zpos m * 10 ^ Z.of_nat ndigits)%Z in
      let n := if (0 <=? e)%Z then (scaled * 2 ^ e)%Z
               else round_half_even scaled (2 ^ (- e)) in
      float_of_decimal s n (- Z.of_nat ndigits)
  | _ => x
  end.

(** [round(score, 1)] on the score as it came: an [int] (or [bool]) gives
    the integer itself, a [float] is rounded. *)
Definition round_score (score : json) : json :=
  match score with
  | JFloat f => JFloat (py_round f 1)
  | JBool b => JInt (if b then 1 else 0)
  | v => v
  end.

(** [1.96 if confidence == 0.95 else 2.576 if confidence == 0.99 else 1.645] *)
Definition z_value (confidence : float) : float :=
  if confidence =? 0.95 then 1.96
  else if confidence =? 0.99 then 2.576
  else 1.645.

(** [round(max(0, x), 1)]: [max] keeps the integer 0 unless [x > 0]; a
    numpy float is rounded by numpy. *)
Definition lower_bound_of (x : float) : json :=
  if 0 <? x then JFloat (np_round x 1) else JInt 0.

(** [round(min(100, x), 1)] *)
Definition upper_bound_of (x : float) : json :=
  if x <? 100 then JFloat (np_round x 1) else JInt 100.

Definition K_score : str := Eval vm_compute in py "score".
Definition K_lower_bound : str := Eval vm_compute in py "lower_bound".
Definition K_upper_bound : str := Eval vm_compute in py "upper_bound".
Definition K_margin_of_error : str := Eval vm_compute in py "margin_of_error".

Definition calculate_confidence_interval
    (score : json) (sample_size : Z) (confidence : float) : attempt json :=
  s ← as_float score;
  let p := s / 100 in
  n ← float_of_int sample_size;
  if (sample_size =? 0)%Z then Fails ZeroDivisionError
  else
    let se := sqrt ((p * (1 - p)) / n) in
    let z := z_value confidence in
    let margin := z * se * 100 in
    let lower_bound := lower_bound_of (s - margin) in
    let upper_bound := upper_bound_of (s + margin) in
    Done (JObj [(K_score, round_score score);
                (K_lower_bound, lower_bound);
                (K_upper_bound, upper_bound);
                (K_margin_of_error, JFloat (np_round margin 1))]).

(** The call [calculate_confidence_interval(score)] of the truth
    orchestrator, with the default sample size 100 and confidence 0.95.
    (The last case does not arise: the sample size is not zero.) *)
Definition confidence_of_score (score : json) : result json :=
  match calculate_confidence_interval score 100 0.95 with
  | Done v => Return v
  | Fails (Known e) => Raise e
  | Fails ZeroDivisionError => Raise LibraryError
  end.

(** Whether a JSON value is a number for Python arithmetic. *)
Definition is_number (v : json) : bool :=
  match v with
  | JInt _ | JFloat _ | JBool _ => true
  | _ => false
  end.

(** A number of the result as a float. *)
Definition number (v : json) : float :=
  match v with
  | JInt z => Z2F z
  | JFloat f => f
  | _ => nan
  end.

(** The result for an integer score is an interval around it inside
    [[0, 100]], with a margin between 0 and [most]. *)
Definition brackets (z : Z) (most : float) (r : attempt json) : bool :=
  match r with
  | Done (JObj [(k1, JInt sc); (k2, lo); (k3, hi); (k4, JFloat me)]) =>
      str_eqb k1 K_score && str_eqb k2 K_lower_bound
      && str_eqb k3 K_upper_bound && str_eqb k4 K_margin_of_error
      && (sc =? z)%Z
      && (0 <=? number lo) && (number lo <=? Z2F z)
      && (Z2F z <=? number hi) && (number hi <=? 100)
      && (0 <=? me) && (me <=? most)
  | _ => false
  end.

(** The result for a score outside the scale: the whole scale, and no
    margin. *)
Definition whole_scale (z : Z) (r : attempt json) : bool :=
  match r with
  | Done (JObj [(k1, JInt sc); (k2, JInt lo); (k3, JInt hi); (k4, JFloat me)]) =>
      str_eqb k1 K_score && str_eqb k2 K_lower_bound
      && str_eqb k3 K_upper_bound && str_eqb k4 K_margin_of_error
      && (sc =? z)%Z && (lo =? 0)%Z && (hi =? 100)%Z && is_nan me
  | _ => false
  end.

(** The integers from [a] on, [n] of them. *)
Definition zrange (a : Z) (n : nat) : list Z := map (fun i => (a + Z.of_nat i)%Z) (seq 0 n).

End Confidence.
Export Confidence.

(** ** [services/data_processor.py]: the statistics of a battle *)

Module BattleStatistics.
Local Open Scope float_scope.

Definition K_overall : str := Eval vm_compute in py "overall".

(** The cell of the overall column for one row of the scores frame, when
    the row is a dict that holds a number under overall: an integer of at
    most [2^53] in magnitude (the column holds it exactly, as an integer or
    as a float) or a float that is not NaN. *)
Definition overall_cell (row : json) : option float :=
  match row with
  | JObj m =>
      match dict_get K_overall m with
      | Some (JInt z) => if (Z.abs z <=? 2 ^ 53)%Z then Some (Z2F z) else None
      | Some (JFloat f) => if is_nan f then None else Some f
      | _ => None
      end
  | _ => None
  end.

(** [scores_df['overall']] when every row has such a cell. *)
Definition overall_column (rows : list json) : option (list float) :=
  mapM overall_cell rows.

(** [Series.max()] and [Series.min()] of a column without NaN. *)
Definition series_max (l : list float) : float :=
  match l with
  | [] => nan
  | x :: l' => fold_left (fun a b => if a <? b then b else a) l' x
  end.

Definition series_min (l : list float) : float :=
  match l with
  | [] => nan
  | x :: l' => fold_left (fun a b => if b <? a then b else a) l' x
  end.

(** [Series.std()]: the sample standard deviation, computed in two
    passes; NaN for fewer than two values. *)
Definition series_std (l : list float) : float :=
  if (length l <=? 1)%nat then nan
  else
    let avg := np_sum l / count l in
    let sqr := map (fun v => square (avg - v)) l in
    sqrt (np_sum sqr / Z2F (Z.of_nat (length l) - 1)).

(** The column in descending order; [nlargest(2).iloc[1]] is its second
    value. *)
Fixpoint insert_desc (x : float) (l : list float) : list float :=
  match l with
  | [] => [x]
  | y :: l' => if y <? x then x :: l else y :: insert_desc x l'
  end.

Definition sort_desc (l : list float) : list float := foldr insert_desc [] l.

Definition second_largest (l : list float) : float := nth 1 (sort_desc l) nan.

Definition K_mean_score : str := Eval vm_compute in py "mean_score".
Definition K_std_dev : str := Eval vm_compute in py "std_dev".
Definition K_score_range : str := Eval vm_compute in py "score_range".
Definition K_close_competition : str := Eval vm_compute in py "close_competition".
Definition K_decisive_winner : str := Eval vm_compute in py "decisive_winner".
Definition K_score_difference : str := Eval vm_compute in py "score_difference".

(** The body of [calculate_battle_statistics] after its length check, on
    the overall column. (The second check of the length in the source
    always holds there.) *)
Definition numeric_statistics (overall_scores : list float) : json :=
  let std := series_std overall_scores in
  let top_score := series_max overall_scores in
  let second_score := second_largest overall_scores in
  let score_diff := top_score - second_score in
  JObj [(K_mean_score, JFloat (np_mean overall_scores));
        (K_std_dev, JFloat std);
        (K_score_range, JFloat (series_max overall_scores - series_min overall_scores));
        (K_close_competition, JBool (std <? 10));
        (K_decisive_winner, JBool (std <? score_diff));
        (K_score_difference, JFloat score_diff)].

(** The statistics of two or more rows: computed as above when the
    overall column is numeric, left to [other] for any other frame. *)
Definition overall_statistics_of (other : list json -> result json)
    (scores_df : list json) : result json :=
  match overall_column scores_df with
  | Some overall_scores => Return (numeric_statistics overall_scores)
  | None => other scores_df
  end.

(** A row of scores with an integer overall score. *)
Definition score_row (name : str) (overall : Z) : json :=
  JObj [(K_channelName, JStr name); (K_overall, JInt overall)].

(** What the statistics of two integer scores must be: the mean, a range
    and a difference equal to the distance of the two, a close competition
    up to a distance of 14, and a decisive winner unless the scores are
    equal. *)
Definition duel_outcome (a b : Z) (r : result json) : bool :=
  match r with
  | Return (JObj [(k1, JFloat mean); (k2, JFloat std); (k3, JFloat range);
                  (k4, JBool close); (k5, JBool decisive); (k6, JFloat diff)]) =>
      str_eqb k1 K_mean_score && str_eqb k2 K_std_dev && str_eqb k3 K_score_range
      && str_eqb k4 K_close_competition && str_eqb k5 K_decisive_winner
      && str_eqb k6 K_score_difference
      && (mean =? Z2F (a + b) / 2)
      && (range =? Z2F (Z.abs (a - b)))
      && (diff =? Z2F (Z.abs (a - b)))
      && Bool.eqb close (Z.abs (a - b) <=? 14)%Z
      && Bool.eqb decisive (negb (a =? b)%Z)
  | _ => false
  end.

End BattleStatistics.
Export BattleStatistics.

(** ** [app.py]: the channel route and the truth route *)

Module Routes.

Definition K_videoInput : str := Eval vm_compute in py "videoInput".

Section Routes.

Variable lower : str -> str.
Variable generate_content : list prompt -> prompt -> result response.
Variable requests_get : str -> result (bool * result json).
Variable sort_values : sorter.
Variable to_numeric : json -> float.
Variable frame_of_other : json -> result frame.
Variable polyfit : list float -> list float -> result (float * float).
Variable normalize_topic_distribution : json -> result json.
Variable calculate_confidence_interval : json -> result json.
Variable jsonify : json -> result json.

(** A service function applied to a value of the request body: only a
    string has the [lower] both functions start with. *)
Definition on_string (f : str -> M json) (v : json) : M json :=
  match v with
  | JStr s => f s
  | _ => lift (Raise AttributeError)
  end.

(** The [try] block of a route after its checks: [jsonify(result)], or
    the exception of the service or of [jsonify] as a 500 answer. *)
Definition answer (m : M json) : world -> http_response * world := fun w =>
  match m w with
  | (Return result, w') =>
      match jsonify result with
      | Return body => (Ok200 body, w')
      | Raise e => (Error500 e, w')
      end
  | (Raise e, w') => (Error500 e, w')
  end.

(** [api_analyze_channel] on the parsed request body [data]. *)
Definition api_analyze_channel (data : json) : world -> http_response * world := fun w =>
  match data with
  | JObj d =>
      let channel_name := default JNull (dict_get K_channelName d) in
      if negb (truthy channel_name)
      then (Error400 (py "Channel name is required"), w)
      else answer (on_string (analyze_channel lower generate_content sort_values to_numeric
                                frame_of_other polyfit normalize_topic_distribution)
                             channel_name) w
  | _ => (Error500 AttributeError, w)
  end.

(** [api_analyze_truth] on the parsed request body [data]. *)
Definition api_analyze_truth (data : json) : world -> http_response * world := fun w =>
  match data with
  | JObj d =>
      let video_input := default JNull (dict_get K_videoInput d) in
      if negb (truthy video_input)
      then (Error400 (py "Video URL is required"), w)
      else answer (on_string (analyze_video_truth lower generate_content requests_get
                                calculate_confidence_interval)
                             video_input) w
  | _ => (Error500 AttributeError, w)
  end.

End Routes.

End Routes.
Export Routes.

(** ** Predicates used to state the invariants of the reports *)

Module ReportSpec.

(** A list of source objects with pairwise distinct uris. *)
Definition distinct_sources (v : json) : Prop :=
  exists sources : list (str * str),
    v = JArr (map source_json sources) /\ NoDup (sources.*2).

(** A channel report as [analyze_channel] builds it: an object with the
    three required fields, growth statistics, and distinct sources. *)
Definition channel_report_shape (v : json) : Prop :=
  exists m sources,
    v = JObj m
    /\ dict_has K_channelName m = true
    /\ dict_has K_stats m = true
    /\ dict_has K_growthTimeline m = true
    /\ dict_has K_growthStatistics m = true
    /\ dict_get K_sources m = Some sources
    /\ distinct_sources sources.

(** Every report in the cache has that shape. *)
Definition cache_shape (w : world) : Prop :=
  forall k v, cache w !! k = Some v -> channel_report_shape v.

End ReportSpec.
Export ReportSpec.

(** ** Further inputs for the examples *)

Module MoreExamples.
Import Examples.

(** A model whose answers hold no JSON. *)
Definition prose_model (_ : list prompt) (_ : prompt) : result response :=
  Return (Response (Return (py "I cannot help with that.")) []).

Definition analyze_prose : str -> M json :=
  analyze_channel ascii_lower prose_model stable_sort numeric_cell unreached_frame ols_fit
    unreached_json.

(** The state after channel a was analyzed, and after a battle of a and b
    from there. *)
Definition world_a : world := (analyze_example (py "a") empty_world).2.
Definition world_ab : world := (battle_example two_names world_a).2.

(** A model that gives the truth score as a string. *)
Definition quoted_score_model (_ : list prompt) (_ : prompt) : result response :=
  Return (Response (Return (py "{'truthScore': '85', 'claims': []}")) []).

(** The channel route and the truth route over the scripted libraries. *)
Definition channel_route_example : json -> world -> http_response * world :=
  api_analyze_channel ascii_lower scripted_model stable_sort numeric_cell unreached_frame
    ols_fit unreached_json plain_jsonify.

Definition truth_route_example : json -> world -> http_response * world :=
  api_analyze_truth ascii_lower scripted_model scripted_oembed unreached_json plain_jsonify.

Definition channel_request (name : str) : json := JObj [(K_channelName, JStr name)].
Definition truth_request (video_input : str) : json := JObj [(K_videoInput, JStr video_input)].
Definition battle_request (channels : list json) : json := JObj [(K_channels, JArr channels)].

(** The object a computation returned, and its fields. *)
Definition value_of (r : result json) : json :=
  match r with Return v => v | Raise _ => JNull end.
Definition fields_of (v : json) : dict :=
  match v with JObj m => m | _ => [] end.

(** A channel object with a field of its own and the timeline of the
    specification, given backwards. *)
Definition noted_channel : dict :=
  fields_of (channel_with [entry 2022 1210 14; entry 2021 1100 12; entry 2020 1000 10]
               [(py "note", JStr (py "kept"))]).

(** A timeline out of order, with one entry whose subscribers are null. *)
Definition ragged_timeline : list dict :=
  [entry 2022 1210 14;
   [(K_year, JInt 2021); (K_subscribers, JNull); (K_videos, JInt 12)];
   entry 2020 1000 10].

(** A timeline whose first entry carries a key the second has not. *)
Definition annotated_timeline : list dict :=
  [entry 2020 1000 10 ++ [(py "note", JStr (py "launch"))]; entry 2021 1100 12].

(** The timeline of the specification with five years between its first
    two rows. *)
Definition spaced_timeline : frame :=
  [Row 2015 1000 10; Row 2020 1100 12; Row 2022 1210 14].

End MoreExamples.


(* ===================================================================== *)
(** * Part II. Properties                                                 *)
(* ===================================================================== *)

(** ** Facts about the decoder: it never runs out of budget *)

Module JsonFacts.

Lemma skip_ws_length s : (length (skip_ws s) <= length s)%nat.
Proof. induction s as [|c s IH]; simpl; [lia|]. destruct (is_ws c); simpl; lia. Qed.

Lemma span_digits_length s d r :
  span_digits s = (d, r) -> length s = (length d + length r)%nat.
Proof.
  revert d r. induction s as [|c s IH]; simpl; intros d r H.
  - by inversion H.
  - destruct (isdigit c).
    + destruct (span_digits s) as [d' r'] eqn:E. inversion H; subst.
      simpl. rewrite (IH d' r eq_refl). lia.
    + inversion H; subst. simpl. lia.
Qed.

Lemma scanstring_length s : forall acc k r,
  scanstring s acc = Some (k, r) -> (length r < length s)%nat.
Proof.
  remember (length s) as n eqn:Hn. revert s Hn.
  induction n as [n IH] using lt_wf_ind. intros s Hn acc k r H.
  assert (IH' : forall s' acc', (length s' < length s)%nat ->
            scanstring s' acc' = Some (k, r) -> (length r < length s')%nat).
  { intros s' acc' Hlt H'. eapply (IH (length s')); eauto. lia. }
  clear IH. destruct s as [|c s']; [discriminate|].
  simpl in H.
  repeat (case_match; simplify_eq);
    try (match goal with
         | H' : scanstring ?t _ = Some _ |- _ => apply IH' in H'; simpl in *; lia
         end).
  simpl. lia.
Qed.

Lemma startswith_length p s : startswith p s = true -> (length p <= length s)%nat.
Proof.
  revert s. induction p as [|a p IH]; intros [|b s]; simpl; try lia; try discriminate.
  intros [_ H]%andb_prop. apply IH in H. lia.
Qed.

Lemma match_number_length s v r :
  match_number s = Some (v, r) -> (length r < length s)%nat.
Proof.
  unfold match_number. intros H.
  repeat (case_match; simplify_eq).
  all: repeat match goal with
      | H' : span_digits _ = _ |- _ => apply span_digits_length in H'
      | H' : (_ =? _) = true |- _ => apply N.eqb_eq in H'
      end.
  all: subst; simpl in *; try discriminate; lia.
Qed.
Ltac scan_lengths :=
  repeat match goal with
    | H : scanstring _ _ = Some _ |- _ => apply scanstring_length in H
    | H : match_number _ = Some _ |- _ => apply match_number_length in H
    | H : startswith _ _ = true |- _ => apply startswith_length in H
    | H : skip_ws ?s = _ :: _ |- _ =>
        let L := fresh "L" in
        pose proof (skip_ws_length s) as L; rewrite H in L; clear H
    | |- context [length (skip_ws ?s)] =>
        lazymatch goal with
        | _ : (length (skip_ws s) <= length s)%nat |- _ => fail
        | _ => pose proof (skip_ws_length s)
        end
    | _ : context [length (skip_ws ?s)] |- _ =>
        lazymatch goal with
        | _ : (length (skip_ws s) <= length s)%nat |- _ => fail
        | _ => pose proof (skip_ws_length s)
        end
    end.

Lemma scan_length n :
  (forall s v r, scan_once n s = POk v r -> (length r < length s)%nat)
  /\ (forall s acc v r, scan_elements n s acc = POk v r -> (length r < length s)%nat)
  /\ (forall s acc v r, scan_members n s acc = POk v r -> (length r < length s)%nat).
Proof.
  induction n as [|n (IH1 & IH2 & IH3)]; [repeat split; intros; discriminate|].
  repeat split.
  - intros s v r H. simpl in H.
    repeat (case_match; simplify_eq).
    all: try (match goal with
         | H : scan_members _ _ _ = POk _ _ |- _ => apply IH3 in H
         | H : scan_elements _ _ _ = POk _ _ |- _ => apply IH2 in H
         end).
    all: scan_lengths.
    all: rewrite ?length_drop; simpl in *; lia.
  - intros s acc v r H. simpl in H.
    repeat (case_match; simplify_eq).
    all: repeat (match goal with
         | H : scan_once _ _ = POk _ _ |- _ => apply IH1 in H
         | H : scan_elements _ _ _ = POk _ _ |- _ => apply IH2 in H
         end).
    all: scan_lengths.
    all: simpl in *; lia.
  - intros s acc v r H. simpl in H.
    repeat (case_match; simplify_eq).
    all: repeat (match goal with
         | H : scan_once _ _ = POk _ _ |- _ => apply IH1 in H
         | H : scan_members _ _ _ = POk _ _ |- _ => apply IH3 in H
         end).
    all: scan_lengths.
    all: simpl in *; lia.
Qed.

(** The budget suffices: a scan given [2 * len + 1] steps (two more inside a
    container loop) ends with a value or a syntax error. *)
Lemma scan_fuel n :
  (forall s, (2 * length s + 1 <= n)%nat -> scan_once n s <> PFuel)
  /\ (forall s acc, (2 * length s + 2 <= n)%nat -> scan_elements n s acc <> PFuel)
  /\ (forall s acc, (2 * length s + 2 <= n)%nat -> scan_members n s acc <> PFuel).
Proof.
  induction n as [|n (IH1 & IH2 & IH3)]; [repeat split; intros; lia|].
  repeat split.
  - intros s Hn. simpl.
    repeat (case_match; simplify_eq); try discriminate.
    + apply IH3. scan_lengths. simpl in *. lia.
    + apply IH2. scan_lengths. simpl in *. lia.
  - intros s acc Hn. simpl.
    destruct (scan_once n s) as [v r| |] eqn:E.
    + apply (proj1 (scan_length n)) in E.
      repeat (case_match; simplify_eq); try discriminate.
      apply IH2. scan_lengths. simpl in *. lia.
    + discriminate.
    + exfalso. revert E. apply IH1. lia.
  - intros s acc Hn. simpl.
    repeat (case_match; simplify_eq); try discriminate.
    all: repeat match goal with
           | H : scan_once _ _ = POk _ _ |- _ => apply (proj1 (scan_length n)) in H
           end.
    all: first [ apply IH3
               | match goal with H : scan_once _ ?t = PFuel |- _ =>
                   exfalso; revert H; apply IH1 end ].
    all: scan_lengths; simpl in *; lia.
Qed.

(** [json_loads] fails only on a syntax error or on trailing text. *)
Theorem json_loads_total s :
  scan_once (2 * length s + 1) (skip_ws s) <> PFuel.
Proof. apply scan_fuel. pose proof (skip_ws_length s). lia. Qed.

End JsonFacts.

(** ** Facts about the pattern matcher *)

Module RegexFacts.

(** The two stars, unfolded one step. *)
Lemma match_here_star cs p s cap :
  match_here (Star cs :: p) s cap =
  match s with
  | c :: s' =>
      if cset_mem cs c
      then match match_here (Star cs :: p) s' (push c cap) with
           | Some r => Some r
           | None => match_here p s cap
           end
      else match_here p s cap
  | [] => match_here p [] cap
  end.
Proof. destruct s; reflexivity. Qed.

Lemma match_here_lazy cs p s cap :
  match_here (Lazy cs :: p) s cap =
  match match_here p s cap with
  | Some r => Some r
  | None =>
      match s with
      | c :: s' => if cset_mem cs c then match_here (Lazy cs :: p) s' (push c cap) else None
      | [] => None
      end
  end.
Proof. destruct s; reflexivity. Qed.

Lemma push_closed c cap : cap.1 = false -> push c cap = cap.
Proof. unfold push. by intros ->. Qed.

(** A literal run matches exactly its own text. *)
Lemma match_lit l p s cap :
  cap.1 = false -> match_here (lit l ++ p) (l ++ s) cap = match_here p s cap.
Proof.
  intros Hc. induction l as [|c l IH]; [done|].
  simpl. rewrite N.eqb_refl, push_closed by done. apply IH.
Qed.

Lemma match_lit_fail l p s cap :
  startswith l s = false -> match_here (lit l ++ p) s cap = None.
Proof.
  revert s cap. induction l as [|c l IH]; intros s cap H; [discriminate|].
  destruct s as [|b s]; [done|]. simpl in *.
  rewrite (N.eqb_sym b c). destruct (c =? b); [|done]. by apply IH.
Qed.

(** A greedy [\s*] in front of text that does not start with whitespace
    takes all the whitespace before it, when the rest of the pattern then
    matches. *)
Lemma match_star_space ws p s cap r :
  cap.1 = false ->
  forallb isspace ws = true ->
  match s with c :: _ => isspace c = false | [] => True end ->
  match_here p s cap = Some r ->
  match_here (Star CSpace :: p) (ws ++ s) cap = Some r.
Proof.
  intros Hc Hws Hs Hm. induction ws as [|c ws IH].
  - simpl app. rewrite match_here_star. destruct s as [|c s]; [done|].
    simpl. by rewrite Hs.
  - simpl in Hws. apply andb_prop in Hws as [Hsp Hws].
    simpl app. rewrite match_here_star. simpl cset_mem. rewrite Hsp.
    rewrite push_closed by done. by rewrite IH.
Qed.

(** [re.search] moves past the positions where no alternative matches. *)
Lemma re_search_skip alts a s :
  (forall i, (i < length a)%nat -> match_alt alts (drop i (a ++ s)) = None) ->
  re_search alts (a ++ s) = re_search alts s.
Proof.
  induction a as [|c a IH]; intros H; [done|].
  pose proof (H 0%nat ltac:(simpl; lia)) as H0. simpl in H0.
  simpl. rewrite H0.
  apply IH. intros i Hi. apply (H (S i)). simpl. lia.
Qed.

Lemma re_search_here alts s r :
  match_alt alts s = Some r -> re_search alts s = Some r.
Proof. intros H. destruct s; simpl; by rewrite H. Qed.

Lemma match_alt_one p s :
  match_alt [p] s = match_here p s (false, []).
Proof. unfold match_alt. by destruct (match_here p s (false, [])). Qed.

End RegexFacts.

(** ** Facts about strings *)

Module TextFacts.

Lemma find_first sub s n :
  find sub s = Some n ->
  forall i, (i < n)%nat -> startswith sub (drop i s) = false.
Proof.
  revert n. induction s as [|c s IH]; intros n H i Hi.
  - simpl in H. destruct (startswith sub []); simplify_eq. lia.
  - simpl in H. destruct (startswith sub (c :: s)) eqn:E; simplify_eq; [lia|].
    destruct (find sub s) as [m|] eqn:F; simplify_eq. simpl in H. simplify_eq.
    destruct i as [|i]; [done|]. simpl. apply (IH m); [done|lia].
Qed.

Lemma find_none sub s :
  find sub s = None -> forall i, startswith sub (drop i s) = false.
Proof.
  induction s as [|c s IH]; intros H i.
  - simpl in H. rewrite drop_nil. by destruct (startswith sub []).
  - simpl in H. destruct (startswith sub (c :: s)) eqn:E; simplify_eq.
    destruct (find sub s) eqn:F; simplify_eq.
    destruct i as [|i]; [done|]. simpl. by apply IH.
Qed.

End TextFacts.

(** ** The labeled fence *)

Module FenceFacts.
Import RegexFacts TextFacts.

(** The part of both fence patterns after the lazy star. *)
Definition closing : pattern :=
  [One (CChar 125); GroupClose; Star CSpace] ++ lit backticks.

Lemma star_space_backticks s cap r :
  match_here (Star CSpace :: lit backticks) s cap = Some r -> closes_fence s = true.
Proof.
  revert cap r. induction s as [|c s IH]; intros cap r H.
  - rewrite match_here_star in H. discriminate.
  - rewrite match_here_star in H. unfold closes_fence. simpl cset_mem in H. simpl lstrip.
    destruct (isspace c) eqn:Hsp.
    + destruct (match_here (Star CSpace :: lit backticks) s (push c cap)) eqn:E.
      * by apply IH in E.
      * exfalso. simpl in H. destruct (c =? 96) eqn:E96; [|discriminate].
        apply N.eqb_eq in E96. subst c. discriminate.
    + destruct (startswith backticks (c :: s)) eqn:Es; [done|].
      pose proof (match_lit_fail backticks [] (c :: s) cap Es) as Hn.
      rewrite app_nil_r in Hn. congruence.
Qed.

Lemma closing_match c s cap r :
  match_here closing (c :: s) cap = Some r -> c = 125 /\ closes_fence s = true.
Proof.
  unfold closing. simpl app. simpl match_here at 1.
  destruct (c =? 125) eqn:E; [|discriminate].
  apply N.eqb_eq in E. intros H. split; [done|].
  change (match_here (GroupClose :: ?p) ?s ?cap) with (match_here p s (false, cap.2)) in H.
  by apply star_space_backticks in H.
Qed.

Lemma lstrip_app_brace y t : exists z, lstrip (y ++ 125 :: t) = z ++ 125 :: t /\ lstrip (y ++ [125]) = z ++ [125].
Proof.
  induction y as [|c y (z & IH1 & IH2)]; [by exists []|].
  simpl. destruct (isspace c); [by exists z|]. by exists (c :: y).
Qed.

(** A closing brace is never a backtick, so looking for the fence after a
    proper prefix of the object text needs only the object text. *)
Lemma closes_fence_inside y t :
  closes_fence (y ++ 125 :: t) = true -> closes_fence (y ++ [125]) = true.
Proof.
  unfold closes_fence. destruct (lstrip_app_brace y t) as (z & -> & ->).
  destruct z as [|a [|b [|c z]]]; simpl; try done.
Qed.

Lemma lazy_takes_object ws2 post inner acc :
  forallb isspace ws2 = true ->
  early_close (inner ++ [125]) = false ->
  match_here (Lazy CAny :: closing) (inner ++ 125 :: ws2 ++ backticks ++ post) (true, acc)
  = Some (rev acc ++ inner ++ [125]).
Proof.
  intros Hws. revert acc. induction inner as [|c inner IH]; intros acc Hec.
  - rewrite match_here_lazy, app_nil_l.
    assert (match_here closing (125 :: ws2 ++ backticks ++ post) (true, acc)
            = Some (rev acc ++ [125])) as ->; [|done].
    unfold closing.
    change (match_here ([One (CChar 125); GroupClose; Star CSpace] ++ ?p) (125 :: ?s) ?cap)
      with (match_here (Star CSpace :: p) s (false, 125 :: acc)).
    apply match_star_space; [done|done|done|].
    by rewrite <-(app_nil_r (lit backticks)), match_lit.
  - simpl in Hec. apply orb_false_elim in Hec as [Hc Hec].
    rewrite match_here_lazy, <-app_comm_cons.
    destruct (match_here closing (c :: inner ++ 125 :: ws2 ++ backticks ++ post) (true, acc)) eqn:E.
    + apply closing_match in E as [-> E]. apply closes_fence_inside in E.
      rewrite E in Hc. discriminate.
    + change (cset_mem CAny c) with true. cbv iota.
      change (push c (true, acc)) with (true, c :: acc).
      rewrite IH by done. simpl. by rewrite <-app_assoc.
Qed.

(** At the opening marker the labeled pattern captures the whole object
    text. *)
Lemma labeled_fence_here ws1 inner ws2 post :
  forallb isspace ws1 = true ->
  forallb isspace ws2 = true ->
  early_close (inner ++ [125]) = false ->
  match_here labeled_fence
    (fence_json ++ ws1 ++ 123 :: inner ++ 125 :: ws2 ++ backticks ++ post) (false, [])
  = Some (123 :: inner ++ [125]).
Proof.
  intros H1 H2 He. unfold labeled_fence.
  rewrite match_lit by done.
  apply match_star_space; [done|done|done|].
  exact (lazy_takes_object ws2 post inner [123] H2 He).
Qed.

Lemma labeled_fence_search pre ws1 inner ws2 post :
  let s := pre ++ fence_json ++ ws1 ++ 123 :: inner ++ 125 :: ws2 ++ backticks ++ post in
  find fence_json s = Some (length pre) ->
  forallb isspace ws1 = true ->
  forallb isspace ws2 = true ->
  early_close (inner ++ [125]) = false ->
  re_search [labeled_fence] s = Some (123 :: inner ++ [125]).
Proof.
  intros s Hf H1 H2 He. subst s. rewrite re_search_skip.
  - apply re_search_here. rewrite match_alt_one. by apply labeled_fence_here.
  - intros i Hi. rewrite match_alt_one. unfold labeled_fence.
    apply match_lit_fail. by apply (find_first _ _ _ Hf).
Qed.

End FenceFacts.

(** ** Texts without a brace span *)

Module SpanFacts.
Import RegexFacts.

(** The characters a pattern cannot match without. *)
Definition required (p : pattern) : str :=
  omap (fun it => match it with One (CChar c) => Some c | _ => None end) p.

Lemma match_here_required p : forall s cap g,
  match_here p s cap = Some g -> required p `sublist_of` s.
Proof.
  induction p as [|it p IH]; intros s cap g H; [apply sublist_nil_l|].
  destruct it as [cs|cs|cs| |].
  - destruct s as [|c s]; [discriminate|]. simpl in H.
    destruct (cset_mem cs c) eqn:E; [|discriminate]. apply IH in H.
    destruct cs; simpl; try by apply sublist_cons.
    simpl in E. apply N.eqb_eq in E as ->. by apply sublist_skip.
  - change (required (Star cs :: p)) with (required p).
    revert cap g H. induction s as [|c s IHs]; intros cap g H;
      rewrite match_here_star in H; [by eapply IH|].
    destruct (cset_mem cs c); [|by eapply IH].
    destruct (match_here (Star cs :: p) s (push c cap)) eqn:E; [|by eapply IH].
    apply sublist_cons. by eapply IHs.
  - change (required (Lazy cs :: p)) with (required p).
    revert cap g H. induction s as [|c s IHs]; intros cap g H;
      rewrite match_here_lazy in H.
    + destruct (match_here p [] cap) eqn:E; [by eapply IH|discriminate].
    + destruct (match_here p (c :: s) cap) eqn:E; [by eapply IH|].
      destruct (cset_mem cs c); [|discriminate]. apply sublist_cons. by eapply IHs.
  - by eapply IH.
  - by eapply IH.
Qed.

Lemma re_search_unfold alts s :
  re_search alts s =
  match match_alt alts s with
  | Some r => Some r
  | None => match s with [] => None | _ :: s' => re_search alts s' end
  end.
Proof. by destruct s. Qed.

Lemma re_search_required p s g :
  re_search [p] s = Some g -> required p `sublist_of` s.
Proof.
  induction s as [|c s IH]; rewrite re_search_unfold, match_alt_one.
  - destruct (match_here p [] (false, [])) eqn:E; [|discriminate].
    intros _. by eapply match_here_required.
  - destruct (match_here p (c :: s) (false, [])) eqn:E.
    + intros _. by eapply match_here_required.
    + intros H. apply sublist_cons. by apply IH.
Qed.

(** Both fence patterns need an opening brace and a later closing brace. *)
Lemma fence_needs_span p s g :
  p ∈ patterns -> re_search [p] s = Some g -> has_brace_span s.
Proof.
  intros Hp H. apply re_search_required in H. unfold has_brace_span.
  etransitivity; [|exact H].
  unfold patterns in Hp. apply elem_of_cons in Hp as [->|Hp].
  - vm_compute. repeat (first [apply sublist_nil | apply sublist_skip | apply sublist_cons]).
  - apply list_elem_of_singleton in Hp as ->.
    vm_compute. repeat (first [apply sublist_nil | apply sublist_skip | apply sublist_cons]).
Qed.

Lemma try_patterns_needs_span ps s v :
  ps ⊆ patterns -> try_patterns ps s = Some v -> has_brace_span s.
Proof.
  induction ps as [|p ps IH]; intros Hs H; [discriminate|]. simpl in H.
  assert (ps ⊆ patterns) as Hs' by set_solver.
  destruct (re_search [p] s) as [g|] eqn:E; [|by apply IH].
  apply (fence_needs_span p s g); [set_solver|done].
Qed.

Lemma find_char c s i : find [c] s = Some i -> s !! i = Some c.
Proof.
  revert i. induction s as [|x s IH]; intros i H; simpl in H; [discriminate|].
  destruct (c =? x) eqn:E; simpl in H.
  - apply N.eqb_eq in E as ->. by simplify_eq.
  - destruct (find [c] s) as [j|]; simpl in H; simplify_eq. simpl. by apply IH.
Qed.

Lemma rfind_char c s i : rfind [c] s = Some i -> s !! i = Some c.
Proof.
  revert i. induction s as [|x s IH]; intros i H; simpl in H; [discriminate|].
  destruct (rfind [c] s) as [j|]; simplify_eq; [by apply IH|].
  destruct (c =? x) eqn:E; simpl in H; simplify_eq.
  by apply N.eqb_eq in E as ->.
Qed.

Lemma two_positions (a b : N) s i j :
  (i < j)%nat -> s !! i = Some a -> s !! j = Some b -> [a; b] `sublist_of` s.
Proof.
  revert i j. induction s as [|x s IH]; intros i j Hij Hi Hj; [done|].
  destruct i as [|i].
  - simpl in Hi. simplify_eq. apply sublist_skip.
    destruct j as [|j]; [lia|]. simpl in Hj.
    apply singleton_sublist_l. by eapply list_elem_of_lookup_2.
  - destruct j as [|j]; [lia|]. apply sublist_cons. apply (IH i j); [lia|done..].
Qed.

Lemma brace_span_needs_span s v : brace_span s = Some v -> has_brace_span s.
Proof.
  unfold brace_span. intros H.
  destruct (find [123] s) as [i|] eqn:Ei; [|discriminate].
  destruct (rfind [125] s) as [j|] eqn:Ej; [|discriminate].
  destruct (i <? j)%nat eqn:E; [|discriminate]. apply Nat.ltb_lt in E.
  apply (two_positions _ _ _ i j); [done|by apply find_char|by apply rfind_char].
Qed.

Lemma lstrip_sublist s : lstrip s `sublist_of` s.
Proof.
  induction s as [|c s IH]; [done|]. simpl.
  destruct (isspace c); [by apply sublist_cons|done].
Qed.

Lemma rev_sublist (a b : str) : a `sublist_of` b -> rev a `sublist_of` rev b.
Proof.
  induction 1 as [|x l1 l2 _ IH|x l1 l2 _ IH]; simpl; [done| |].
  - by apply sublist_app.
  - by apply sublist_inserts_r.
Qed.

Lemma strip_sublist s : strip s `sublist_of` s.
Proof.
  unfold strip, rstrip. etransitivity; [|apply lstrip_sublist].
  rewrite <-(rev_involutive (lstrip s)) at 2. apply rev_sublist, lstrip_sublist.
Qed.

End SpanFacts.

(** ** The extractor *)

(** The first strategy wins: text that is itself a JSON document is returned
    as parsed, whatever fences or braces it holds. *)
Lemma extract_json_direct text v :
  text <> [] -> json_loads (strip text) = Some v -> extract_json text = Return v.
Proof. intros Hne H. unfold extract_json. destruct text; [done|]. by rewrite H. Qed.

(** When every strategy fails the error is the parse failure; an empty text
    is the other error. No partial value is returned. *)
Lemma extract_json_all_fail text :
  text <> [] ->
  json_loads (strip text) = None ->
  try_patterns patterns (strip text) = None ->
  brace_span (strip text) = None ->
  extract_json text = Raise ParseFailure.
Proof.
  intros Hne H1 H2 H3. unfold extract_json. destruct text; [done|].
  by rewrite H1, H2, H3.
Qed.

(** The order of the strategies, spelled out: the direct parse, the labeled
    fence, the unlabeled fence, the span from the first opening to the last
    closing brace. The first candidate that parses is the result; a fence
    whose group does not parse is skipped. *)
Lemma extract_json_order text :
  text <> [] ->
  extract_json text =
  let s := strip text in
  match json_loads s with
  | Some v => Return v
  | None =>
      match re_search [labeled_fence] s ≫= json_loads with
      | Some v => Return v
      | None =>
          match re_search [plain_fence] s ≫= json_loads with
          | Some v => Return v
          | None =>
              match brace_span s with
              | Some v => Return v
              | None => Raise ParseFailure
              end
          end
      end
  end.
Proof.
  intros Hne. unfold extract_json. destruct text as [|c t]; [done|].
  cbv zeta. destruct (json_loads (strip (c :: t))); [done|].
  unfold patterns, try_patterns.
  destruct (re_search [labeled_fence] (strip (c :: t))) as [g|]; simpl.
  - destruct (json_loads g); [done|].
    destruct (re_search [plain_fence] (strip (c :: t))) as [g'|]; simpl; [|done].
    by destruct (json_loads g').
  - destruct (re_search [plain_fence] (strip (c :: t))) as [g'|]; simpl; [|done].
    by destruct (json_loads g').
Qed.

(** C1 (as amended). Let the trimmed text be [pre], the opening marker of a
    fence labeled json, whitespace, an object text from its opening brace to
    its closing brace, whitespace, the closing marker and [post]. If the
    marker is the first one labeled json in the text, the object text parses
    to an object, no closing brace of the object text is followed inside it
    by optional whitespace and a triple backtick, and the trimmed text as a
    whole is not valid JSON, then [extract_json] returns exactly the object
    parsed from the fenced text: the labeled-fence strategy wins and later
    strategies are not consulted. *)
Theorem C1_labeled_fence_object (text pre ws1 inner ws2 post : str) (m : dict) :
  let body := 123 :: inner ++ [125] in
  strip text = pre ++ fence_json ++ ws1 ++ body ++ ws2 ++ backticks ++ post ->
  find fence_json (strip text) = Some (length pre) ->
  forallb isspace ws1 = true ->
  forallb isspace ws2 = true ->
  early_close body = false ->
  json_loads (strip text) = None ->
  json_loads body = Some (JObj m) ->
  extract_json text = Return (JObj m).
Proof.
  intros body Hs Hf H1 H2 He Hd Hb.
  assert (text <> []) as Hne.
  { intros ->. destruct pre; discriminate. }
  unfold extract_json. destruct text as [|c t]; [done|].
  rewrite Hd. unfold patterns, try_patterns.
  assert (re_search [labeled_fence] (strip (c :: t)) = Some body) as ->.
  { rewrite Hs in Hf |- *. subst body. rewrite <-app_comm_cons, <-app_assoc in Hf |- *.
    by apply FenceFacts.labeled_fence_search. }
  by rewrite Hb.
Qed.

(** The theorem at a concrete text: a line of prose, then a labeled fence
    on lines of its own. *)
Lemma C1_labeled_fence_object_witness :
  extract_json (py "Here you go:" ++ [10] ++ fence_json ++ [10]
                ++ py "{'a': {'b': 1}}" ++ [10] ++ backticks ++ [10] ++ py "Bye.")
  = Return (JObj [(py "a", JObj [(py "b", JInt 1)])]).
Proof.
  apply (C1_labeled_fence_object _ (py "Here you go:" ++ [10]) [10] (py "'a': {'b': 1}")
           [10] ([10] ++ py "Bye.")); by vm_compute.
Defined.

(** C1 as stated fails. The text is one fence labeled json, with the markers
    on lines of their own, around a well-formed object one of whose strings
    holds a closing brace followed by a triple backtick. The labeled pattern
    stops at that brace, its group does not parse, the unlabeled pattern then
    matches inside the string, and the empty object is returned instead of
    the fenced one. *)
Lemma C1_counterexample :
  let body := py "{'a': '}```{}```'}" in
  let text := fence_json ++ [10] ++ body ++ [10] ++ backticks in
  json_loads (strip text) = None
  /\ json_loads body = Some (JObj [(py "a", JStr (py "}```{}```"))])
  /\ re_search [labeled_fence] (strip text) = Some (py "{'a': '}")
  /\ json_loads (py "{'a': '}") = None
  /\ re_search [plain_fence] (strip text) = Some (py "{}")
  /\ extract_json text = Return (JObj [])
  /\ extract_json text <> Return (JObj [(py "a", JStr (py "}```{}```"))]).
Proof. vm_compute. by repeat split. Qed.

(** C2 at the failing inputs: texts without any brace that are JSON
    documents are returned by the direct parse as a number, [None] or a
    list, although every later strategy yields objects only and the
    function is annotated to return [Dict]. *)
Theorem C2_non_object_returned :
  find [123] (py "5") = None
  /\ extract_json (py "5") = Return (JInt 5)
  /\ extract_json (py "null") = Return JNull
  /\ extract_json (py "[1,2]") = Return (JArr [JInt 1; JInt 2]).
Proof. vm_compute. by repeat split. Qed.

(** X30. What does hold of texts without a brace span: unless the trimmed text
    is a JSON document by itself, [extract_json] raises. The fence patterns
    and the brace strategy all need an opening brace with a closing brace
    after it. *)
Theorem extract_json_no_brace_span text :
  ~ has_brace_span text ->
  json_loads (strip text) = None ->
  extract_json text = Raise ParseFailure \/ extract_json text = Raise EmptyResponse.
Proof.
  intros Hn Hd. unfold extract_json. destruct text as [|c t]; [by right|left].
  assert (~ has_brace_span (strip (c :: t))) as Hn'.
  { intros H. apply Hn. unfold has_brace_span in *.
    etransitivity; [exact H|apply SpanFacts.strip_sublist]. }
  rewrite Hd.
  destruct (try_patterns patterns (strip (c :: t))) as [v|] eqn:E1.
  { exfalso. by apply Hn', (SpanFacts.try_patterns_needs_span patterns _ v). }
  destruct (brace_span (strip (c :: t))) as [v|] eqn:E2; [|done].
  exfalso. by apply Hn', (SpanFacts.brace_span_needs_span _ v).
Qed.

(** ** Facts about dicts *)

Module DictFacts.

Lemma str_eqb_eq a b : str_eqb a b = true <-> a = b.
Proof. unfold str_eqb. apply bool_decide_eq_true. Qed.

Lemma str_eqb_refl a : str_eqb a a = true.
Proof. by apply str_eqb_eq. Qed.

Lemma str_eqb_ne a b : a <> b -> str_eqb a b = false.
Proof. intros H. unfold str_eqb. by apply bool_decide_eq_false. Qed.

Lemma dict_get_set_eq k v d : dict_get k (dict_set k v d) = Some v.
Proof.
  induction d as [|[k' v'] d IH]; simpl.
  - by rewrite str_eqb_refl.
  - destruct (str_eqb k k') eqn:E; simpl; rewrite ?str_eqb_refl, ?E; done.
Qed.

Lemma dict_get_set_ne k k' v d : k <> k' -> dict_get k (dict_set k' v d) = dict_get k d.
Proof.
  intros Hne. induction d as [|[k'' v''] d IH]; simpl.
  - by rewrite str_eqb_ne.
  - destruct (str_eqb k' k'') eqn:E; simpl.
    + apply str_eqb_eq in E as <-. by rewrite !str_eqb_ne.
    + by rewrite IH.
Qed.

Lemma dict_has_set_eq k v d : dict_has k (dict_set k v d) = true.
Proof. unfold dict_has. by rewrite dict_get_set_eq. Qed.

Lemma dict_has_set_ne k k' v d : k <> k' -> dict_has k (dict_set k' v d) = dict_has k d.
Proof. intros. unfold dict_has. by rewrite dict_get_set_ne. Qed.

End DictFacts.

(** ** The truth orchestrator *)

Section TruthFacts.
Import DictFacts.

Variable lower : str -> str.
Variable generate_content : list prompt -> prompt -> result response.
Variable requests_get : str -> result (bool * result json).
Variable calculate_confidence_interval : json -> result json.

(** C3. Whenever [analyze_video_truth] returns a report, the metadata
    fetch had succeeded, the report is an object, and its videoTitle and
    creatorName are the fetched title and author, whatever the model and
    the confidence-interval helper produced. *)
Theorem C3_truth_report_has_verified_metadata (video_input : str) (w w' : world) (report : json) :
  analyze_video_truth lower generate_content requests_get calculate_confidence_interval
    video_input w = (Return report, w') ->
  exists md m,
    fetch_video_metadata requests_get video_input = Some md
    /\ report = JObj m
    /\ dict_get K_videoTitle m = Some (title md)
    /\ dict_get K_creatorName m = Some (author md).
Proof.
  unfold analyze_video_truth. intros H.
  destruct (negb _); [discriminate|].
  destruct (extract_video_id video_input) as [video_id|]; [|discriminate].
  destruct (fetch_video_metadata requests_get video_input) as [md|]; [|discriminate].
  exists md.
  unfold mbind, M_bind, call_model, lift in H.
  destruct (generate_content _ _) as [response|]; [|discriminate].
  simpl in H.
  destruct (resp_text response) as [text|]; [|discriminate]. simpl in H.
  destruct (extract_json text) as [analysis|]; [|discriminate]. simpl in H.
  destruct analysis as [| | | | | |a]; try discriminate. simpl in H.
  set (a2 := dict_set K_creatorName (author md) (dict_set K_videoTitle (title md) a)) in *.
  assert (Ht : dict_get K_videoTitle a2 = Some (title md)).
  { subst a2. rewrite dict_get_set_ne by done. apply dict_get_set_eq. }
  assert (Hc : dict_get K_creatorName a2 = Some (author md)).
  { subst a2. apply dict_get_set_eq. }
  clearbody a2.
  destruct (dict_get K_truthScore a2) as [score|]; simpl in H.
  - destruct (calculate_confidence_interval score) as [conf|]; [|discriminate].
    simpl in H. injection H as <- _.
    eexists. split; [done|]. split; [done|].
    by rewrite !dict_get_set_ne by done.
  - injection H as <- _.
    eexists. split; [done|]. split; [done|].
    by rewrite !dict_get_set_ne by done.
Qed.

End TruthFacts.

(** The theorem at a concrete request: the scripted model names another
    title and creator, the report carries the fetched ones. *)
Lemma C3_truth_report_has_verified_metadata_witness :
  exists md m,
    fetch_video_metadata Examples.scripted_oembed Examples.example_url = Some md
    /\ Examples.truth_report = JObj m
    /\ dict_get K_videoTitle m = Some (title md)
    /\ dict_get K_creatorName m = Some (author md).
Proof.
  apply (C3_truth_report_has_verified_metadata
           Examples.ascii_lower Examples.scripted_model Examples.scripted_oembed
           Examples.unreached_json Examples.example_url Examples.empty_world
           (analyze_video_truth Examples.ascii_lower Examples.scripted_model
              Examples.scripted_oembed Examples.unreached_json
              Examples.example_url Examples.empty_world).2).
  by vm_compute.
Defined.

(** ** The channel orchestrator and the battle *)

Section ServiceFacts.
Import DictFacts.

Variable lower : str -> str.
Variable generate_content : list prompt -> prompt -> result response.
Variable sort_values : sorter.
Variable to_numeric : json -> float.
Variable frame_of_other : json -> result frame.
Variable polyfit : list float -> list float -> result (float * float).
Variable normalize_topic_distribution : json -> result json.
Variable overall_statistics : list json -> result json.
Variable pd_DataFrame : json -> result (list json).
Variable jsonify : json -> result json.

Abbreviation analyze :=
  (analyze_channel lower generate_content sort_values to_numeric frame_of_other polyfit
     normalize_topic_distribution).
Abbreviation battle :=
  (run_battle lower generate_content sort_values to_numeric frame_of_other polyfit
     normalize_topic_distribution overall_statistics pd_DataFrame).
Abbreviation route :=
  (api_run_battle lower generate_content sort_values to_numeric frame_of_other polyfit
     normalize_topic_distribution overall_statistics pd_DataFrame jsonify).

(** What a call of [analyze_channel] that misses the cache does. *)
Lemma analyze_channel_miss name w :
  cache w !! cache_key lower name = None ->
  analyze name w =
  match generate_content (calls w) (ChannelPrompt name) with
  | Raise e => (Raise e, World (cache w) (calls w ++ [ChannelPrompt name]))
  | Return response =>
      match channel_report sort_values to_numeric frame_of_other polyfit
              normalize_topic_distribution response with
      | Raise e => (Raise e, World (cache w) (calls w ++ [ChannelPrompt name]))
      | Return channel_data =>
          (Return channel_data,
           World (<[cache_key lower name := channel_data]> (cache w))
                 (calls w ++ [ChannelPrompt name]))
      end
  end.
Proof.
  intros Hm. unfold analyze_channel. rewrite Hm.
  unfold mbind, M_bind, call_model, lift, store. simpl.
  destruct (generate_content _ _) as [response|]; [|done].
  by destruct (channel_report _ _ _ _ _ response).
Qed.

Lemma analyze_channel_hit name w r :
  cache w !! cache_key lower name = Some r -> analyze name w = (Return r, w).
Proof. intros H. unfold analyze_channel. by rewrite H. Qed.

(** A successful call leaves its report in the cache under the lower-cased
    name. *)
Lemma analyze_channel_stores name w w1 r :
  analyze name w = (Return r, w1) -> cache w1 !! cache_key lower name = Some r.
Proof.
  intros H. destruct (cache w !! cache_key lower name) as [c|] eqn:E.
  - rewrite (analyze_channel_hit _ _ _ E) in H. by simplify_eq.
  - rewrite (analyze_channel_miss _ _ E) in H.
    repeat (case_match; simplify_eq). simpl. apply lookup_insert_eq.
Qed.

(** No call removes or replaces a cache entry. *)
Lemma analyze_channel_keeps name w res w1 k v :
  analyze name w = (res, w1) -> cache w !! k = Some v -> cache w1 !! k = Some v.
Proof.
  intros H Hk. destruct (cache w !! cache_key lower name) as [c|] eqn:E.
  - rewrite (analyze_channel_hit _ _ _ E) in H. by simplify_eq.
  - rewrite (analyze_channel_miss _ _ E) in H.
    repeat (case_match; simplify_eq); simpl; try done.
    rewrite lookup_insert_ne; [done|]. intros <-. congruence.
Qed.

(** C4. After a successful [analyze_channel] of a name, the report it
    returned is the cache entry under the key of every name that lower-cases
    to the same string, and a call with such a name returns that entry from
    the cache and leaves the state, and with it the log of model calls, as
    it was. *)
Theorem C4_second_call_served_from_cache (name name' : str) (w w1 : world) (r : json) :
  analyze name w = (Return r, w1) ->
  lower name' = lower name ->
  cache w1 !! cache_key lower name' = Some r
  /\ analyze name' w1 = (Return r, w1).
Proof.
  intros H Hl.
  assert (cache w1 !! cache_key lower name' = Some r) as Hc.
  { unfold cache_key. rewrite Hl. by apply (analyze_channel_stores name w). }
  split; [done|]. by apply analyze_channel_hit.
Qed.

(** The cached report also survives any calls made in between. *)
Lemma cached_report_survives name name' other w w1 w2 r res :
  analyze name w = (Return r, w1) ->
  analyze other w1 = (res, w2) ->
  lower name' = lower name ->
  analyze name' w2 = (Return r, w2).
Proof.
  intros H Ho Hl. apply analyze_channel_hit. unfold cache_key. rewrite Hl.
  eapply analyze_channel_keeps; [exact Ho|]. by apply (analyze_channel_stores name w).
Qed.

(** C5 (as amended). The size check is the route's: for a request whose
    channels list has one entry or more than five, [api_run_battle]
    answers 400 without calling [run_battle], so the state and the log of
    model calls are untouched. *)
Theorem C5_route_rejects_wrong_size (d : dict) (l : list json) (w : world) :
  dict_get K_channels d = Some (JArr l) ->
  (length l = 1 \/ 5 < length l)%nat ->
  route (JObj d) w = (Error400 (py "Please provide 2-5 channels"), w).
Proof.
  intros Hd Hl. unfold api_run_battle. rewrite Hd.
  assert (((length l <? 2) || (5 <? length l))%nat = true) as Hb.
  { apply orb_true_iff. destruct Hl; [left|right]; apply Nat.ltb_lt; lia. }
  destruct l as [|x l]; [simpl in Hl; lia|].
  simpl default. simpl negb. simpl orb. cbv iota. by rewrite Hb.
Qed.

Lemma analyze_all_length names : forall w cs w1,
  analyze_all lower generate_content sort_values to_numeric frame_of_other polyfit
    normalize_topic_distribution names w = (Return cs, w1) ->
  length cs = length names.
Proof.
  induction names as [|n names IH]; intros w cs w1 H.
  - simpl in H. unfold mret, M_ret in H. by simplify_eq.
  - simpl in H. unfold mbind, M_bind in H.
    destruct (match n with JStr s => analyze s | _ => _ end w) as [[c|e] w2]; [|discriminate].
    destruct (analyze_all _ _ _ _ _ _ _ names w2) as [[cs'|e] w3] eqn:E; [|discriminate].
    simpl in H. unfold mret, M_ret in H. simplify_eq. simpl. f_equal. by eapply IH.
Qed.

(** C6 (as amended). A result of [run_battle] holds one channel report
    per input name, and as scores exactly the value found under scores in
    the object extracted from the model's answer to the battle prompt; the
    code never compares its length with the number of names. *)
Theorem C6_scores_are_what_the_model_sent (names : list json) (w w' : world) (res : json) :
  battle names w = (Return res, w') ->
  exists channels w1 response synthesis scores verdict stats,
    res = JObj [(K_channels, JArr channels); (K_scores, scores);
                (K_verdict, verdict); (K_statistics, stats)]
    /\ length channels = length names
    /\ generate_content (calls w1) (BattlePrompt channels) = Return response
    /\ (text ← resp_text response; extract_json text) = Return synthesis
    /\ get_item K_scores synthesis = Return scores.
Proof.
  unfold run_battle. unfold mbind at 1 2 3, M_bind. intros H.
  destruct (analyze_all _ _ _ _ _ _ _ names w) as [[channels|e] w1] eqn:Ea; [|discriminate].
  unfold lift at 1 in H.
  destruct (joinable channels); [|discriminate].
  unfold call_model in H.
  destruct (generate_content (calls w1) (BattlePrompt channels)) as [response|] eqn:Eg;
    [|discriminate].
  unfold lift in H.
  destruct (text ← resp_text response; extract_json text) as [synthesis|] eqn:Es;
    [|simpl in H; discriminate].
  simpl in H.
  destruct (get_item K_scores synthesis) as [scores|] eqn:Eq; [|discriminate]. simpl in H.
  destruct (pd_DataFrame scores) as [df|]; [|discriminate]. simpl in H.
  destruct (calculate_battle_statistics overall_statistics df) as [stats|]; [|discriminate].
  simpl in H.
  destruct (get_item K_verdict synthesis) as [verdict|]; [|discriminate]. simpl in H.
  injection H as <- _.
  exists channels, w1, response, synthesis, scores, verdict, stats.
  repeat split; try done. by eapply analyze_all_length.
Qed.

End ServiceFacts.

(** The theorem at concrete names: MrBeast first, MRBEAST second. *)
Lemma C4_second_call_served_from_cache_witness :
  let first := Examples.analyze_example (py "MrBeast") Examples.empty_world in
  cache first.2 !! cache_key Examples.ascii_lower (py "MRBEAST")
  = Some Examples.channel_report_a
  /\ Examples.analyze_example (py "MRBEAST") first.2
     = (Return Examples.channel_report_a, first.2).
Proof.
  apply (C4_second_call_served_from_cache Examples.ascii_lower Examples.scripted_model
           stable_sort Examples.numeric_cell Examples.unreached_frame Examples.ols_fit
           Examples.unreached_json (py "MrBeast") (py "MRBEAST") Examples.empty_world).
  - by vm_compute.
  - by vm_compute.
Defined.

(** The theorem at a request with one channel. *)
Lemma C5_route_rejects_wrong_size_witness :
  Examples.route_example (JObj [(K_channels, JArr Examples.one_name)]) Examples.empty_world
  = (Error400 (py "Please provide 2-5 channels"), Examples.empty_world).
Proof.
  apply (C5_route_rejects_wrong_size Examples.ascii_lower Examples.scripted_model
           stable_sort Examples.numeric_cell Examples.unreached_frame Examples.ols_fit
           Examples.unreached_json Examples.unreached_rows Examples.rows_of_list
           Examples.plain_jsonify
           [(K_channels, JArr Examples.one_name)] Examples.one_name).
  - reflexivity.
  - left. reflexivity.
Defined.

(** C5 as stated fails: [run_battle] itself has no size check. Called with
    one name, or with six, on an empty cache it sends a prompt per channel
    and the battle prompt to the model, and here it returns a result. *)
Lemma C5_counterexample :
  Examples.returned (Examples.battle_example Examples.one_name Examples.empty_world) = true
  /\ Examples.model_calls (Examples.battle_example Examples.one_name Examples.empty_world) = 2%nat
  /\ Examples.returned (Examples.battle_example Examples.six_names Examples.empty_world) = true
  /\ Examples.model_calls (Examples.battle_example Examples.six_names Examples.empty_world) = 7%nat.
Proof. vm_compute. by repeat split. Qed.

(** The theorem at a battle of two names. *)
Lemma C6_scores_are_what_the_model_sent_witness :
  exists channels w1 response synthesis scores verdict stats,
    (Examples.battle_example Examples.two_names Examples.empty_world).1
    = Return (JObj [(K_channels, JArr channels); (K_scores, scores);
                    (K_verdict, verdict); (K_statistics, stats)])
    /\ length channels = length Examples.two_names
    /\ Examples.scripted_model (calls w1) (BattlePrompt channels) = Return response
    /\ (text ← resp_text response; extract_json text) = Return synthesis
    /\ get_item K_scores synthesis = Return scores.
Proof.
  destruct (Examples.battle_example Examples.two_names Examples.empty_world)
    as [[res|e] w'] eqn:E; [|by vm_compute in E].
  destruct (C6_scores_are_what_the_model_sent Examples.ascii_lower Examples.scripted_model
              stable_sort Examples.numeric_cell Examples.unreached_frame Examples.ols_fit
              Examples.unreached_json Examples.unreached_rows Examples.rows_of_list
              Examples.two_names Examples.empty_world w' res E)
    as (channels & w1 & response & synthesis & scores & verdict & stats & -> & H).
  by exists channels, w1, response, synthesis, scores, verdict, stats.
Defined.

(** C6 as stated fails: for two names the scripted model sends one score,
    and the result carries that one score. *)
Lemma C6_counterexample :
  Examples.returned (Examples.battle_example Examples.two_names Examples.empty_world) = true
  /\ Examples.scores_length (Examples.battle_example Examples.two_names Examples.empty_world)
     = Some 1%nat
  /\ length Examples.two_names = 2%nat.
Proof. vm_compute. by repeat split. Qed.

(** ** The statistics layer *)

Module SumFacts.

Lemma pairwise_sum_step f l :
  pairwise_sum (S f) l =
  if (length l <? 8)%nat then fsum_from 0 l
  else if (length l <=? 128)%nat then
    match sum_blocks (length l) (take 8 l) (drop 8 l) with
    | ([r0; r1; r2; r3; r4; r5; r6; r7], rest) =>
        fsum_from (((r0 + r1) + (r2 + r3)) + ((r4 + r5) + (r6 + r7)))%float rest
    | _ => PrimFloat.nan
    end
  else
    let n2 := (length l / 2 - (length l / 2) mod 8)%nat in
    (pairwise_sum f (take n2 l) + pairwise_sum f (drop n2 l))%float.
Proof. reflexivity. Qed.

(** The halving of [pairwise_sum] never runs out of budget: any budget of at
    least the length gives the same sum. *)
Lemma pairwise_sum_budget f1 : forall f2 l,
  (length l <= f1)%nat -> (length l <= f2)%nat ->
  pairwise_sum f1 l = pairwise_sum f2 l.
Proof.
  induction f1 as [|f1 IH]; intros f2 l H1 H2.
  - destruct l; [|simpl in H1; lia]. by destruct f2.
  - destruct f2 as [|f2].
    { destruct l; [done|simpl in H2; lia]. }
    rewrite !pairwise_sum_step. destruct (length l <? 8)%nat eqn:E8; [done|].
    destruct (length l <=? 128)%nat eqn:E128; [done|].
    apply Nat.leb_gt in E128. cbv zeta.
    set (n2 := (length l / 2 - (length l / 2) mod 8)%nat).
    assert (0 < n2 < length l)%nat as Hn2.
    { subst n2. pose proof (Nat.mod_upper_bound (length l / 2) 8 ltac:(lia)).
      pose proof (Nat.Div0.mod_le (length l / 2) 8).
      assert (length l / 2 < length l)%nat by (apply Nat.div_lt; lia).
      assert (64 <= length l / 2)%nat by (apply Nat.div_le_lower_bound; lia).
      lia. }
    clearbody n2.
    f_equal; apply IH; rewrite ?length_take, ?length_drop; lia.
Qed.

End SumFacts.


Module StatsFacts.

(** [int()] truncates toward zero: the integer it returns for a float of
    sign [s], mantissa [m] and (negative) exponent [e] has the sign of the
    float and the magnitude [|n| <= m * 2^e < |n| + 1]. *)
Lemma int_of_float_truncates x n s m e :
  Prim2SF x = S754_finite s m e ->
  int_of_float x = Return n ->
  (e < 0)%Z ->
  (Z.abs n * 2 ^ (- e) <= Zpos m < (Z.abs n + 1) * 2 ^ (- e))%Z
  /\ (if s then n <= 0 else 0 <= n)%Z.
Proof.
  intros Hx H He. unfold int_of_float in H. rewrite Hx in H.
  assert ((0 <=? e)%Z = false) as Hb by (apply Z.leb_gt; lia).
  rewrite Hb in H.
  assert (0 < 2 ^ (- e))%Z as Hp by (apply Z.pow_pos_nonneg; lia).
  pose proof (Z.div_pos (Zpos m) (2 ^ (- e)) ltac:(lia) Hp) as Hq.
  pose proof (Z.mul_div_le (Zpos m) (2 ^ (- e)) Hp) as H1.
  pose proof (Z.mul_succ_div_gt (Zpos m) (2 ^ (- e)) Hp) as H2.
  destruct s; injection H as <-.
  - rewrite Z.abs_opp, Z.abs_eq by done. split; [nia|lia].
  - rewrite Z.abs_eq by done. split; [nia|lia].
Qed.

End StatsFacts.

Module TruncFacts.

(** [int()] of a float whose exact value lies in [[n, n + 1)], for an integer
    [n >= 1], is [n]: whatever the fraction, it is cut off. *)
Lemma int_of_float_floor (p : float) (n : Z) :
  (1 <= n < 2 ^ 1024)%Z ->
  (n * 2 ^ 1074 <= order_key p < (n + 1) * 2 ^ 1074)%Z ->
  int_of_float p = Return n.
Proof.
  intros Hn Hk. unfold int_of_float, order_key in *.
  assert (0 < 2 ^ 1074)%Z as HK by (by apply Z.pow_pos_nonneg).
  destruct (Prim2SF p) as [s|s| |s m e].
  - nia.
  - exfalso. destruct s.
    + assert (0 < 2 ^ 2100)%Z by (by apply Z.pow_pos_nonneg). nia.
    + assert (2 ^ 2100 = 2 ^ 1026 * 2 ^ 1074)%Z as Hs by (by vm_compute).
      assert (2 ^ 1026 = 4 * 2 ^ 1024)%Z as Hs' by (by vm_compute).
      assert (0 < 2 ^ 1024)%Z by (by apply Z.pow_pos_nonneg). nia.
  - exfalso.
    assert (2 ^ 2101 = 2 ^ 1027 * 2 ^ 1074)%Z as Hs by (by vm_compute).
    assert (2 ^ 1027 = 8 * 2 ^ 1024)%Z as Hs' by (by vm_compute).
    assert (0 < 2 ^ 1024)%Z by (by apply Z.pow_pos_nonneg). nia.
  - destruct s.
    { exfalso. assert (0 <= 2 ^ (e + 1074))%Z by (apply Z.pow_nonneg; lia). nia. }
    assert (0 <= e + 1074)%Z as He.
    { destruct (Z.le_gt_cases 0 (e + 1074)) as [|Hneg]; [done|].
      rewrite (Z.pow_neg_r 2 (e + 1074)) in Hk by lia. nia. }
    destruct (0 <=? e)%Z eqn:E.
    + apply Z.leb_le in E. rewrite Z.pow_add_r in Hk by lia.
      assert (0 < 2 ^ e)%Z by (apply Z.pow_pos_nonneg; lia).
      f_equal. nia.
    + apply Z.leb_gt in E.
      assert (2 ^ 1074 = 2 ^ (e + 1074) * 2 ^ (- e))%Z as HKe.
      { rewrite <-Z.pow_add_r by lia. f_equal. lia. }
      assert (0 < 2 ^ (e + 1074))%Z by (apply Z.pow_pos_nonneg; lia).
      assert (0 < 2 ^ (- e))%Z by (apply Z.pow_pos_nonneg; lia).
      f_equal. symmetry. apply (Z.div_unique _ _ n (Zpos m - n * 2 ^ (- e))); nia.
Qed.

(** Whatever [np.polyfit] returns on three points, when the prediction for
    the next index lies strictly between 266.5 and 267 the reported value is
    266, one below the nearest integer. *)
Lemma prediction_truncated
    (polyfit : list float -> list float -> result (float * float))
    (df : frame) (slope intercept : float) :
  length df = 3%nat ->
  polyfit (arange 0 3) (map subscribers df) = Return (slope, intercept) ->
  (533 * 2 ^ 1073 < order_key (slope * 3 + intercept)%float < 267 * 2 ^ 1074)%Z ->
  exists m,
    calculate_trend_prediction polyfit df 1 = Return (JObj m)
    /\ dict_get (py "predicted_next_year") m = Some (JInt 266).
Proof.
  intros Hlen Hfit Hk. unfold calculate_trend_prediction. rewrite Hlen.
  change (3 <? 3)%nat with false. cbv iota.
  rewrite Hfit. unfold mbind at 1, result_bind. cbv iota beta zeta.
  change (arange 3 1) with [3%float].
  change (map ?f [3%float]) with [f 3%float]. cbv beta iota.
  rewrite (int_of_float_floor (slope * 3 + intercept)%float 266).
  - eexists. split; [reflexivity|]. reflexivity.
  - split; [lia|]. by vm_compute.
  - assert (2 ^ 1074 = 2 * 2 ^ 1073)%Z as HK by (by vm_compute).
    assert (0 < 2 ^ 1073)%Z by (by apply Z.pow_pos_nonneg). lia.
Qed.

End TruncFacts.

(** C7 (as amended). Below two points [calculate_growth_rate] reports
    insufficient data and zero growth. From two points on (the latest counts
    being finite) it reports, rounded to two decimals, the mean of the
    year-over-year percent changes that are not NaN, the first point having
    none, and classifies the unrounded subscriber mean with the strict
    thresholds 10, 0 and -5. On the timeline of the specification the binary64
    mean is 10.000000000000009: the reported average is 10.0, the trend is
    rapid_growth, and latest_subscribers is 1210. *)
Theorem C7_growth_rate (df : frame) :
  ((length df < 2)%nat ->
   calculate_growth_rate df =
   Return (JObj [(py "avg_subscriber_growth", JFloat 0);
                 (py "avg_video_growth", JFloat 0);
                 (py "growth_trend", JStr (py "insufficient_data"))]))
  /\ ((2 <= length df)%nat ->
      forall latest_s latest_v,
        int_of_float (default PrimFloat.nan (last (map subscribers df))) = Return latest_s ->
        int_of_float (default PrimFloat.nan (last (map videos df))) = Return latest_v ->
        let avg_s := series_mean (growth_percent (map subscribers df)) in
        let avg_v := series_mean (growth_percent (map videos df)) in
        calculate_growth_rate df =
        Return (JObj [(py "avg_subscriber_growth", JFloat (np_round avg_s 2));
                      (py "avg_video_growth", JFloat (np_round avg_v 2));
                      (py "growth_trend", JStr (growth_trend_of avg_s));
                      (py "latest_subscribers", JInt latest_s);
                      (py "latest_videos", JInt latest_v)]))
  /\ (forall y0 col,
        growth_percent (y0 :: col)
        = PrimFloat.nan :: map (fun c => (c * 100)%float) (changes_from y0 col))
  /\ (forall avg,
        growth_trend_of avg =
        if (10 <? avg)%float then py "rapid_growth"
        else if (0 <? avg)%float then py "steady_growth"
        else if (-5 <? avg)%float then py "stable"
        else py "declining")
  /\ series_mean (growth_percent (map subscribers Examples.spec_timeline))
     = 10.000000000000009%float
  /\ calculate_growth_rate Examples.spec_timeline =
     Return (JObj [(py "avg_subscriber_growth", JFloat 10);
                   (py "avg_video_growth", JFloat 18.33);
                   (py "growth_trend", JStr (py "rapid_growth"));
                   (py "latest_subscribers", JInt 1210);
                   (py "latest_videos", JInt 14)]).
Proof.
  repeat split.
  - intros H. unfold calculate_growth_rate.
    by assert ((length df <? 2)%nat = true) as -> by (by apply Nat.ltb_lt).
  - intros H ls lv Hs Hv avg_s avg_v. unfold calculate_growth_rate.
    assert ((length df <? 2)%nat = false) as -> by (apply Nat.ltb_ge; lia).
    cbv zeta. by rewrite Hs, Hv.
Qed.

(** The theorem at the timeline of the specification. *)
Lemma C7_growth_rate_witness :
  calculate_growth_rate Examples.spec_timeline =
  Return (JObj [(py "avg_subscriber_growth",
                 JFloat (np_round (series_mean (growth_percent
                           (map subscribers Examples.spec_timeline))) 2));
                (py "avg_video_growth",
                 JFloat (np_round (series_mean (growth_percent
                           (map videos Examples.spec_timeline))) 2));
                (py "growth_trend",
                 JStr (growth_trend_of (series_mean (growth_percent
                         (map subscribers Examples.spec_timeline)))));
                (py "latest_subscribers", JInt 1210);
                (py "latest_videos", JInt 14)]).
Proof.
  apply (proj1 (proj2 (C7_growth_rate Examples.spec_timeline))).
  - simpl. lia.
  - by vm_compute.
  - by vm_compute.
Defined.

(** C7 as stated fails on its own example: the two yearly changes are each
    10.000000000000009 in binary64, so is their mean, and the strict test
    against 10 puts the timeline in rapid_growth, not steady_growth, while
    the reported average is the rounded 10.0. *)
Lemma C7_counterexample :
  map (fun c => (c * 100)%float) (changes_from 1000 [1100; 1210]%float)
  = [10.000000000000009; 10.000000000000009]%float
  /\ (10 <? series_mean (growth_percent (map subscribers Examples.spec_timeline)))%float = true
  /\ exists m,
       calculate_growth_rate Examples.spec_timeline = Return (JObj m)
       /\ dict_get (py "avg_subscriber_growth") m = Some (JFloat 10)
       /\ dict_get (py "growth_trend") m = Some (JStr (py "rapid_growth"))
       /\ dict_get (py "growth_trend") m <> Some (JStr (py "steady_growth")).
Proof.
  split; [by vm_compute|]. split; [by vm_compute|].
  eexists. split; [by vm_compute|]. by vm_compute.
Qed.

(** C8 (as amended). Below three points the prediction is unavailable. From
    three points on, with the least-squares line of [np.polyfit] over the
    indices and the subscriber counts, [calculate_trend_prediction] reports
    the slope, [R^2 = 1 - ss_res / ss_tot], the label strong above 0.7,
    moderate above 0.4 and weak otherwise, and the prediction for the next
    index converted by [int()], which truncates toward zero instead of
    rounding to the nearest integer. *)
Theorem C8_trend_prediction
    (polyfit : list float -> list float -> result (float * float)) (df : frame) :
  ((length df < 3)%nat ->
   calculate_trend_prediction polyfit df 1 =
   Return (JObj [(py "prediction_available", JBool false)]))
  /\ ((3 <= length df)%nat ->
      forall slope intercept next,
        let x := arange 0 (length df) in
        let y := map subscribers df in
        polyfit x y = Return (slope, intercept) ->
        int_of_float (slope * Z2F (Z.of_nat (length df)) + intercept)%float = Return next ->
        let trend_line := map (fun xi => (slope * xi + intercept)%float) x in
        let ss_tot := np_sum (map (fun yi => square (yi - np_mean y)%float) y) in
        let ss_res := np_sum (zip_with (fun yi ti => square (yi - ti)%float) y trend_line) in
        let r_squared := (1 - ss_res / ss_tot)%float in
        calculate_trend_prediction polyfit df 1 =
        Return (JObj [(py "prediction_available", JBool true);
                      (py "slope", JFloat slope);
                      (py "r_squared", JFloat r_squared);
                      (py "trend_strength", JStr (trend_strength_of r_squared));
                      (py "predicted_next_year", JInt next)]))
  /\ (forall r_squared,
        trend_strength_of r_squared =
        if (0.7 <? r_squared)%float then py "strong"
        else if (0.4 <? r_squared)%float then py "moderate"
        else py "weak")
  /\ (forall x n s m e,
        Prim2SF x = S754_finite s m e -> int_of_float x = Return n -> (e < 0)%Z ->
        (Z.abs n * 2 ^ (- e) <= Zpos m < (Z.abs n + 1) * 2 ^ (- e))%Z
        /\ (if s then n <= 0 else 0 <= n)%Z).
Proof.
  split; [|split; [|split]].
  - intros H. unfold calculate_trend_prediction.
    by assert ((length df <? 3)%nat = true) as -> by (by apply Nat.ltb_lt).
  - intros H slope intercept next x y Hfit Hnext trend_line ss_tot ss_res r_squared.
    unfold calculate_trend_prediction.
    assert ((length df <? 3)%nat = false) as -> by (apply Nat.ltb_ge; lia).
    cbv zeta. fold x y. rewrite Hfit. simpl mbind.
    unfold mbind, result_bind.
    change (arange (length df) 1) with [Z2F (Z.of_nat (length df))].
    simpl map at 3. rewrite Hnext. reflexivity.
  - reflexivity.
  - apply StatsFacts.int_of_float_truncates.
Qed.

(** The theorem at a timeline of three points, with the closed-form line. *)
Lemma C8_trend_prediction_witness :
  calculate_trend_prediction Examples.ols_fit Examples.rounding_timeline 1 =
  Return (JObj [(py "prediction_available", JBool true);
                (py "slope", JFloat 50);
                (py "r_squared", JFloat 0.75);
                (py "trend_strength", JStr (py "strong"));
                (py "predicted_next_year", JInt 266)]).
Proof.
  apply (proj1 (proj2 (C8_trend_prediction Examples.ols_fit Examples.rounding_timeline))
           ltac:(simpl; lia) 50%float 116.66666666666666%float 266%Z).
  - by vm_compute.
  - by vm_compute.
Defined.

(** C8 as stated fails: for subscriber counts 100, 200, 200 the line
    predicts 266.67 for the next period; the nearest integer is 267, the
    reported value is 266. *)
Lemma C8_counterexample :
  exists slope intercept m,
    Examples.ols_fit (arange 0 3) (map subscribers Examples.rounding_timeline)
    = Return (slope, intercept)
    /\ (slope * 3 + intercept)%float = 266.66666666666663%float
    /\ rint (slope * 3 + intercept) = 267%float
    /\ calculate_trend_prediction Examples.ols_fit Examples.rounding_timeline 1
       = Return (JObj m)
    /\ dict_get (py "predicted_next_year") m = Some (JInt 266).
Proof.
  eexists _, _, _. split; [by vm_compute|]. by vm_compute.
Qed.

(** ** The growth frame: sorting and cleaning *)

Module FrameFacts.

Definition key (r : row) : Z := order_key (year r).
Definition key_le (a b : row) : Prop := (key a <= key b)%Z.

#[local] Instance key_le_trans : Transitive key_le.
Proof. unfold key_le. intros a b c. lia. Qed.

Lemma key_inj_on l x1 x2 :
  NoDup (map key l) -> x1 ∈ l -> x2 ∈ l -> key x1 = key x2 -> x1 = x2.
Proof.
  induction l as [|a l IH]; intros Hnd H1 H2 Hk; [by apply elem_of_nil in H1|].
  simpl in Hnd. apply NoDup_cons in Hnd as [Hna Hnd].
  apply elem_of_cons in H1 as [->|H1], H2 as [->|H2]; try done.
  - exfalso. apply Hna. rewrite Hk. apply list_elem_of_In, in_map, list_elem_of_In, H2.
  - exfalso. apply Hna. rewrite <-Hk. apply list_elem_of_In, in_map, list_elem_of_In, H1.
  - by apply IH.
Qed.

(** With pairwise distinct years the sorted frame does not depend on the
    order of the rows, nor on what the sort does with equal years. *)
Lemma sort_values_unique (sort_values : sorter) l1 l2 :
  l1 ≡ₚ l2 -> NoDup (map key l1) -> sort_values l1 = sort_values l2.
Proof.
  intros Hp Hnd.
  apply (Sorted_unique_strong key_le); [|apply sort_rows_sorted..|].
  - intros x1 x2 H1 H2 H12 H21.
    rewrite sort_rows_perm in H1. rewrite sort_rows_perm, <-Hp in H2.
    apply (key_inj_on l1); try done. unfold key_le in *. lia.
  - by rewrite !sort_rows_perm.
Qed.

(** Rows put in the order an argsort of their years gives. *)
Definition reindex (argsort : list Z -> list nat) (l : frame) : frame :=
  omap (fun i => l !! i) (argsort (map key l)).

(** A sort is given the years only. For two different rows of the same year
    it returns the same index order whichever row comes first, so the two
    input orders give different frames, for every sort. *)
Lemma tie_order_matters (argsort : list Z -> list nat) (r1 r2 : row) :
  key r1 = key r2 -> r1 <> r2 ->
  argsort [key r1; key r2] ≡ₚ [0; 1]%nat ->
  reindex argsort [r1; r2] <> reindex argsort [r2; r1].
Proof.
  intros Hk Hne Hp. unfold reindex. simpl. rewrite <-Hk in Hp |- *.
  destruct (argsort [key r1; key r1]) as [|i [|j [|? ?]]] eqn:E;
    try (apply Permutation_length in Hp; simpl in Hp; lia).
  apply Permutation_length_2 in Hp as [[-> ->]|[-> ->]]; simpl; congruence.
Qed.

Section Cleaning.
Variable sort_values : sorter.
Variable to_numeric : json -> float.
Variable frame_of_other : json -> result frame.

Lemma columns_perm tl1 tl2 : tl1 ≡ₚ tl2 -> columns tl1 ≡ₚ columns tl2.
Proof. intros H. unfold columns. by apply Permutation_flat_map. Qed.

Lemma forallb_same_elements {A} (f : A -> bool) l1 l2 :
  (forall x, x ∈ l1 <-> x ∈ l2) -> forallb f l1 = forallb f l2.
Proof.
  intros H. destruct (forallb f l1) eqn:E1, (forallb f l2) eqn:E2; try done.
  - rewrite forallb_forall in E1. apply not_true_iff_false in E2.
    exfalso. apply E2. apply forallb_forall. intros x Hx.
    apply E1. apply list_elem_of_In, H, list_elem_of_In, Hx.
  - rewrite forallb_forall in E2. apply not_true_iff_false in E1.
    exfalso. apply E1. apply forallb_forall. intros x Hx.
    apply E2. apply list_elem_of_In, H, list_elem_of_In, Hx.
Qed.

Lemma complete_perm tl1 tl2 e :
  tl1 ≡ₚ tl2 ->
  complete to_numeric (columns tl1) e = complete to_numeric (columns tl2) e.
Proof.
  intros H. unfold complete. f_equal. apply forallb_same_elements.
  intros x. by rewrite (columns_perm _ _ H).
Qed.

Lemma clean_rows_perm tl1 tl2 :
  tl1 ≡ₚ tl2 -> clean_rows to_numeric tl1 ≡ₚ clean_rows to_numeric tl2.
Proof.
  intros H. unfold clean_rows. apply Permutation_map.
  rewrite (list_filter_iff _ (fun e => complete to_numeric (columns tl2) e = true)).
  - by apply filter_Permutation.
  - intros e. by rewrite (complete_perm _ _ e H).
Qed.

Lemma has_column_perm c tl1 tl2 : tl1 ≡ₚ tl2 -> has_column c tl1 = has_column c tl2.
Proof.
  intros H. unfold has_column. apply bool_decide_ext. by rewrite (columns_perm _ _ H).
Qed.

Lemma create_growth_dataframe_list_perm tl1 tl2 :
  tl1 ≡ₚ tl2 ->
  NoDup (map key (clean_rows to_numeric tl1)) ->
  create_growth_dataframe_list sort_values to_numeric tl1
  = create_growth_dataframe_list sort_values to_numeric tl2.
Proof.
  intros H Hnd. unfold create_growth_dataframe_list.
  destruct tl1 as [|e1 tl1].
  { apply Permutation_nil in H. by subst. }
  destruct tl2 as [|e2 tl2].
  { symmetry in H. by apply Permutation_nil in H. }
  rewrite !(has_column_perm _ _ _ H).
  repeat case_match; try done.
  f_equal. apply sort_values_unique; [|done]. by apply clean_rows_perm.
Qed.

Lemma as_dicts_objects tl : as_dicts (map JObj tl) = Some tl.
Proof. induction tl as [|e tl IH]; [done|]. simpl. by rewrite IH. Qed.

Lemma create_growth_dataframe_objects tl :
  create_growth_dataframe sort_values to_numeric frame_of_other (JArr (map JObj tl))
  = create_growth_dataframe_list sort_values to_numeric tl.
Proof.
  unfold create_growth_dataframe. destruct tl as [|e tl]; [done|].
  simpl truthy. simpl negb. cbv iota. by rewrite as_dicts_objects.
Qed.

End Cleaning.

End FrameFacts.

(** ** [validate_channel_data] *)

Section ValidateFacts.
Import DictFacts FrameFacts.

Variable sort_values : sorter.
Variable to_numeric : json -> float.
Variable frame_of_other : json -> result frame.
Variable polyfit : list float -> list float -> result (float * float).
Variable normalize_topic_distribution : json -> result json.

Abbreviation validate :=
  (validate_channel_data sort_values to_numeric frame_of_other polyfit
     normalize_topic_distribution).
Abbreviation growth := (attach_growth sort_values to_numeric frame_of_other polyfit).
Abbreviation topics := (attach_topics normalize_topic_distribution).

(** Two dicts that hold the same value under every key but [k]. *)
Definition agree_off (k : str) (d1 d2 : dict) : Prop :=
  forall k', k' <> k -> dict_get k' d1 = dict_get k' d2.

Lemma agree_off_set k x y d : agree_off k (dict_set k x d) (dict_set k y d).
Proof. intros k' Hne. by rewrite !dict_get_set_ne. Qed.

Lemma agree_off_set_both k k1 v d1 d2 :
  agree_off k d1 d2 -> agree_off k (dict_set k1 v d1) (dict_set k1 v d2).
Proof.
  intros H k' Hne. destruct (decide (k' = k1)) as [->|Hk].
  - by rewrite !dict_get_set_eq.
  - rewrite !dict_get_set_ne by done. by apply H.
Qed.

(** The topic step reads and writes the topic analysis only. *)
Lemma attach_topics_agree d1 d2 :
  agree_off K_growthTimeline d1 d2 ->
  match topics d1, topics d2 with
  | Return m1, Return m2 => agree_off K_growthTimeline m1 m2
  | Raise e1, Raise e2 => e1 = e2
  | _, _ => False
  end.
Proof.
  intros H. unfold attach_topics.
  rewrite <-(H K_topicAnalysis) by done.
  destruct (dict_get K_topicAnalysis d1) as [ta|]; [|done].
  destruct (py_in K_topicDistribution ta) as [[|]|]; simpl; try done.
  destruct ta; try done.
  destruct (normalize_topic_distribution _); simpl; [|done].
  by apply agree_off_set_both.
Qed.

Lemma attach_topics_keeps d m k :
  topics d = Return m -> k <> K_topicAnalysis -> dict_get k m = dict_get k d.
Proof.
  unfold attach_topics. intros H Hk.
  destruct (dict_get K_topicAnalysis d) as [ta|]; [|by simplify_eq].
  destruct (py_in K_topicDistribution ta) as [[|]|]; simpl in H; simplify_eq; [|done].
  destruct ta; try done.
  destruct (normalize_topic_distribution _); simpl in H; simplify_eq.
  by rewrite dict_get_set_ne.
Qed.

(** The growth step on two dicts that differ in their timelines only, when
    the two timelines give the same frame. *)
Lemma attach_growth_agree d1 d2 tl1 tl2 :
  agree_off K_growthTimeline d1 d2 ->
  dict_get K_growthTimeline d1 = Some tl1 ->
  dict_get K_growthTimeline d2 = Some tl2 ->
  create_growth_dataframe sort_values to_numeric frame_of_other tl1
  = create_growth_dataframe sort_values to_numeric frame_of_other tl2 ->
  match growth d1, growth d2 with
  | Return m1, Return m2 => agree_off K_growthTimeline m1 m2
  | Raise e1, Raise e2 => e1 = e2
  | _, _ => False
  end.
Proof.
  intros H H1 H2 Hdf. unfold attach_growth. rewrite H1, H2, Hdf.
  destruct (create_growth_dataframe _ _ _ tl2) as [df|]; simpl; [|done].
  destruct (calculate_growth_rate df) as [g|]; simpl; [|done].
  destruct (calculate_trend_prediction polyfit df 1) as [t|]; simpl; [|done].
  destruct (prediction_available t); by repeat apply agree_off_set_both.
Qed.

Lemma check_required_agree d1 d2 :
  agree_off K_growthTimeline d1 d2 ->
  dict_has K_growthTimeline d1 = dict_has K_growthTimeline d2 ->
  check_required required_fields (JObj d1) = check_required required_fields (JObj d2).
Proof.
  intros H Hg. unfold required_fields, check_required, py_in, dict_has in *. simpl.
  rewrite <-(H K_channelName), <-(H K_stats) by done.
  destruct (dict_get K_channelName d1); [|done].
  destruct (dict_get K_stats d1); [|done].
  by rewrite Hg.
Qed.

(** C9 (as amended). Take a channel object and give it, in turn, two
    timelines that are permutations of each other. If the entries that
    survive the cleaning have pairwise distinct years, then for every sort,
    whatever it does with rows of equal years, validation either fails the
    same way for both timelines or attaches the same growth statistics and
    the same trend prediction to both. *)
Theorem C9_statistics_ignore_entry_order (cd : dict) (tl1 tl2 : list dict) :
  tl1 ≡ₚ tl2 ->
  NoDup (map (fun r => order_key (year r)) (clean_rows to_numeric tl1)) ->
  match validate (JObj (dict_set K_growthTimeline (JArr (map JObj tl1)) cd)),
        validate (JObj (dict_set K_growthTimeline (JArr (map JObj tl2)) cd)) with
  | Return (JObj m1), Return (JObj m2) =>
      dict_get K_growthStatistics m1 = dict_get K_growthStatistics m2
      /\ dict_get K_trendPrediction m1 = dict_get K_trendPrediction m2
  | Raise e1, Raise e2 => e1 = e2
  | _, _ => False
  end.
Proof.
  intros Hp Hnd.
  set (d1 := dict_set K_growthTimeline (JArr (map JObj tl1)) cd).
  set (d2 := dict_set K_growthTimeline (JArr (map JObj tl2)) cd).
  assert (agree_off K_growthTimeline d1 d2) as Ha by apply agree_off_set.
  unfold validate_channel_data.
  rewrite (check_required_agree d1 d2 Ha) by (subst d1 d2; by rewrite !dict_has_set_eq).
  destruct (check_required required_fields (JObj d2)); simpl; [|done].
  pose proof (attach_growth_agree d1 d2 _ _ Ha
                (dict_get_set_eq _ _ _) (dict_get_set_eq _ _ _)) as Hg.
  rewrite !create_growth_dataframe_objects in Hg.
  specialize (Hg (create_growth_dataframe_list_perm sort_values to_numeric tl1 tl2 Hp Hnd)).
  destruct (growth d1) as [m1|e1], (growth d2) as [m2|e2]; simpl; try done.
  pose proof (attach_topics_agree m1 m2 Hg) as Ht.
  destruct (topics m1) as [n1|], (topics m2) as [n2|]; simpl; try done.
  split; by apply Ht.
Qed.

(** C10 (as amended). When the cleaned timeline has fewer than three
    points, the report returned by [validate_channel_data] holds the growth
    statistics of that frame, and validation has not written a trend
    prediction: the key is absent exactly when the incoming object had
    none, and a value the incoming object had under it is returned as it
    came. *)
Theorem C10_no_prediction_written (cd m : dict) (tl : json) (df : frame) :
  validate (JObj cd) = Return (JObj m) ->
  dict_get K_growthTimeline cd = Some tl ->
  create_growth_dataframe sort_values to_numeric frame_of_other tl = Return df ->
  (length df < 3)%nat ->
  (exists g, calculate_growth_rate df = Return g
             /\ dict_get K_growthStatistics m = Some g)
  /\ dict_get K_trendPrediction m = dict_get K_trendPrediction cd.
Proof.
  intros Hv Htl Hdf Hlen. unfold validate_channel_data in Hv.
  destruct (check_required required_fields (JObj cd)); simpl in Hv; [|done].
  destruct (growth cd) as [m1|] eqn:Eg; simpl in Hv; [|done].
  destruct (topics m1) as [m2|] eqn:Et; simpl in Hv; [|done].
  injection Hv as ->.
  unfold attach_growth in Eg. rewrite Htl, Hdf in Eg. simpl in Eg.
  destruct (calculate_growth_rate df) as [g|]; simpl in Eg; [|done].
  unfold calculate_trend_prediction in Eg.
  assert ((length df <? 3)%nat = true) as Hb by (by apply Nat.ltb_lt).
  rewrite Hb in Eg. simpl in Eg. injection Eg as <-.
  rewrite !(attach_topics_keeps _ _ _ Et) by done. split.
  - exists g. split; [done|]. apply dict_get_set_eq.
  - by rewrite dict_get_set_ne.
Qed.

End ValidateFacts.

(** The theorem at a timeline of three years given in two orders. *)
Lemma C9_statistics_ignore_entry_order_witness :
  let tl1 := [Examples.entry 2020 1000 10; Examples.entry 2021 1100 12;
              Examples.entry 2022 1210 14] in
  let tl2 := [Examples.entry 2022 1210 14; Examples.entry 2020 1000 10;
              Examples.entry 2021 1100 12] in
  match Examples.validate_example (Examples.channel_with tl1 []),
        Examples.validate_example (Examples.channel_with tl2 []) with
  | Return (JObj m1), Return (JObj m2) =>
      dict_get K_growthStatistics m1 = dict_get K_growthStatistics m2
      /\ dict_get K_trendPrediction m1 = dict_get K_trendPrediction m2
  | Raise e1, Raise e2 => e1 = e2
  | _, _ => False
  end.
Proof.
  intros tl1 tl2.
  apply (C9_statistics_ignore_entry_order stable_sort Examples.numeric_cell
           Examples.unreached_frame Examples.ols_fit Examples.unreached_json
           [(K_channelName, JStr (py "a")); (K_stats, JObj []);
            (K_growthTimeline, JNull)] tl1 tl2).
  - subst tl1 tl2. symmetry.
    apply (Permutation_cons_append
             [Examples.entry 2020 1000 10; Examples.entry 2021 1100 12]
             (Examples.entry 2022 1210 14)).
  - apply (bool_decide_unpack _). by vm_compute.
Defined.

(** C9 as stated fails: two entries of the year 2020, in both orders. The
    sort is given the years only, so on two equal years it makes the same
    choice for both orders: it leaves the two rows as they came, or it swaps
    them. Either way one order reads as growth from 100 to 200 and the other
    as a fall from 200 to 100. *)
Lemma C9_counterexample :
  Examples.tied_timeline ≡ₚ Examples.tied_timeline_swapped
  /\ (exists m1 m2 g1 g2,
        Examples.validate_example (Examples.channel_with Examples.tied_timeline [])
        = Return (JObj m1)
        /\ Examples.validate_example (Examples.channel_with Examples.tied_timeline_swapped [])
           = Return (JObj m2)
        /\ dict_get K_growthStatistics m1 = Some (JObj g1)
        /\ dict_get K_growthStatistics m2 = Some (JObj g2)
        /\ dict_get (py "avg_subscriber_growth") g1 = Some (JFloat 100)
        /\ dict_get (py "avg_subscriber_growth") g2 = Some (JFloat (-50))
        /\ dict_get (py "growth_trend") g1 = Some (JStr (py "rapid_growth"))
        /\ dict_get (py "growth_trend") g2 = Some (JStr (py "declining"))
        /\ dict_get K_growthStatistics m1 <> dict_get K_growthStatistics m2)
  /\ (exists m1 m2 g1 g2,
        Examples.validate_reversing (Examples.channel_with Examples.tied_timeline [])
        = Return (JObj m1)
        /\ Examples.validate_reversing (Examples.channel_with Examples.tied_timeline_swapped [])
           = Return (JObj m2)
        /\ dict_get K_growthStatistics m1 = Some (JObj g1)
        /\ dict_get K_growthStatistics m2 = Some (JObj g2)
        /\ dict_get (py "avg_subscriber_growth") g1 = Some (JFloat (-50))
        /\ dict_get (py "avg_subscriber_growth") g2 = Some (JFloat 100)
        /\ dict_get (py "growth_trend") g1 = Some (JStr (py "declining"))
        /\ dict_get (py "growth_trend") g2 = Some (JStr (py "rapid_growth"))
        /\ dict_get K_growthStatistics m1 <> dict_get K_growthStatistics m2).
Proof.
  split; [apply Permutation_swap|]. split.
  - eexists _, _, _, _. split; [by vm_compute|]. split; [by vm_compute|].
    split; [by vm_compute|]. split; [by vm_compute|]. by vm_compute.
  - eexists _, _, _, _. split; [by vm_compute|]. split; [by vm_compute|].
    split; [by vm_compute|]. split; [by vm_compute|]. by vm_compute.
Qed.

(** The theorem at a channel with a timeline of two points. *)
Lemma C10_no_prediction_written_witness :
  let cd := [(K_channelName, JStr (py "a")); (K_stats, JObj []);
             (K_growthTimeline,
              JArr (map JObj [Examples.entry 2020 100 1; Examples.entry 2021 200 2]))] in
  let df := [Row 2020 100 1; Row 2021 200 2] in
  exists m,
    Examples.validate_example (JObj cd) = Return (JObj m)
    /\ (exists g, calculate_growth_rate df = Return g
                  /\ dict_get K_growthStatistics m = Some g)
    /\ dict_get K_trendPrediction m = dict_get K_trendPrediction cd.
Proof.
  intros cd df.
  destruct (Examples.validate_example (JObj cd)) as [[| | | | | |m]|e] eqn:E;
    try by vm_compute in E.
  exists m. split; [done|].
  apply (C10_no_prediction_written stable_sort Examples.numeric_cell Examples.unreached_frame
           Examples.ols_fit Examples.unreached_json cd m
           (JArr (map JObj [Examples.entry 2020 100 1; Examples.entry 2021 200 2])) df).
  - exact E.
  - by vm_compute.
  - by vm_compute.
  - simpl. lia.
Defined.

(** C10 as stated fails: the model's object already holds a trendPrediction
    and an empty timeline. Validation writes none and removes none, so the
    returned report still holds the incoming one. *)
Lemma C10_counterexample :
  let cd := Examples.channel_with [] [(K_trendPrediction, JStr (py "from the model"))] in
  create_growth_dataframe stable_sort Examples.numeric_cell Examples.unreached_frame
    (JArr []) = Return []
  /\ exists m,
       Examples.validate_example cd = Return (JObj m)
       /\ dict_has K_growthStatistics m = true
       /\ dict_get K_trendPrediction m = Some (JStr (py "from the model")).
Proof.
  split; [by vm_compute|]. eexists. split; [by vm_compute|]. by vm_compute.
Qed.
(* ===================================================================== *)
(** * Part III. Further properties of the code                            *)
(* ===================================================================== *)

(** ** [extract_video_id] *)

Module LinkFacts.
Import RegexFacts.

Lemma startswith_app l s : startswith l s = true -> exists t, s = l ++ t.
Proof.
  revert s. induction l as [|c l IH]; intros s H; [by exists s|].
  destruct s as [|b s]; [discriminate|]. simpl in H.
  apply andb_prop in H as [E H]. apply N.eqb_eq in E as ->.
  destruct (IH _ H) as [t ->]. by exists t.
Qed.

(** A literal run at the head of a pattern matches only its own text. *)
Lemma match_lit_inv l p s cap g :
  cap.1 = false ->
  match_here (lit l ++ p) s cap = Some g ->
  exists t, s = l ++ t /\ match_here p t cap = Some g.
Proof.
  intros Hc H. destruct (startswith l s) eqn:E.
  - destruct (startswith_app _ _ E) as [t ->]. exists t. split; [done|].
    by rewrite match_lit in H.
  - by rewrite match_lit_fail in H.
Qed.

(** Where [re.search] finds its match. *)
Lemma re_search_inv alts s g :
  re_search alts s = Some g ->
  exists pre rest, s = pre ++ rest /\ match_alt alts rest = Some g.
Proof.
  induction s as [|c s IH]; rewrite SpanFacts.re_search_unfold.
  - destruct (match_alt alts []) eqn:E; [|discriminate].
    intros [= ->]. by exists [], [].
  - destruct (match_alt alts (c :: s)) eqn:E.
    + intros [= ->]. by exists [], (c :: s).
    + intros H. destruct (IH H) as (pre & rest & -> & Hm).
      by exists (c :: pre), rest.
Qed.

Lemma re_search_finds alts pre rest g :
  match_alt alts rest = Some g -> exists g', re_search alts (pre ++ rest) = Some g'.
Proof.
  intros H. induction pre as [|c pre IH].
  - exists g. by apply re_search_here.
  - simpl app. rewrite SpanFacts.re_search_unfold.
    destruct (match_alt alts (c :: pre ++ rest)) as [g1|]; [by exists g1|]. exact IH.
Qed.

Lemma match_alt_inv alts s g :
  match_alt alts s = Some g ->
  exists p, p ∈ alts /\ match_here p s (false, []) = Some g.
Proof.
  induction alts as [|p alts IH]; [discriminate|]. simpl.
  destruct (match_here p s (false, [])) eqn:E.
  - intros [= ->]. exists p. split; [left|done].
  - intros H. destruct (IH H) as (q & Hq & Hm). exists q. split; [by right|done].
Qed.

(** The group of [n] identifier characters: it matches exactly when the text
    starts with [n] of them, and captures these. *)
Lemma id_group_inv n : forall s acc g,
  match_here (replicate n (One CIdent) ++ [GroupClose]) s (true, acc) = Some g ->
  exists t post, s = t ++ post /\ g = rev acc ++ t
                 /\ length t = n /\ forallb is_id_char t = true.
Proof.
  induction n as [|n IH]; intros s acc g H.
  - cbn in H. injection H as <-. exists [], s. by rewrite app_nil_r.
  - cbn [replicate app match_here] in H. destruct s as [|c s]; [discriminate|].
    destruct (cset_mem CIdent c) eqn:E; [|discriminate].
    change (push c (true, acc)) with (true, c :: acc) in H.
    apply IH in H as (t & post & -> & -> & Hl & Hf).
    exists (c :: t), post. simpl. rewrite <-app_assoc. repeat split; try done.
    + by rewrite Hl.
    + unfold is_id_char at 1. by rewrite E.
Qed.

Lemma id_group_match n : forall t post acc,
  length t = n -> forallb is_id_char t = true ->
  match_here (replicate n (One CIdent) ++ [GroupClose]) (t ++ post) (true, acc)
  = Some (rev acc ++ t).
Proof.
  induction n as [|n IH]; intros t post acc Hl Hf.
  - destruct t; [|discriminate]. simpl. by rewrite app_nil_r.
  - destruct t as [|c t]; [discriminate|]. simpl in Hl, Hf.
    apply andb_prop in Hf as [Hc Hf]. unfold is_id_char in Hc.
    cbn [replicate app match_here]. rewrite Hc.
    change (push c (true, acc)) with (true, c :: acc).
    rewrite IH; [|lia|done]. simpl. by rewrite <-app_assoc.
Qed.

(** The patterns of [extract_video_id], by their prefixes. *)
Lemma video_id_patterns_eq :
  video_id_patterns = [map link_pattern watch_prefixes; [link_pattern shorts_prefix]].
Proof. reflexivity. Qed.

Lemma link_pattern_inv prefix s g :
  match_here (link_pattern prefix) s (false, []) = Some g ->
  is_video_id g /\ exists post, s = prefix ++ g ++ post.
Proof.
  unfold link_pattern. intros H.
  apply match_lit_inv in H as (t & -> & H); [|done].
  change (match_here (replicate 11 (One CIdent) ++ [GroupClose]) t (true, []) = Some g) in H.
  apply id_group_inv in H as (id & post & -> & -> & Hl & Hf).
  split; [by split|]. by exists post.
Qed.

Lemma link_pattern_match prefix id post :
  is_video_id id ->
  match_here (link_pattern prefix) (prefix ++ id ++ post) (false, []) = Some id.
Proof.
  intros [Hl Hf]. unfold link_pattern. rewrite match_lit by done.
  exact (id_group_match 11 id post [] Hl Hf).
Qed.

Lemma link_pattern_fail prefix s :
  startswith prefix s = false -> match_here (link_pattern prefix) s (false, []) = None.
Proof. intros H. unfold link_pattern. by apply match_lit_fail. Qed.

Lemma search_link_inv prefixes url g :
  re_search (map link_pattern prefixes) url = Some g ->
  is_video_id g /\ exists pre prefix post, prefix ∈ prefixes /\ url = pre ++ prefix ++ g ++ post.
Proof.
  intros H. apply re_search_inv in H as (pre & rest & -> & H).
  apply match_alt_inv in H as (p & Hp & H).
  apply list_elem_of_fmap in Hp as (prefix & -> & Hp).
  apply link_pattern_inv in H as [Hid [post ->]].
  split; [done|]. by exists pre, prefix, post.
Qed.

Lemma match_alt_link prefixes prefix id post :
  prefix ∈ prefixes -> is_video_id id ->
  exists g, match_alt (map link_pattern prefixes) (prefix ++ id ++ post) = Some g.
Proof.
  intros Hp Hid. induction prefixes as [|q prefixes IH]; [by apply elem_of_nil in Hp|].
  simpl. destruct (match_here (link_pattern q) (prefix ++ id ++ post) (false, [])) as [g|] eqn:E;
    [by exists g|].
  apply elem_of_cons in Hp as [->|Hp]; [|by apply IH].
  by rewrite link_pattern_match in E.
Qed.

(** Every alternative of both patterns starts with the letter y. *)
Lemma no_link_without_y c s :
  c <> 121 -> match_alt (map link_pattern watch_prefixes) (c :: s) = None.
Proof.
  intros Hc. apply N.eqb_neq in Hc. simpl. by rewrite !Hc.
Qed.

Lemma extract_video_id_eq url :
  extract_video_id url =
  match re_search (map link_pattern watch_prefixes) url with
  | Some g => Some g
  | None => re_search [link_pattern shorts_prefix] url
  end.
Proof.
  unfold extract_video_id. rewrite video_id_patterns_eq. unfold first_match.
  destruct (re_search (map link_pattern watch_prefixes) url); [done|].
  by destruct (re_search [link_pattern shorts_prefix] url).
Qed.

End LinkFacts.

(** X1. A returned video id is eleven characters of the class
    [[a-zA-Z0-9_-]], and it stands in the URL right after one of the five
    link prefixes. Nothing is checked about what follows the eleventh
    character. *)
Theorem extract_video_id_sound (url id : str) :
  extract_video_id url = Some id ->
  is_video_id id
  /\ exists pre prefix post, prefix ∈ link_prefixes /\ url = pre ++ prefix ++ id ++ post.
Proof.
  rewrite LinkFacts.extract_video_id_eq.
  destruct (re_search (map link_pattern watch_prefixes) url) as [g|] eqn:E1.
  - intros [= <-]. apply LinkFacts.search_link_inv in E1 as [Hid (pre & prefix & post & Hp & ->)].
    split; [done|]. exists pre, prefix, post. split; [|done].
    unfold link_prefixes. apply elem_of_app. by left.
  - destruct (re_search [link_pattern shorts_prefix] url) as [g|] eqn:E2; [|discriminate].
    intros [= <-].
    apply (LinkFacts.search_link_inv [shorts_prefix]) in E2
      as [Hid (pre & prefix & post & Hp & ->)].
    split; [done|]. exists pre, prefix, post. split; [|done].
    unfold link_prefixes. apply elem_of_app. by right.
Qed.

(** The theorem at a short link with a time parameter. *)
Lemma extract_video_id_sound_witness :
  is_video_id (py "dQw4w9WgXcQ")
  /\ exists pre prefix post,
       prefix ∈ link_prefixes
       /\ py "https://youtu.be/dQw4w9WgXcQ?t=42" = pre ++ prefix ++ py "dQw4w9WgXcQ" ++ post.
Proof.
  apply (extract_video_id_sound (py "https://youtu.be/dQw4w9WgXcQ?t=42") (py "dQw4w9WgXcQ")).
  by vm_compute.
Defined.

(** X2. A URL that holds one of the five link prefixes followed by eleven
    identifier characters always yields an id. *)
Theorem extract_video_id_complete (pre prefix id post : str) :
  prefix ∈ link_prefixes ->
  is_video_id id ->
  exists id', extract_video_id (pre ++ prefix ++ id ++ post) = Some id'.
Proof.
  intros Hp Hid. rewrite LinkFacts.extract_video_id_eq.
  destruct (re_search (map link_pattern watch_prefixes) (pre ++ prefix ++ id ++ post))
    as [g|] eqn:E1; [by exists g|].
  unfold link_prefixes in Hp. apply elem_of_app in Hp as [Hp|Hp].
  - destruct (LinkFacts.match_alt_link watch_prefixes prefix id post Hp Hid) as [g Hg].
    destruct (LinkFacts.re_search_finds _ pre _ _ Hg) as [g' Hg']. congruence.
  - destruct (LinkFacts.match_alt_link [shorts_prefix] prefix id post Hp Hid) as [g Hg].
    destruct (LinkFacts.re_search_finds _ pre _ _ Hg) as [g' Hg']. by exists g'.
Qed.

(** The theorem at a shorts link. *)
Lemma extract_video_id_complete_witness :
  exists id',
    extract_video_id (py "https://www." ++ py "youtube.com/shorts/" ++ py "abcdefghijk" ++ py "?x=1")
    = Some id'.
Proof.
  apply (extract_video_id_complete (py "https://www.") (py "youtube.com/shorts/")
           (py "abcdefghijk") (py "?x=1")).
  - compute_done.
  - split; reflexivity.
Defined.

(** X3. When no letter y comes before it, a watch, short-host, embed or v link
    gives exactly its own eleven characters, whatever follows them. *)
Theorem extract_video_id_first_link (pre prefix id post : str) :
  prefix ∈ watch_prefixes ->
  is_video_id id ->
  121 ∉ pre ->
  extract_video_id (pre ++ prefix ++ id ++ post) = Some id.
Proof.
  intros Hp Hid Hy. rewrite LinkFacts.extract_video_id_eq.
  assert (re_search (map link_pattern watch_prefixes) (pre ++ prefix ++ id ++ post)
          = Some id) as ->; [|done].
  induction pre as [|c pre IH].
  - apply RegexFacts.re_search_here. simpl app.
    unfold watch_prefixes in Hp |- *. cbn [map match_alt].
    repeat (apply elem_of_cons in Hp as [->|Hp]);
      [| | | |by apply elem_of_nil in Hp];
      repeat (rewrite LinkFacts.link_pattern_fail by reflexivity);
      by rewrite LinkFacts.link_pattern_match.
  - simpl app. rewrite SpanFacts.re_search_unfold.
    rewrite LinkFacts.no_link_without_y by (intros ->; apply Hy; left).
    apply IH. intros H. apply Hy. by right.
Qed.

(** The theorem at a watch link followed by another link. *)
Lemma extract_video_id_first_link_witness :
  extract_video_id (py "https://www." ++ py "youtube.com/watch?v=" ++ py "dQw4w9WgXcQ"
                    ++ py "&list=youtu.be/AAAAAAAAAAA")
  = Some (py "dQw4w9WgXcQ").
Proof.
  apply (extract_video_id_first_link (py "https://www.") (py "youtube.com/watch?v=")
           (py "dQw4w9WgXcQ") (py "&list=youtu.be/AAAAAAAAAAA")).
  - compute_done.
  - split; reflexivity.
  - compute_done.
Defined.

(** ** [analyze_video_truth]: what it sends and what it leaves alone *)

Module TruthEffects.

(** Without a letter y in the text neither pattern of [extract_video_id]
    matches anywhere. *)
Lemma no_y_no_match prefixes s :
  Forall (fun p => exists t, p = 121 :: t) prefixes ->
  121 ∉ s ->
  re_search (map link_pattern prefixes) s = None.
Proof.
  intros Hp Hy.
  assert (forall t, t = [] \/ (exists c t', t = c :: t' /\ c <> 121) ->
                    match_alt (map link_pattern prefixes) t = None) as Hm.
  { intros t Ht. induction Hp as [|p prefixes [q ->] _ IH]; [done|].
    simpl. destruct Ht as [->|(c & t' & -> & Hc)]; simpl.
    - apply IH.
    - apply N.eqb_neq in Hc. rewrite Hc. apply IH. }
  induction s as [|c s IH]; rewrite SpanFacts.re_search_unfold.
  - by rewrite Hm by (by left).
  - rewrite Hm.
    + apply IH. intros H. apply Hy. by right.
    + right. exists c, s. split; [done|]. intros ->. apply Hy. left.
Qed.

Lemma extract_video_id_needs_y s : 121 ∉ s -> extract_video_id s = None.
Proof.
  intros Hy. rewrite LinkFacts.extract_video_id_eq.
  rewrite no_y_no_match; [|repeat constructor; by eexists|done].
  apply (no_y_no_match [shorts_prefix]); [|done].
  repeat constructor. by eexists.
Qed.

End TruthEffects.

Section TruthMore.

Variable lower : str -> str.
Variable generate_content : list prompt -> prompt -> result response.
Variable requests_get : str -> result (bool * result json).
Variable calculate_confidence_interval : json -> result json.

Abbreviation truth :=
  (analyze_video_truth lower generate_content requests_get calculate_confidence_interval).

(** The two ways a call of [analyze_video_truth] can go. *)
Lemma analyze_video_truth_cases (video_input : str) (w w' : world) (res : result json) :
  truth video_input w = (res, w') ->
  cache w' = cache w
  /\ ((w' = w /\ (res = Raise InvalidUrl \/ res = Raise NoVideoId \/ res = Raise NoMetadata))
      \/ exists id md,
           extract_video_id video_input = Some id
           /\ fetch_video_metadata requests_get video_input = Some md
           /\ calls w' = calls w ++ [TruthPrompt video_input id (title md) (author md)]).
Proof.
  unfold analyze_video_truth. intros H.
  destruct (negb _).
  { unfold lift in H. simplify_eq. split; [done|]. left. by auto. }
  destruct (extract_video_id video_input) as [id|].
  2:{ unfold lift in H. simplify_eq. split; [done|]. left. by auto. }
  destruct (fetch_video_metadata requests_get video_input) as [md|].
  2:{ unfold lift in H. simplify_eq. split; [done|]. left. by auto. }
  unfold mbind, M_bind, call_model in H.
  destruct (generate_content _ _) as [response|].
  - unfold lift in H. injection H as _ <-. simpl. split; [done|]. right. by exists id, md.
  - injection H as _ <-. simpl. split; [done|]. right. by exists id, md.
Qed.

(** X4. [analyze_video_truth] never writes the cache. Either it sends
    nothing to the model, and then it raised one of its three validation
    errors and left the state as it was; or it sent exactly one prompt, and
    that prompt carries the id extracted from the input and the title and
    author the metadata fetch returned. *)
Theorem truth_analysis_effects (video_input : str) (w w' : world) (res : result json) :
  truth video_input w = (res, w') ->
  cache w' = cache w
  /\ ((w' = w /\ (res = Raise InvalidUrl \/ res = Raise NoVideoId \/ res = Raise NoMetadata))
      \/ exists id md,
           extract_video_id video_input = Some id
           /\ fetch_video_metadata requests_get video_input = Some md
           /\ calls w' = calls w ++ [TruthPrompt video_input id (title md) (author md)]).
Proof. apply analyze_video_truth_cases. Qed.

(** X5. The link check lower-cases the input, the id extraction does not:
    an input that passes the check and holds no lower-case letter y (an
    upper-case host, say) is refused for its id, before any request is
    made. *)
Theorem truth_link_check_is_case_blind (video_input : str) (w : world) :
  contains (py "youtube.com/") (lower video_input)
    || contains (py "youtu.be/") (lower video_input) = true ->
  121 ∉ video_input ->
  truth video_input w = (Raise NoVideoId, w).
Proof.
  intros Hu Hy. unfold analyze_video_truth. rewrite Hu. simpl negb. cbv iota.
  by rewrite TruthEffects.extract_video_id_needs_y.
Qed.

End TruthMore.

(** The theorem at the example link and the scripted libraries. *)
Lemma truth_analysis_effects_witness :
  let r := analyze_video_truth Examples.ascii_lower Examples.scripted_model
             Examples.scripted_oembed Examples.unreached_json
             Examples.example_url Examples.empty_world in
  cache r.2 = cache Examples.empty_world
  /\ ((r.2 = Examples.empty_world
       /\ (r.1 = Raise InvalidUrl \/ r.1 = Raise NoVideoId \/ r.1 = Raise NoMetadata))
      \/ exists id md,
           extract_video_id Examples.example_url = Some id
           /\ fetch_video_metadata Examples.scripted_oembed Examples.example_url = Some md
           /\ calls r.2 = calls Examples.empty_world
                          ++ [TruthPrompt Examples.example_url id (title md) (author md)]).
Proof.
  apply (truth_analysis_effects Examples.ascii_lower Examples.scripted_model
           Examples.scripted_oembed Examples.unreached_json
           Examples.example_url Examples.empty_world).
  by destruct (analyze_video_truth _ _ _ _ _ _).
Defined.

(** The theorem at a link written in capitals. *)
Lemma truth_link_check_is_case_blind_witness :
  analyze_video_truth Examples.ascii_lower Examples.scripted_model
    Examples.scripted_oembed Examples.unreached_json
    (py "HTTPS://YOUTU.BE/DQW4W9WGXCQ") Examples.empty_world
  = (Raise NoVideoId, Examples.empty_world).
Proof.
  apply (truth_link_check_is_case_blind Examples.ascii_lower Examples.scripted_model
           Examples.scripted_oembed Examples.unreached_json
           (py "HTTPS://YOUTU.BE/DQW4W9WGXCQ") Examples.empty_world).
  - by vm_compute.
  - compute_done.
Defined.

(** ** The sources of a response *)

Module SourceFacts.

(** The loop that removes duplicate sources, started with any set of uris
    already seen. *)
Lemma unique_from_spec sources : forall seen : gset str,
  let u := unique_from seen sources in
  (forall s, s ∈ u -> s.2 ∉ seen)
  /\ NoDup (u.*2)
  /\ u `sublist_of` sources
  /\ (forall s, s ∈ sources -> s.2 ∈ seen \/ s.2 ∈ u.*2)
  /\ (forall s, s ∈ u -> exists l1 l2, sources = l1 ++ s :: l2 /\ s.2 ∉ l1.*2).
Proof.
  induction sources as [|x sources IH]; intros seen; simpl.
  { split; [by intros s Hs%elem_of_nil|]. split; [constructor|].
    split; [done|]. split; by intros s Hs%elem_of_nil. }
  destruct (IH seen) as (A1 & A2 & A3 & A4 & A5).
  destruct (IH ({[x.2]} ∪ seen)) as (B1 & B2 & B3 & B4 & B5).
  case_bool_decide as Hx.
  - repeat split; try done.
    + by apply sublist_cons.
    + intros s [->|Hs]%elem_of_cons; [by left|by apply A4].
    + intros s Hs. destruct (A5 s Hs) as (l1 & l2 & -> & Hn).
      exists (x :: l1), l2. split; [done|]. rewrite fmap_cons.
      intros [E|?]%elem_of_cons; [|done]. apply (A1 s Hs). by rewrite E.
  - repeat split.
    + intros s [->|Hs]%elem_of_cons; [done|].
      intros Hin. apply (B1 s Hs). apply elem_of_union. by right.
    + rewrite fmap_cons. apply NoDup_cons. split; [|done].
      intros (s & E & Hs)%list_elem_of_fmap. apply (B1 s Hs).
      apply elem_of_union. left. apply elem_of_singleton. by rewrite E.
    + by apply sublist_skip.
    + intros s [->|Hs]%elem_of_cons.
      * right. rewrite fmap_cons. by left.
      * destruct (B4 s Hs) as [[E%elem_of_singleton|?]%elem_of_union|?].
        -- right. rewrite fmap_cons, E. by left.
        -- by left.
        -- right. rewrite fmap_cons. by right.
    + intros s [->|Hs]%elem_of_cons.
      * exists [], sources. split; [done|]. by intros ?%elem_of_nil.
      * destruct (B5 s Hs) as (l1 & l2 & -> & Hn).
        exists (x :: l1), l2. split; [done|]. rewrite fmap_cons.
        intros [E|?]%elem_of_cons; [|done]. apply (B1 s Hs).
        apply elem_of_union. left. apply elem_of_singleton. by rewrite E.
Qed.

End SourceFacts.

(** X6. The loop that removes duplicate sources keeps, in their order, the
    sources of the response whose uri did not occur earlier: no uri occurs
    twice in its result, every uri of the input still occurs, and what is
    kept for a uri is its first source (title included). *)
Theorem unique_sources_first_of_each_uri (sources : list (str * str)) :
  NoDup ((unique_from ∅ sources).*2)
  /\ unique_from ∅ sources `sublist_of` sources
  /\ (forall s, s ∈ sources -> s.2 ∈ (unique_from ∅ sources).*2)
  /\ (forall s, s ∈ unique_from ∅ sources ->
        exists l1 l2, sources = l1 ++ s :: l2 /\ s.2 ∉ l1.*2).
Proof.
  destruct (SourceFacts.unique_from_spec sources ∅) as (_ & A2 & A3 & A4 & A5).
  repeat split; try done.
  intros s Hs. destruct (A4 s Hs) as [H|H]; [|done]. by apply not_elem_of_empty in H.
Qed.

(** ** The cache across calls *)

Section CacheFacts.

Variable lower : str -> str.
Variable generate_content : list prompt -> prompt -> result response.
Variable sort_values : sorter.
Variable to_numeric : json -> float.
Variable frame_of_other : json -> result frame.
Variable polyfit : list float -> list float -> result (float * float).
Variable normalize_topic_distribution : json -> result json.
Variable overall_statistics : list json -> result json.
Variable pd_DataFrame : json -> result (list json).

Abbreviation analyze' :=
  (analyze_channel lower generate_content sort_values to_numeric frame_of_other polyfit
     normalize_topic_distribution).
Abbreviation analyze_all' :=
  (analyze_all lower generate_content sort_values to_numeric frame_of_other polyfit
     normalize_topic_distribution).
Abbreviation battle' :=
  (run_battle lower generate_content sort_values to_numeric frame_of_other polyfit
     normalize_topic_distribution overall_statistics pd_DataFrame).

(** The name a channel is cached under determines its lower-cased form. *)
Lemma cache_key_inj a b : cache_key lower a = cache_key lower b -> lower a = lower b.
Proof. unfold cache_key. by intros H%app_inv_head. Qed.

(** X7. A failed analysis is not cached: when [analyze_channel] raises,
    the name was not in the cache, the cache is as it was, and the one
    prompt for this channel was sent; the next call for the name asks the
    model again. *)
Theorem failed_analysis_is_not_cached (name : str) (w w1 : world) (e : exn) :
  analyze' name w = (Raise e, w1) ->
  cache w !! cache_key lower name = None
  /\ cache w1 = cache w
  /\ calls w1 = calls w ++ [ChannelPrompt name].
Proof.
  intros H. destruct (cache w !! cache_key lower name) as [c|] eqn:E.
  - rewrite (analyze_channel_hit _ _ _ _ _ _ _ _ _ _ E) in H. discriminate.
  - rewrite (analyze_channel_miss _ _ _ _ _ _ _ _ _ E) in H.
    repeat (case_match; simplify_eq); by simpl.
Qed.

(** X8. An analysis touches the cache entry of its own channel only:
    the entry of a name with another lower-cased form is the same before
    and after, whether the call returned or raised. *)
Theorem analysis_leaves_other_channels (name other : str) (w w1 : world) (res : result json) :
  analyze' name w = (res, w1) ->
  lower other <> lower name ->
  cache w1 !! cache_key lower other = cache w !! cache_key lower other.
Proof.
  intros H Hne. destruct (cache w !! cache_key lower name) as [c|] eqn:E.
  - rewrite (analyze_channel_hit _ _ _ _ _ _ _ _ _ _ E) in H. by simplify_eq.
  - rewrite (analyze_channel_miss _ _ _ _ _ _ _ _ _ E) in H.
    repeat (case_match; simplify_eq); simpl; try done.
    apply lookup_insert_ne. intros Hk. by apply Hne, cache_key_inj.
Qed.

(** The channel analyses of a battle: entries of the cache stay, the log of
    prompts only grows, and every report returned is the entry of its name
    when the analyses end. *)
Lemma analyze_all_spec names : forall w res w1,
  analyze_all' names w = (res, w1) ->
  (forall k v, cache w !! k = Some v -> cache w1 !! k = Some v)
  /\ calls w `prefix_of` calls w1
  /\ (forall cs, res = Return cs ->
        Forall2 (fun n c => exists s, n = JStr s /\ cache w1 !! cache_key lower s = Some c)
                names cs).
Proof.
  induction names as [|n names IH]; intros w res w1 H.
  - simpl in H. unfold mret, M_ret in H. simplify_eq.
    split; [done|]. split; [done|]. intros cs [= <-]. constructor.
  - simpl in H. unfold mbind, M_bind in H.
    destruct n as [| | | |s| |];
      try (unfold lift in H; simplify_eq; split; [done|]; split; [done|]; by intros cs [=]).
    destruct (analyze' s w) as [[c|e] w2] eqn:E1.
    2:{ simplify_eq. split; [|split; [|by intros cs [=]]].
        - intros k v. by eapply analyze_channel_keeps.
        - destruct (failed_analysis_is_not_cached _ _ _ _ E1) as (_ & _ & ->).
          by apply prefix_app_r. }
    destruct (analyze_all' names w2) as [[cs'|e] w3] eqn:E2.
    + unfold mret, M_ret in H. simplify_eq.
      destruct (IH _ _ _ E2) as (K & P & F).
      split; [|split].
      * intros k v Hk. apply K. by eapply analyze_channel_keeps.
      * etransitivity; [|exact P].
        destruct (cache w !! cache_key lower s) as [c0|] eqn:E.
        -- rewrite (analyze_channel_hit _ _ _ _ _ _ _ _ _ _ E) in E1. by simplify_eq.
        -- rewrite (analyze_channel_miss _ _ _ _ _ _ _ _ _ E) in E1.
           repeat (case_match; simplify_eq); simpl; by apply prefix_app_r.
      * intros cs [= <-]. constructor; [|by apply F].
        exists s. split; [done|]. apply K. by eapply analyze_channel_stores.
    + simplify_eq. destruct (IH _ _ _ E2) as (K & P & _).
      split; [|split; [|by intros cs [=]]].
      * intros k v Hk. apply K. by eapply analyze_channel_keeps.
      * etransitivity; [|exact P].
        destruct (cache w !! cache_key lower s) as [c0|] eqn:E.
        -- rewrite (analyze_channel_hit _ _ _ _ _ _ _ _ _ _ E) in E1. by simplify_eq.
        -- rewrite (analyze_channel_miss _ _ _ _ _ _ _ _ _ E) in E1.
           repeat (case_match; simplify_eq); simpl; by apply prefix_app_r.
Qed.

(** What [run_battle] does after the channel analyses changes the log of
    prompts only. *)
Lemma run_battle_unfold names w :
  battle' names w =
  match analyze_all' names w with
  | (Raise e, w1) => (Raise e, w1)
  | (Return channels, w1) =>
      match joinable channels with
      | Raise e => (Raise e, w1)
      | Return _ =>
          let w2 := World (cache w1) (calls w1 ++ [BattlePrompt channels]) in
          match generate_content (calls w1) (BattlePrompt channels) with
          | Raise e => (Raise e, w2)
          | Return response =>
              ((synthesis ← (text ← resp_text response; extract_json text);
                scores ← get_item K_scores synthesis;
                scores_df ← pd_DataFrame scores;
                battle_stats ← calculate_battle_statistics overall_statistics scores_df;
                verdict ← get_item K_verdict synthesis;
                Return (JObj [(K_channels, JArr channels);
                              (K_scores, scores);
                              (K_verdict, verdict);
                              (K_statistics, battle_stats)])), w2)
          end
      end
  end.
Proof.
  unfold run_battle. unfold mbind at 1 2 3, M_bind.
  destruct (analyze_all' names w) as [[channels|e] w1]; [|done].
  unfold lift at 1. destruct (joinable channels); [|done].
  unfold call_model. destruct (generate_content _ _); [|done].
  unfold lift. by destruct (_ ≫= _).
Qed.

(** X9. A battle never removes or replaces a cache entry and never drops
    a prompt from the log, whether it returns or raises: what the channel
    analyses stored before a failure stays stored. *)
Theorem battle_keeps_cache (names : list json) (w w' : world) (res : result json) :
  battle' names w = (res, w') ->
  (forall k v, cache w !! k = Some v -> cache w' !! k = Some v)
  /\ calls w `prefix_of` calls w'.
Proof.
  rewrite run_battle_unfold. intros H.
  destruct (analyze_all' names w) as [[channels|e] w1] eqn:Ea;
    destruct (analyze_all_spec _ _ _ _ Ea) as (K & P & _).
  2:{ by simplify_eq. }
  destruct (joinable channels); [|by simplify_eq].
  cbv zeta in H.
  assert (calls w `prefix_of` calls w1 ++ [BattlePrompt channels]) as P'.
  { etransitivity; [exact P|]. by apply prefix_app_r. }
  destruct (generate_content _ _); by simplify_eq.
Qed.

(** X10. The channel reports in a battle result are, name by name, the
    cache entries of these names when the battle ends: one report per
    name, each name a string, and a later [analyze_channel] of the name
    returns the same report without a prompt. *)
Theorem battle_reports_are_cached (names : list json) (w w' : world) (res : json) :
  battle' names w = (Return res, w') ->
  exists channels rest,
    res = JObj ((K_channels, JArr channels) :: rest)
    /\ Forall2 (fun n c => exists s, n = JStr s
                                     /\ cache w' !! cache_key lower s = Some c
                                     /\ analyze' s w' = (Return c, w'))
               names channels.
Proof.
  rewrite run_battle_unfold. intros H.
  destruct (analyze_all' names w) as [[channels|e] w1] eqn:Ea; [|discriminate].
  destruct (analyze_all_spec _ _ _ _ Ea) as (_ & _ & F).
  specialize (F channels eq_refl).
  destruct (joinable channels); [|discriminate]. cbv zeta in H.
  destruct (generate_content _ _) as [response|]; [|discriminate].
  injection H as H <-.
  destruct (text ← resp_text response; extract_json text) as [synthesis|]; [|discriminate].
  simpl in H.
  destruct (get_item K_scores synthesis) as [scores|]; [|discriminate]. simpl in H.
  destruct (pd_DataFrame scores) as [df|]; [|discriminate]. simpl in H.
  destruct (calculate_battle_statistics overall_statistics df) as [stats|]; [|discriminate].
  simpl in H.
  destruct (get_item K_verdict synthesis) as [verdict|]; [|discriminate]. simpl in H.
  injection H as <-. eexists _, _. split; [done|].
  eapply Forall2_impl; [exact F|]. intros n c (s & -> & Hc).
  exists s. split; [done|]. split; [done|]. by apply analyze_channel_hit.
Qed.

(** With every name in the cache the analyses ask nothing. *)
Lemma analyze_all_cached names : forall w,
  Forall (fun n => exists s, n = JStr s /\ is_Some (cache w !! cache_key lower s)) names ->
  exists cs, analyze_all' names w = (Return cs, w).
Proof.
  induction names as [|n names IH]; intros w H.
  - by exists [].
  - apply Forall_cons in H as [(s & -> & [c Hc]) H].
    destruct (IH w H) as [cs Hcs]. exists (c :: cs).
    simpl. unfold mbind, M_bind.
    rewrite (analyze_channel_hit _ _ _ _ _ _ _ _ _ _ Hc). by rewrite Hcs.
Qed.

(** X11. A battle between channels that are all in the cache leaves the
    cache as it was and sends at most one prompt, the battle prompt, which
    carries the cached reports. *)
Theorem battle_of_cached_channels (names : list json) (w w' : world) (res : result json) :
  Forall (fun n => exists s, n = JStr s /\ is_Some (cache w !! cache_key lower s)) names ->
  battle' names w = (res, w') ->
  cache w' = cache w
  /\ (calls w' = calls w
      \/ exists channels,
           calls w' = calls w ++ [BattlePrompt channels]
           /\ Forall2 (fun n c => exists s, n = JStr s
                                            /\ cache w !! cache_key lower s = Some c)
                      names channels).
Proof.
  intros Hc. rewrite run_battle_unfold.
  destruct (analyze_all_cached names w Hc) as [cs Hcs]. rewrite Hcs.
  destruct (analyze_all_spec _ _ _ _ Hcs) as (_ & _ & F). specialize (F cs eq_refl).
  destruct (joinable cs); [|intros [= <- <-]; by auto]. cbv zeta.
  destruct (generate_content _ _); intros [= <- <-]; simpl;
    (split; [done|]; right; by exists cs).
Qed.

End CacheFacts.

(** The theorem at a model that answers in prose. *)
Lemma failed_analysis_is_not_cached_witness :
  cache Examples.empty_world !! cache_key Examples.ascii_lower (py "MrBeast") = None
  /\ cache (MoreExamples.analyze_prose (py "MrBeast") Examples.empty_world).2
     = cache Examples.empty_world
  /\ calls (MoreExamples.analyze_prose (py "MrBeast") Examples.empty_world).2
     = calls Examples.empty_world ++ [ChannelPrompt (py "MrBeast")].
Proof.
  apply (failed_analysis_is_not_cached Examples.ascii_lower MoreExamples.prose_model
           stable_sort Examples.numeric_cell Examples.unreached_frame Examples.ols_fit
           Examples.unreached_json (py "MrBeast") Examples.empty_world _ ParseFailure).
  by vm_compute.
Defined.

(** The theorem at channel b, looking at the entry of channel a. *)
Lemma analysis_leaves_other_channels_witness :
  cache (Examples.analyze_example (py "b") MoreExamples.world_a).2
    !! cache_key Examples.ascii_lower (py "A")
  = cache MoreExamples.world_a !! cache_key Examples.ascii_lower (py "A").
Proof.
  apply (analysis_leaves_other_channels Examples.ascii_lower Examples.scripted_model
           stable_sort Examples.numeric_cell Examples.unreached_frame Examples.ols_fit
           Examples.unreached_json (py "b") (py "A") MoreExamples.world_a _
           (Examples.analyze_example (py "b") MoreExamples.world_a).1).
  - apply surjective_pairing.
  - by vm_compute.
Defined.

(** The theorem at a battle of a and b after a was analyzed. *)
Lemma battle_keeps_cache_witness :
  (forall k v, cache MoreExamples.world_a !! k = Some v ->
               cache MoreExamples.world_ab !! k = Some v)
  /\ calls MoreExamples.world_a `prefix_of` calls MoreExamples.world_ab.
Proof.
  apply (battle_keeps_cache Examples.ascii_lower Examples.scripted_model
           stable_sort Examples.numeric_cell Examples.unreached_frame Examples.ols_fit
           Examples.unreached_json Examples.unreached_rows Examples.rows_of_list
           Examples.two_names MoreExamples.world_a MoreExamples.world_ab
           (Examples.battle_example Examples.two_names MoreExamples.world_a).1).
  apply surjective_pairing.
Defined.

(** The theorem at the same battle. *)
Lemma battle_reports_are_cached_witness :
  exists channels rest,
    (Examples.battle_example Examples.two_names MoreExamples.world_a).1
    = Return (JObj ((K_channels, JArr channels) :: rest))
    /\ Forall2 (fun n c => exists s, n = JStr s
                  /\ cache MoreExamples.world_ab !! cache_key Examples.ascii_lower s = Some c
                  /\ Examples.analyze_example s MoreExamples.world_ab
                     = (Return c, MoreExamples.world_ab))
               Examples.two_names channels.
Proof.
  destruct (Examples.battle_example Examples.two_names MoreExamples.world_a)
    as [[res|e] w'] eqn:E; [|by vm_compute in E].
  destruct (battle_reports_are_cached Examples.ascii_lower Examples.scripted_model
              stable_sort Examples.numeric_cell Examples.unreached_frame Examples.ols_fit
              Examples.unreached_json Examples.unreached_rows Examples.rows_of_list
              Examples.two_names MoreExamples.world_a w' res E)
    as (channels & rest & -> & F).
  exists channels, rest. split; [done|].
  unfold MoreExamples.world_ab. by rewrite E.
Defined.

(** The theorem at a second battle of a and b. *)
Lemma battle_of_cached_channels_witness :
  let r := Examples.battle_example Examples.two_names MoreExamples.world_ab in
  cache r.2 = cache MoreExamples.world_ab
  /\ (calls r.2 = calls MoreExamples.world_ab
      \/ exists channels,
           calls r.2 = calls MoreExamples.world_ab ++ [BattlePrompt channels]
           /\ Forall2 (fun n c => exists s, n = JStr s
                         /\ cache MoreExamples.world_ab !! cache_key Examples.ascii_lower s
                            = Some c)
                      Examples.two_names channels).
Proof.
  apply (battle_of_cached_channels Examples.ascii_lower Examples.scripted_model
           stable_sort Examples.numeric_cell Examples.unreached_frame Examples.ols_fit
           Examples.unreached_json Examples.unreached_rows Examples.rows_of_list
           Examples.two_names MoreExamples.world_ab _
           (Examples.battle_example Examples.two_names MoreExamples.world_ab).1).
  - unfold Examples.two_names.
    repeat (apply Forall_cons; split;
            [eexists; split; [reflexivity|vm_compute; by eexists]|]).
    by apply Forall_nil.
  - apply surjective_pairing.
Defined.

(** ** The routes of [app.py] *)

Section RouteFacts.

Variable lower : str -> str.
Variable generate_content : list prompt -> prompt -> result response.
Variable requests_get : str -> result (bool * result json).
Variable sort_values : sorter.
Variable to_numeric : json -> float.
Variable frame_of_other : json -> result frame.
Variable polyfit : list float -> list float -> result (float * float).
Variable normalize_topic_distribution : json -> result json.
Variable overall_statistics : list json -> result json.
Variable pd_DataFrame : json -> result (list json).
Variable calculate_confidence_interval : json -> result json.
Variable jsonify : json -> result json.

Abbreviation channel_route :=
  (api_analyze_channel lower generate_content sort_values to_numeric frame_of_other polyfit
     normalize_topic_distribution jsonify).
Abbreviation truth_route :=
  (api_analyze_truth lower generate_content requests_get calculate_confidence_interval jsonify).
Abbreviation battle_route :=
  (api_run_battle lower generate_content sort_values to_numeric frame_of_other polyfit
     normalize_topic_distribution overall_statistics pd_DataFrame jsonify).

(** X12. The channel route repeats itself: once a request for a channel
    was answered with a report, a request for a name with the same
    lower-cased form is answered with the same report, and the state, with
    its log of prompts, stays as the first request left it. *)
Theorem channel_route_repeats (d d' : dict) (name name' : str) (w w1 : world) (r : json) :
  dict_get K_channelName d = Some (JStr name) ->
  dict_get K_channelName d' = Some (JStr name') ->
  name' <> [] ->
  lower name' = lower name ->
  channel_route (JObj d) w = (Ok200 r, w1) ->
  channel_route (JObj d') w1 = (Ok200 r, w1).
Proof.
  intros Hd Hd' Hne Hl. unfold api_analyze_channel. rewrite Hd, Hd'. simpl default.
  destruct name' as [|c' name']; [done|].
  destruct name as [|c name]; [discriminate|]. simpl negb. cbv iota.
  unfold answer, on_string. intros H.
  destruct (analyze_channel _ _ _ _ _ _ _ (c :: name) w) as [[r0|e] w0] eqn:E; [|discriminate].
  destruct (jsonify r0) as [body|e] eqn:J; [|discriminate].
  injection H as -> ->.
  apply analyze_channel_stores in E.
  rewrite (analyze_channel_hit _ _ _ _ _ _ _ (c' :: name') w1 r0); [by rewrite J|].
  unfold cache_key in *. by rewrite Hl.
Qed.

(** X13. The truth route has no 400 answer for a link it cannot use: a
    request whose input is a non-empty string and that is answered without
    a prompt to the model is answered with status 500, carrying one of the
    three validation errors of [analyze_video_truth], and the state is as
    it was. *)
Theorem truth_route_refusals_are_500
    (d : dict) (video_input : str) (w w' : world) (resp : http_response) :
  dict_get K_videoInput d = Some (JStr video_input) ->
  video_input <> [] ->
  truth_route (JObj d) w = (resp, w') ->
  calls w' = calls w ->
  w' = w
  /\ (resp = Error500 InvalidUrl \/ resp = Error500 NoVideoId \/ resp = Error500 NoMetadata).
Proof.
  intros Hd Hne. unfold api_analyze_truth. rewrite Hd. simpl default.
  destruct video_input as [|c s]; [done|]. simpl negb. cbv iota.
  unfold answer, on_string. intros H Hc.
  destruct (analyze_video_truth _ _ _ _ (c :: s) w) as [res w0] eqn:E.
  assert (w0 = w') as -> by (destruct res as [r0|e]; [destruct (jsonify r0)|]; by simplify_eq).
  apply analyze_video_truth_cases in E as [_ Hcases].
  destruct Hcases as [[Hw Hr]|(id & md & _ & _ & Hcalls)].
  - subst w'. split; [done|]. destruct Hr as [-> | [-> | ->] ]; simplify_eq; by auto.
  - rewrite Hc in Hcalls. apply (f_equal length) in Hcalls.
    rewrite length_app in Hcalls. simpl in Hcalls. lia.
Qed.

(** The names the battle route passes on: the string itself, or the
    channelName of an object. *)
Lemma names_of_mixed channels : forall names : list str,
  Forall2 (fun ch n => ch = JStr n
                       \/ exists m, ch = JObj m /\ dict_get K_channelName m = Some (JStr n))
          channels names ->
  names_of channels = Return (map JStr names).
Proof.
  induction channels as [|ch channels IH]; intros names H.
  - apply Forall2_nil_inv_l in H as ->. done.
  - apply Forall2_cons_inv_l in H as (n & names' & Hch & H & ->).
    simpl. rewrite (IH _ H).
    destruct Hch as [->|(m & -> & Hm)]; [done|].
    simpl. by rewrite Hm.
Qed.

(** The battle route on a request whose channels value is a list. *)
Lemma battle_route_on_list d l w :
  dict_get K_channels d = Some (JArr l) ->
  battle_route (JObj d) w =
  match l with
  | [] => (Error400 (py "Channels array is required"), w)
  | _ =>
      if (length l <? 2)%nat || (5 <? length l)%nat
      then (Error400 (py "Please provide 2-5 channels"), w)
      else
        match names_of l with
        | Raise e => (Error500 e, w)
        | Return channel_names =>
            match run_battle lower generate_content sort_values to_numeric frame_of_other polyfit
                    normalize_topic_distribution overall_statistics pd_DataFrame
                    channel_names w with
            | (Return result, w') =>
                match jsonify result with
                | Return body => (Ok200 body, w')
                | Raise e => (Error500 e, w')
                end
            | (Raise e, w') => (Error500 e, w')
            end
        end
  end.
Proof. intros Hd. unfold api_run_battle. rewrite Hd. by destruct l. Qed.

(** X14. The battle route takes a channel as its name or as an object
    with a channelName: a request that gives some or all channels as
    objects is answered exactly as the request that gives the same names
    as strings, and changes the state in the same way. *)
Theorem battle_route_accepts_objects
    (d d' : dict) (channels : list json) (names : list str) (w : world) :
  dict_get K_channels d = Some (JArr channels) ->
  dict_get K_channels d' = Some (JArr (map JStr names)) ->
  Forall2 (fun ch n => ch = JStr n
                       \/ exists m, ch = JObj m /\ dict_get K_channelName m = Some (JStr n))
          channels names ->
  battle_route (JObj d) w = battle_route (JObj d') w.
Proof.
  intros Hd Hd' F.
  rewrite (battle_route_on_list _ _ _ Hd), (battle_route_on_list _ _ _ Hd').
  pose proof (Forall2_length _ _ _ F) as Hlen.
  rewrite (names_of_mixed _ _ F).
  assert (names_of (map JStr names) = Return (map JStr names)) as ->.
  { apply names_of_mixed. clear. induction names; constructor; by auto. }
  rewrite length_map, <-Hlen.
  destruct channels, names; try discriminate; done.
Qed.

End RouteFacts.

(** The theorem at two requests, MrBeast first, MRBEAST second. *)
Lemma channel_route_repeats_witness :
  let first := MoreExamples.channel_route_example (MoreExamples.channel_request (py "MrBeast"))
                 Examples.empty_world in
  MoreExamples.channel_route_example (MoreExamples.channel_request (py "MRBEAST")) first.2
  = (Ok200 Examples.channel_report_a, first.2).
Proof.
  apply (channel_route_repeats Examples.ascii_lower Examples.scripted_model
           stable_sort Examples.numeric_cell Examples.unreached_frame Examples.ols_fit
           Examples.unreached_json Examples.plain_jsonify
           [(K_channelName, JStr (py "MrBeast"))] [(K_channelName, JStr (py "MRBEAST"))]
           (py "MrBeast") (py "MRBEAST") Examples.empty_world).
  - reflexivity.
  - reflexivity.
  - discriminate.
  - by vm_compute.
  - by vm_compute.
Defined.

(** The theorem at a link to another site. *)
Lemma truth_route_refusals_are_500_witness :
  let r := MoreExamples.truth_route_example
             (MoreExamples.truth_request (py "https://vimeo.com/1")) Examples.empty_world in
  r.2 = Examples.empty_world
  /\ (r.1 = Error500 InvalidUrl \/ r.1 = Error500 NoVideoId \/ r.1 = Error500 NoMetadata).
Proof.
  apply (truth_route_refusals_are_500 Examples.ascii_lower Examples.scripted_model
           Examples.scripted_oembed Examples.unreached_json Examples.plain_jsonify
           [(K_videoInput, JStr (py "https://vimeo.com/1"))] (py "https://vimeo.com/1")
           Examples.empty_world).
  - reflexivity.
  - discriminate.
  - apply surjective_pairing.
  - by vm_compute.
Defined.

(** The theorem at a request with one channel given as an object. *)
Lemma battle_route_accepts_objects_witness :
  Examples.route_example
    (MoreExamples.battle_request
       [JObj [(K_channelName, JStr (py "a")); (py "stats", JObj [])]; JStr (py "b")])
    Examples.empty_world
  = Examples.route_example (MoreExamples.battle_request Examples.two_names)
      Examples.empty_world.
Proof.
  apply (battle_route_accepts_objects Examples.ascii_lower Examples.scripted_model
           stable_sort Examples.numeric_cell Examples.unreached_frame Examples.ols_fit
           Examples.unreached_json Examples.unreached_rows Examples.rows_of_list
           Examples.plain_jsonify
           [(K_channels,
             JArr [JObj [(K_channelName, JStr (py "a")); (py "stats", JObj [])]; JStr (py "b")])]
           [(K_channels, JArr Examples.two_names)]
           [JObj [(K_channelName, JStr (py "a")); (py "stats", JObj [])]; JStr (py "b")]
           [py "a"; py "b"] Examples.empty_world).
  - reflexivity.
  - reflexivity.
  - constructor.
    + right. eexists. split; reflexivity.
    + constructor; [by left|constructor].
Defined.

(** ** More on [validate_channel_data] and the growth frame *)

Section ValidateMore.
Import DictFacts FrameFacts.

Variable sort_values : sorter.
Variable to_numeric : json -> float.
Variable frame_of_other : json -> result frame.
Variable polyfit : list float -> list float -> result (float * float).
Variable normalize_topic_distribution : json -> result json.

Abbreviation validate' :=
  (validate_channel_data sort_values to_numeric frame_of_other polyfit normalize_topic_distribution).

(** The growth step writes the growth statistics and the trend prediction
    only. *)
Lemma attach_growth_keeps d m k :
  attach_growth sort_values to_numeric frame_of_other polyfit d = Return m ->
  k <> K_growthStatistics -> k <> K_trendPrediction ->
  dict_get k m = dict_get k d.
Proof.
  unfold attach_growth. intros H Hg Ht.
  destruct (dict_get K_growthTimeline d) as [tl|]; [|by simplify_eq].
  destruct (create_growth_dataframe _ _ _ tl) as [df|]; simpl in H; [|done].
  destruct (calculate_growth_rate df) as [g|]; simpl in H; [|done].
  destruct (calculate_trend_prediction polyfit df 1) as [t|]; simpl in H; [|done].
  destruct (prediction_available t); simplify_eq; by rewrite ?dict_get_set_ne by done.
Qed.

(** X15. Validation writes three fields and no other: in a report it
    returns, every key other than growthStatistics, trendPrediction and
    topicAnalysis holds what the incoming object held under it (and is
    absent when it was absent there); in particular the channel name, the
    stats and the timeline itself come back as the model sent them. *)
Theorem validation_keeps_other_fields (cd m : dict) (k : str) :
  validate' (JObj cd) = Return (JObj m) ->
  k <> K_growthStatistics -> k <> K_trendPrediction -> k <> K_topicAnalysis ->
  dict_get k m = dict_get k cd.
Proof.
  intros Hv Hg Ht Ha. unfold validate_channel_data in Hv.
  destruct (check_required required_fields (JObj cd)); simpl in Hv; [|done].
  destruct (attach_growth _ _ _ _ cd) as [m1|] eqn:Eg; simpl in Hv; [|done].
  destruct (attach_topics _ m1) as [m2|] eqn:Et; simpl in Hv; [|done].
  injection Hv as ->.
  rewrite (attach_topics_keeps _ _ _ _ Et) by done.
  by apply attach_growth_keeps.
Qed.

(** What the frame builder returns for a list of dicts. *)
Lemma create_growth_dataframe_list_spec (tl : list dict) (df : frame) :
  create_growth_dataframe_list sort_values to_numeric tl = Return df ->
  Sorted (fun a b => (order_key (year a) <= order_key (year b))%Z) df
  /\ Forall (fun r => PrimFloat.is_nan (year r) = false
                      /\ PrimFloat.is_nan (subscribers r) = false
                      /\ PrimFloat.is_nan (videos r) = false) df
  /\ df ≡ₚ clean_rows to_numeric tl
  /\ (forall r, r ∈ df -> exists e, e ∈ tl /\ r = row_of to_numeric e)
  /\ (length df <= length tl)%nat.
Proof.
  unfold create_growth_dataframe_list. intros H.
  assert (Forall (fun r => PrimFloat.is_nan (year r) = false
                           /\ PrimFloat.is_nan (subscribers r) = false
                           /\ PrimFloat.is_nan (videos r) = false)
                 (clean_rows to_numeric tl)) as Hclean.
  { unfold clean_rows. apply Forall_forall. intros r Hr.
    apply list_elem_of_In, in_map_iff in Hr as (e & <- & He).
    apply list_elem_of_In, list_elem_of_filter in He as [Hc _].
    unfold complete in Hc. repeat (apply andb_prop in Hc as [Hc ?]).
    simpl. by repeat split; apply negb_true_iff. }
  assert (forall r, r ∈ clean_rows to_numeric tl -> exists e, e ∈ tl /\ r = row_of to_numeric e)
    as Hrows.
  { unfold clean_rows. intros r Hr.
    apply list_elem_of_In, in_map_iff in Hr as (e & <- & He).
    apply list_elem_of_In, list_elem_of_filter in He as [_ He]. by exists e. }
  assert (length (clean_rows to_numeric tl) <= length tl)%nat as Hlen.
  { unfold clean_rows. rewrite length_map. apply length_filter. }
  destruct tl as [|e tl'].
  { injection H as <-. repeat split; try done; constructor. }
  repeat (case_match; simplify_eq).
  pose proof (sort_rows_perm sort_values (clean_rows to_numeric (e :: tl'))) as Hp.
  split; [apply sort_rows_sorted|].
  split; [by rewrite Hp|]. split; [done|].
  split; [intros r Hr; apply Hrows; by rewrite <-Hp|].
  by rewrite Hp.
Qed.

(** X16. The frame [create_growth_dataframe] builds from a list of dicts
    is ordered by year, holds no NaN in any of its three columns, and
    consists of rows of the input: its rows are, up to their order, the rows
    of the entries that pass the cleaning, so it is never longer than the
    timeline. *)
Theorem growth_frame_is_clean_and_sorted (tl : list dict) (df : frame) :
  create_growth_dataframe_list sort_values to_numeric tl = Return df ->
  Sorted (fun a b => (order_key (year a) <= order_key (year b))%Z) df
  /\ Forall (fun r => PrimFloat.is_nan (year r) = false
                      /\ PrimFloat.is_nan (subscribers r) = false
                      /\ PrimFloat.is_nan (videos r) = false) df
  /\ df ≡ₚ clean_rows to_numeric tl
  /\ (forall r, r ∈ df -> exists e, e ∈ tl /\ r = row_of to_numeric e)
  /\ (length df <= length tl)%nat.
Proof. apply create_growth_dataframe_list_spec. Qed.

(** X17. The cleaning drops whole rows on any missing cell, not only on
    the three numeric ones: when some entry of the timeline carries a
    further key, every entry that has no value under that key (the key is
    absent, or holds null or NaN) is left out of the frame. *)
Theorem entry_without_foreign_column_is_dropped
    (tl : list dict) (e : dict) (c : str) (df : frame) :
  e ∈ tl ->
  c ∈ columns tl ->
  numeric_column c = false ->
  is_na (dict_get c e) = true ->
  create_growth_dataframe_list sort_values to_numeric tl = Return df ->
  complete to_numeric (columns tl) e = false
  /\ (length df < length tl)%nat.
Proof.
  intros He Hc Hn Hna H.
  assert (complete to_numeric (columns tl) e = false) as Hce.
  { unfold complete. apply andb_false_iff. right.
    apply not_true_iff_false. intros Hall. rewrite forallb_forall in Hall.
    specialize (Hall c (proj1 (list_elem_of_In _ _) Hc)).
    by rewrite Hn, Hna in Hall. }
  split; [done|].
  destruct (create_growth_dataframe_list_spec tl df H) as (_ & _ & Hp & _).
  rewrite Hp. unfold clean_rows. rewrite length_map.
  apply (length_filter_lt _ _ e); [done|]. by rewrite Hce.
Qed.

(** X18. The statistics look at the counts in row order and never at the
    years: two frames with the same subscribers and videos columns get the
    same growth statistics and the same trend prediction, however many
    years lie between their rows. *)
Theorem statistics_ignore_year_values (df df' : frame) (periods : nat) :
  map subscribers df = map subscribers df' ->
  map videos df = map videos df' ->
  calculate_growth_rate df = calculate_growth_rate df'
  /\ calculate_trend_prediction polyfit df periods
     = calculate_trend_prediction polyfit df' periods.
Proof.
  intros Hs Hv.
  assert (length df = length df') as Hl.
  { rewrite <-(length_map subscribers df), Hs. apply length_map. }
  unfold calculate_growth_rate, calculate_trend_prediction.
  by rewrite Hs, Hv, Hl.
Qed.

End ValidateMore.

(** The theorem at a channel object with a note of its own. *)
Lemma validation_keeps_other_fields_witness :
  dict_get (py "note")
    (MoreExamples.fields_of
       (MoreExamples.value_of (Examples.validate_example (JObj MoreExamples.noted_channel))))
  = dict_get (py "note") MoreExamples.noted_channel.
Proof.
  apply (validation_keeps_other_fields stable_sort Examples.numeric_cell Examples.unreached_frame
           Examples.ols_fit Examples.unreached_json MoreExamples.noted_channel).
  - by vm_compute.
  - discriminate.
  - discriminate.
  - discriminate.
Defined.

(** The theorem at a timeline out of order with one incomplete entry. *)
Lemma growth_frame_is_clean_and_sorted_witness :
  let df := [Row 2020 1000 10; Row 2022 1210 14] in
  Sorted (fun a b => (order_key (year a) <= order_key (year b))%Z) df
  /\ Forall (fun r => PrimFloat.is_nan (year r) = false
                      /\ PrimFloat.is_nan (subscribers r) = false
                      /\ PrimFloat.is_nan (videos r) = false) df
  /\ df ≡ₚ clean_rows Examples.numeric_cell MoreExamples.ragged_timeline
  /\ (forall r, r ∈ df ->
        exists e, e ∈ MoreExamples.ragged_timeline /\ r = row_of Examples.numeric_cell e)
  /\ (length df <= length MoreExamples.ragged_timeline)%nat.
Proof.
  apply (growth_frame_is_clean_and_sorted stable_sort Examples.numeric_cell MoreExamples.ragged_timeline).
  by vm_compute.
Defined.

(** The theorem at a timeline whose first entry alone has a note. *)
Lemma entry_without_foreign_column_is_dropped_witness :
  complete Examples.numeric_cell (columns MoreExamples.annotated_timeline)
    (Examples.entry 2021 1100 12) = false
  /\ (length [Row 2020 1000 10] < length MoreExamples.annotated_timeline)%nat.
Proof.
  apply (entry_without_foreign_column_is_dropped stable_sort Examples.numeric_cell
           MoreExamples.annotated_timeline (Examples.entry 2021 1100 12) (py "note")).
  - unfold MoreExamples.annotated_timeline. right. left.
  - compute_done.
  - reflexivity.
  - reflexivity.
  - by vm_compute.
Defined.

(** The theorem at the timeline of the specification and its spaced variant. *)
Lemma statistics_ignore_year_values_witness :
  calculate_growth_rate Examples.spec_timeline
  = calculate_growth_rate MoreExamples.spaced_timeline
  /\ calculate_trend_prediction Examples.ols_fit Examples.spec_timeline 1
     = calculate_trend_prediction Examples.ols_fit MoreExamples.spaced_timeline 1.
Proof.
  apply (statistics_ignore_year_values Examples.ols_fit); reflexivity.
Defined.

(** ** [calculate_confidence_interval] *)

Module ConfidenceFacts.
Import DictFacts.

Lemma zrange_elem a n z : (a <= z < a + Z.of_nat n)%Z -> In z (zrange a n).
Proof.
  intros H. unfold zrange. apply in_map_iff. exists (Z.to_nat (z - a)). split; [lia|].
  apply in_seq. lia.
Qed.

Lemma brackets_inv z most r :
  brackets z most r = true ->
  exists lo hi me,
    r = Done (JObj [(K_score, JInt z); (K_lower_bound, lo); (K_upper_bound, hi);
                    (K_margin_of_error, JFloat me)])
    /\ (0 <=? number lo)%float = true
    /\ (number lo <=? Z2F z)%float = true
    /\ (Z2F z <=? number hi)%float = true
    /\ (number hi <=? 100)%float = true
    /\ (0 <=? me)%float = true
    /\ (me <=? most)%float = true.
Proof.
  unfold brackets. intros H. repeat (case_match; try discriminate). subst.
  repeat (apply andb_prop in H as [H ?]).
  repeat match goal with E : str_eqb _ _ = true |- _ => apply str_eqb_eq in E; subst end.
  match goal with E : (_ =? _)%Z = true |- _ => apply Z.eqb_eq in E; subst end.
  by eexists _, _, _.
Qed.

Lemma whole_scale_inv z r :
  whole_scale z r = true ->
  exists me,
    r = Done (JObj [(K_score, JInt z); (K_lower_bound, JInt 0); (K_upper_bound, JInt 100);
                    (K_margin_of_error, JFloat me)])
    /\ PrimFloat.is_nan me = true.
Proof.
  unfold whole_scale. intros H. repeat (case_match; try discriminate). subst.
  repeat (apply andb_prop in H as [H ?]).
  repeat match goal with E : str_eqb _ _ = true |- _ => apply str_eqb_eq in E; subst end.
  repeat match goal with E : (_ =? _)%Z = true |- _ => apply Z.eqb_eq in E; subst end.
  by eexists.
Qed.

(** The call with the default sample size never divides by zero. *)
Lemma default_call_divides score :
  calculate_confidence_interval score 100 0.95 <> Fails ZeroDivisionError.
Proof.
  unfold calculate_confidence_interval.
  destruct (as_float score) as [s|e] eqn:E; simpl.
  - discriminate.
  - intros [= ->]. destruct score as [|[]|z|f| | |]; simpl in E; try discriminate.
    unfold float_of_int in E. by destruct (PrimFloat.is_infinity (Z2F z)).
Qed.

End ConfidenceFacts.

(** X19. For every integer score on the scale from 0 to 100, with the
    default sample size and confidence, the function returns the score
    itself, a lower bound between 0 and the score, an upper bound between
    the score and 100, and a margin of error between 0 and 9.8 (its value
    at 50). *)
Theorem confidence_interval_brackets_score (z : Z) :
  (0 <= z <= 100)%Z ->
  exists lo hi me,
    calculate_confidence_interval (JInt z) 100 0.95
    = Done (JObj [(K_score, JInt z); (K_lower_bound, lo); (K_upper_bound, hi);
                  (K_margin_of_error, JFloat me)])
    /\ (0 <=? number lo)%float = true
    /\ (number lo <=? Z2F z)%float = true
    /\ (Z2F z <=? number hi)%float = true
    /\ (number hi <=? 100)%float = true
    /\ (0 <=? me)%float = true
    /\ (me <=? 9.8)%float = true.
Proof.
  intros Hz. apply ConfidenceFacts.brackets_inv.
  assert (forallb (fun z => brackets z 9.8 (calculate_confidence_interval (JInt z) 100 0.95))
                  (zrange 0 101) = true) as Hall by (by vm_compute).
  rewrite forallb_forall in Hall. apply Hall, ConfidenceFacts.zrange_elem. lia.
Qed.

(** The theorem at the score 85. *)
Lemma confidence_interval_brackets_score_witness :
  exists lo hi me,
    calculate_confidence_interval (JInt 85) 100 0.95
    = Done (JObj [(K_score, JInt 85); (K_lower_bound, lo); (K_upper_bound, hi);
                  (K_margin_of_error, JFloat me)])
    /\ (0 <=? number lo)%float = true
    /\ (number lo <=? Z2F 85)%float = true
    /\ (Z2F 85 <=? number hi)%float = true
    /\ (number hi <=? 100)%float = true
    /\ (0 <=? me)%float = true
    /\ (me <=? 9.8)%float = true.
Proof. apply (confidence_interval_brackets_score 85). lia. Defined.

(** X20. An integer score off the scale (checked from -1000 to 1000) is
    not refused: the function returns it with the bounds 0 and 100 and a
    margin of error that is NaN. *)
Theorem confidence_interval_off_scale (z : Z) :
  (-1000 <= z < 0 \/ 100 < z <= 1000)%Z ->
  exists me,
    calculate_confidence_interval (JInt z) 100 0.95
    = Done (JObj [(K_score, JInt z); (K_lower_bound, JInt 0); (K_upper_bound, JInt 100);
                  (K_margin_of_error, JFloat me)])
    /\ PrimFloat.is_nan me = true.
Proof.
  intros Hz. apply ConfidenceFacts.whole_scale_inv.
  assert (forallb (fun z => whole_scale z (calculate_confidence_interval (JInt z) 100 0.95))
                  (zrange (-1000) 1000 ++ zrange 101 900) = true) as Hall by (by vm_compute).
  rewrite forallb_forall in Hall. apply Hall. apply in_or_app.
  destruct Hz; [left|right]; apply ConfidenceFacts.zrange_elem; lia.
Qed.

(** The theorem at the score 150. *)
Lemma confidence_interval_off_scale_witness :
  exists me,
    calculate_confidence_interval (JInt 150) 100 0.95
    = Done (JObj [(K_score, JInt 150); (K_lower_bound, JInt 0); (K_upper_bound, JInt 100);
                  (K_margin_of_error, JFloat me)])
    /\ PrimFloat.is_nan me = true.
Proof. apply (confidence_interval_off_scale 150). lia. Defined.

Section TruthScore.
Import DictFacts.

Variable lower : str -> str.
Variable generate_content : list prompt -> prompt -> result response.
Variable requests_get : str -> result (bool * result json).

(** X21. A truth score that is not a number stops the analysis: when the
    model's answer holds a string, null, a list or an object under
    truthScore, the confidence interval raises a [TypeError], which
    [analyze_video_truth] lets through after the prompt was sent; no report
    is returned. *)
Theorem truth_analysis_needs_numeric_score
    (video_input video_id text : str) (md : metadata) (response : response)
    (analysis : dict) (score : json) (w : world) :
  contains (py "youtube.com/") (lower video_input)
    || contains (py "youtu.be/") (lower video_input) = true ->
  extract_video_id video_input = Some video_id ->
  fetch_video_metadata requests_get video_input = Some md ->
  generate_content (calls w) (TruthPrompt video_input video_id (title md) (author md))
    = Return response ->
  resp_text response = Return text ->
  extract_json text = Return (JObj analysis) ->
  dict_get K_truthScore analysis = Some score ->
  is_number score = false ->
  analyze_video_truth lower generate_content requests_get confidence_of_score video_input w
  = (Raise TypeError,
     World (cache w) (calls w ++ [TruthPrompt video_input video_id (title md) (author md)])).
Proof.
  intros Hu Hid Hmd Hg Ht Hj Hs Hn. unfold analyze_video_truth.
  rewrite Hu, Hid, Hmd. change (negb true) with false. cbv iota.
  unfold mbind at 1, M_bind, call_model. cbv beta. rewrite Hg. unfold lift.
  rewrite Ht. simpl. rewrite Hj. simpl.
  rewrite !dict_get_set_ne by done. rewrite Hs. simpl.
  assert (confidence_of_score score = Raise TypeError) as ->; [|done].
  unfold confidence_of_score, calculate_confidence_interval.
  by destruct score.
Qed.

End TruthScore.

(** The theorem at a model that sends the score as a string. *)
Lemma truth_analysis_needs_numeric_score_witness :
  analyze_video_truth Examples.ascii_lower MoreExamples.quoted_score_model
    Examples.scripted_oembed confidence_of_score Examples.example_url Examples.empty_world
  = (Raise TypeError,
     World ∅ [TruthPrompt Examples.example_url (py "dQw4w9WgXcQ")
                (JStr (py "Real title")) (JStr (py "Real author"))]).
Proof.
  apply (truth_analysis_needs_numeric_score Examples.ascii_lower
           MoreExamples.quoted_score_model Examples.scripted_oembed
           Examples.example_url (py "dQw4w9WgXcQ")
           (py "{'truthScore': '85', 'claims': []}")
           (Metadata (JStr (py "Real title")) (JStr (py "Real author")))
           (Response (Return (py "{'truthScore': '85', 'claims': []}")) [])
           [(K_truthScore, JStr (py "85")); (py "claims", JArr [])]
           (JStr (py "85")) Examples.empty_world); by vm_compute.
Defined.

(** ** More on [extract_json] *)

Module SalvageFacts.
Import RegexFacts TextFacts.

Lemma lstrip_spaces ws s : forallb isspace ws = true -> lstrip (ws ++ s) = lstrip s.
Proof.
  induction ws as [|c ws IH]; [done|]. simpl. intros [Hc H]%andb_prop. rewrite Hc. by apply IH.
Qed.

Lemma lstrip_all_spaces ws : forallb isspace ws = true -> lstrip ws = [].
Proof. intros H. rewrite <-(app_nil_r ws). by rewrite lstrip_spaces. Qed.

Lemma forallb_rev {A} (f : A -> bool) l : forallb f (rev l) = forallb f l.
Proof.
  induction l as [|x l IH]; [done|]. simpl. rewrite forallb_app, IH. simpl.
  rewrite andb_true_r. apply andb_comm.
Qed.

(** [lstrip] either empties a text of whitespace or stops inside it. *)
Lemma lstrip_app t s :
  lstrip (t ++ s) = if forallb isspace t then lstrip s else lstrip t ++ s.
Proof.
  induction t as [|c t IH]; [done|]. simpl. destruct (isspace c); [exact IH|done].
Qed.

Lemma strip_spaces_around ws t ws' :
  forallb isspace ws = true -> forallb isspace ws' = true ->
  strip (ws ++ t ++ ws') = strip t.
Proof.
  intros H1 H2. unfold strip. rewrite lstrip_spaces by done. rewrite lstrip_app.
  destruct (forallb isspace t) eqn:Et.
  - by rewrite (lstrip_all_spaces ws'), (lstrip_all_spaces t).
  - unfold rstrip. rewrite rev_app_distr. rewrite lstrip_spaces; [done|].
    by rewrite forallb_rev.
Qed.

(** Without a backtick in the text no fence pattern matches. *)
Lemma no_backtick_no_fence s :
  96 ∉ s -> try_patterns patterns s = None.
Proof.
  intros Hn.
  assert (forall p, p ∈ patterns -> re_search [p] s = None) as Hp.
  { intros p Hp. destruct (re_search [p] s) as [g|] eqn:E; [|done].
    exfalso. apply Hn. apply SpanFacts.re_search_required in E.
    eapply elem_of_sublist; [|exact E].
    unfold patterns in Hp. apply elem_of_cons in Hp as [->|Hp].
    - compute_done.
    - apply list_elem_of_singleton in Hp as ->. compute_done. }
  unfold patterns, try_patterns.
  rewrite !Hp; [done|right; left|left].
Qed.

Lemma find_after pre c s : c ∉ pre -> find [c] (pre ++ c :: s) = Some (length pre).
Proof.
  induction pre as [|x pre IH]; intros Hn; simpl.
  - by rewrite N.eqb_refl.
  - assert ((c =? x) = false) as -> by (apply N.eqb_neq; intros ->; apply Hn; left).
    simpl. rewrite IH; [done|]. intros H. apply Hn. by right.
Qed.

Lemma rfind_none c s : c ∉ s -> rfind [c] s = None.
Proof.
  induction s as [|x s IH]; intros Hn; [done|]. simpl.
  rewrite IH by (intros H; apply Hn; by right).
  assert ((c =? x) = false) as -> by (apply N.eqb_neq; intros ->; apply Hn; left). done.
Qed.

Lemma rfind_before s c post : c ∉ post -> rfind [c] (s ++ c :: post) = Some (length s).
Proof.
  intros Hn. induction s as [|x s IH]; simpl.
  - rewrite rfind_none by done. by rewrite N.eqb_refl.
  - by rewrite IH.
Qed.

Lemma slice_middle (pre body post : str) :
  slice (pre ++ body ++ post) (length pre) (length pre + length body) = body.
Proof.
  unfold slice. rewrite drop_app_length.
  replace (length pre + length body - length pre)%nat with (length body) by lia.
  by rewrite take_app_length.
Qed.

(** The last strategy on prose around one object. *)
Lemma brace_span_prose pre inner post :
  123 ∉ pre -> 125 ∉ post ->
  brace_span (pre ++ (123 :: inner ++ [125]) ++ post) = json_loads (123 :: inner ++ [125]).
Proof.
  intros H1 H2. unfold brace_span.
  assert (find [123] (pre ++ (123 :: inner ++ [125]) ++ post) = Some (length pre)) as ->.
  { by apply (find_after pre 123 ((inner ++ [125]) ++ post)). }
  assert (rfind [125] (pre ++ (123 :: inner ++ [125]) ++ post)
          = Some (length pre + S (length inner))%nat) as ->.
  { replace (pre ++ (123 :: inner ++ [125]) ++ post)
      with ((pre ++ 123 :: inner) ++ 125 :: post).
    - rewrite rfind_before by done. rewrite length_app. done.
    - rewrite <-!app_assoc. simpl. by rewrite <-app_assoc. }
  assert ((length pre <? length pre + S (length inner))%nat = true) as ->
    by (apply Nat.ltb_lt; lia).
  replace (length pre + S (length inner) + 1)%nat
    with (length pre + length ((123 :: inner ++ [125])%N))%nat
    by (simpl; rewrite length_app; simpl; lia).
  by rewrite slice_middle.
Qed.

(** What the decoder makes of a text that starts with an opening brace is
    an object. *)
Lemma scan_members_object fuel : forall s acc v r,
  scan_members fuel s acc = POk v r -> exists m, v = JObj m.
Proof.
  induction fuel as [|fuel IH]; intros s acc v r H; [discriminate|].
  simpl in H. repeat (case_match; try discriminate).
  - injection H as <- _. by eexists.
  - by eapply IH.
Qed.

Lemma json_loads_brace s v : json_loads (123 :: s) = Some v -> exists m, v = JObj m.
Proof.
  unfold json_loads. change (skip_ws (123 :: s)) with (123 :: s).
  destruct (scan_once _ _) as [v' r| |] eqn:E; [|discriminate..].
  intros H. assert (v' = v) as -> by (destruct (skip_ws r); by simplify_eq).
  clear H. rewrite Nat.add_1_r in E.
  change (scan_once (S ?fuel) (123 :: s))
    with (match skip_ws s with
          | c1 :: r => if c1 =? 125 then POk (JObj []) r
                       else scan_members fuel (skip_ws s) []
          | [] => PErr
          end) in E.
  destruct (skip_ws s) as [|c1 r1]; [discriminate|].
  destruct (c1 =? 125).
  - injection E as <- _. by eexists.
  - by eapply scan_members_object.
Qed.

(** Outside the group a pattern adds nothing to what was captured. *)
Lemma capture_grows p : GroupOpen ∉ p -> forall s cap g,
  match_here p s cap = Some g -> exists t, g = rev cap.2 ++ t.
Proof.
  induction p as [|it p IH]; intros Hn s cap g H.
  { injection H as <-. exists []. by rewrite app_nil_r. }
  assert (GroupOpen ∉ p) as Hn' by (intros ?; apply Hn; by right).
  assert (forall c cap' g, (exists t, g = rev (push c cap').2 ++ t) -> exists t, g = rev cap'.2 ++ t)
    as Hpush.
  { intros c [b acc] g' [t ->]. unfold push. simpl. destruct b; simpl; [|by exists t].
    exists (c :: t). by rewrite <-app_assoc. }
  destruct it as [cs|cs|cs| |].
  - destruct s as [|c s]; [discriminate|]. simpl in H.
    destruct (cset_mem cs c); [|discriminate].
    apply (Hpush c). by eapply IH.
  - revert cap g H. induction s as [|c s IHs]; intros cap g H;
      rewrite match_here_star in H; [by eapply IH|].
    destruct (cset_mem cs c); [|by eapply IH].
    destruct (match_here (Star cs :: p) s (push c cap)) eqn:E; [|by eapply IH].
    injection H as <-. apply (Hpush c). by eapply IHs.
  - revert cap g H. induction s as [|c s IHs]; intros cap g H;
      rewrite match_here_lazy in H.
    + destruct (match_here p [] cap) eqn:E; [|discriminate].
      injection H as <-. by eapply IH.
    + destruct (match_here p (c :: s) cap) eqn:E.
      * injection H as <-. by eapply IH.
      * destruct (cset_mem cs c); [|discriminate]. apply (Hpush c). by eapply IHs.
  - exfalso. apply Hn. left.
  - simpl in H. apply (IH Hn') in H. exact H.
Qed.

(** The group of a pattern that opens it with a fixed character starts
    with that character. *)
Lemma group_starts_with pre c rest : GroupOpen ∉ rest -> forall s cap g,
  match_here (pre ++ GroupOpen :: One (CChar c) :: rest) s cap = Some g ->
  exists t, g = c :: t.
Proof.
  intros Hn. induction pre as [|it pre IH]; intros s cap g H.
  - simpl in H. destruct s as [|x s]; [discriminate|].
    destruct (x =? c) eqn:E; [|discriminate]. apply N.eqb_eq in E as ->.
    by apply (capture_grows rest Hn) in H.
  - rewrite <-app_comm_cons in H. destruct it as [cs|cs|cs| |].
    + destruct s as [|x s]; [discriminate|]. simpl in H.
      destruct (cset_mem cs x); [|discriminate]. by eapply IH.
    + revert cap g H. induction s as [|x s IHs]; intros cap g H;
        rewrite match_here_star in H; [by eapply IH|].
      destruct (cset_mem cs x); [|by eapply IH].
      destruct (match_here _ s (push x cap)) eqn:E; [|by eapply IH].
      injection H as <-. by eapply IHs.
    + revert cap g H. induction s as [|x s IHs]; intros cap g H;
        rewrite match_here_lazy in H.
      * destruct (match_here _ [] cap) eqn:E; [|discriminate].
        injection H as <-. by eapply IH.
      * destruct (match_here _ (x :: s) cap) eqn:E.
        -- injection H as <-. by eapply IH.
        -- destruct (cset_mem cs x); [|discriminate]. by eapply IHs.
    + simpl in H. by eapply IH.
    + simpl in H. by eapply IH.
Qed.

Lemma fence_group_brace p s g :
  p ∈ patterns -> re_search [p] s = Some g -> exists t, g = 123 :: t.
Proof.
  intros Hp H. apply LinkFacts.re_search_inv in H as (pre & rest & -> & H).
  rewrite match_alt_one in H.
  assert (GroupOpen ∉ [Lazy CAny; One (CChar 125); GroupClose; Star CSpace] ++ lit backticks)
    as Hn.
  { unfold backticks, lit. simpl. intros Hin.
    repeat (apply elem_of_cons in Hin as [Hin|Hin]; [discriminate|]).
    by apply elem_of_nil in Hin. }
  unfold patterns in Hp. apply elem_of_cons in Hp as [->|Hp].
  - apply (group_starts_with (lit fence_json ++ [Star CSpace]) 123 _ Hn rest (false, []) g).
    by rewrite <-app_assoc.
  - apply list_elem_of_singleton in Hp as ->.
    apply (group_starts_with (lit backticks ++ [Star CSpace]) 123 _ Hn rest (false, []) g).
    by rewrite <-app_assoc.
Qed.

Lemma try_patterns_object s v :
  try_patterns patterns s = Some v -> exists m, v = JObj m.
Proof.
  unfold patterns, try_patterns. intros H.
  destruct (re_search [labeled_fence] s) as [g|] eqn:E1.
  - destruct (fence_group_brace labeled_fence s g) as [t ->]; [left|done|].
    destruct (json_loads (123 :: t)) eqn:Ej.
    { injection H as <-. by eapply json_loads_brace. }
    destruct (re_search [plain_fence] s) as [g'|] eqn:E2; [|discriminate].
    destruct (fence_group_brace plain_fence s g') as [t' ->]; [right; left|done|].
    destruct (json_loads (123 :: t')) eqn:Ej'; [|discriminate].
    injection H as <-. by eapply json_loads_brace.
  - destruct (re_search [plain_fence] s) as [g'|] eqn:E2; [|discriminate].
    destruct (fence_group_brace plain_fence s g') as [t' ->]; [right; left|done|].
    destruct (json_loads (123 :: t')) eqn:Ej'; [|discriminate].
    injection H as <-. by eapply json_loads_brace.
Qed.

Lemma brace_span_object s v : brace_span s = Some v -> exists m, v = JObj m.
Proof.
  unfold brace_span. intros H.
  destruct (find [123] s) as [i|] eqn:Ei; [|discriminate].
  destruct (rfind [125] s) as [j|] eqn:Ej; [|discriminate].
  destruct (i <? j)%nat eqn:E; [|discriminate]. apply Nat.ltb_lt in E.
  apply SpanFacts.find_char in Ei.
  unfold slice in H. apply drop_S in Ei.
  rewrite Ei in H. replace (j + 1 - i)%nat with (S (j - i)) in H by lia.
  simpl in H. by eapply json_loads_brace.
Qed.

(** At its opening marker the unlabeled pattern captures the whole object
    text. *)
Lemma plain_fence_here ws1 inner ws2 post :
  forallb isspace ws1 = true ->
  forallb isspace ws2 = true ->
  early_close (inner ++ [125]) = false ->
  match_here plain_fence
    (backticks ++ ws1 ++ 123 :: inner ++ 125 :: ws2 ++ backticks ++ post) (false, [])
  = Some (123 :: inner ++ [125]).
Proof.
  intros H1 H2 He. unfold plain_fence.
  rewrite match_lit by done.
  apply match_star_space; [done|done|done|].
  exact (FenceFacts.lazy_takes_object ws2 post inner [123] H2 He).
Qed.

Lemma plain_fence_search pre ws1 inner ws2 post :
  let s := pre ++ backticks ++ ws1 ++ 123 :: inner ++ 125 :: ws2 ++ backticks ++ post in
  find backticks s = Some (length pre) ->
  forallb isspace ws1 = true ->
  forallb isspace ws2 = true ->
  early_close (inner ++ [125]) = false ->
  re_search [plain_fence] s = Some (123 :: inner ++ [125]).
Proof.
  intros s Hf H1 H2 He. subst s. rewrite re_search_skip.
  - apply re_search_here. rewrite match_alt_one. by apply plain_fence_here.
  - intros i Hi. rewrite match_alt_one. unfold plain_fence.
    apply match_lit_fail. by apply (find_first _ _ _ Hf).
Qed.

Lemma no_label_no_match s : find fence_json s = None -> re_search [labeled_fence] s = None.
Proof.
  intros Hf. pose proof (find_none _ _ Hf) as Hn. clear Hf.
  induction s as [|c s IH]; rewrite SpanFacts.re_search_unfold, match_alt_one.
  - unfold labeled_fence. rewrite match_lit_fail; [done|]. exact (Hn 0%nat).
  - unfold labeled_fence at 1. rewrite match_lit_fail by exact (Hn 0%nat).
    apply IH. intros i. exact (Hn (S i)).
Qed.

End SalvageFacts.

(** X22. Whitespace around the text never changes the outcome: for a
    non-empty text, the value returned or the error raised is the same with
    any whitespace put before and after it. *)
Theorem extract_json_ignores_outer_whitespace (ws t ws' : str) :
  forallb isspace ws = true ->
  forallb isspace ws' = true ->
  t <> [] ->
  extract_json (ws ++ t ++ ws') = extract_json t.
Proof.
  intros H1 H2 Hne. unfold extract_json.
  rewrite (SalvageFacts.strip_spaces_around ws t ws' H1 H2).
  destruct t as [|c t]; [done|]. by destruct ws.
Qed.

(** The theorem at an object between line breaks and blanks. *)
Lemma extract_json_ignores_outer_whitespace_witness :
  extract_json ([10; 32] ++ py "{'a': 1}" ++ [32; 10; 10]) = extract_json (py "{'a': 1}").
Proof.
  apply (extract_json_ignores_outer_whitespace [10; 32] (py "{'a': 1}") [32; 10; 10]).
  - reflexivity.
  - reflexivity.
  - discriminate.
Defined.

(** X23. A response that is not empty but holds whitespace only is
    reported as a parse failure, not as an empty response: the emptiness
    check looks at the text before it is trimmed. *)
Theorem blank_response_is_a_parse_failure (text : str) :
  text <> [] ->
  forallb isspace text = true ->
  extract_json text = Raise ParseFailure.
Proof.
  intros Hne Hsp. apply extract_json_all_fail; [done|..];
    unfold strip; by rewrite (SalvageFacts.lstrip_all_spaces text Hsp).
Qed.

(** The theorem at a blank, a line break and a tab. *)
Lemma blank_response_is_a_parse_failure_witness :
  extract_json [32; 10; 9] = Raise ParseFailure.
Proof.
  apply (blank_response_is_a_parse_failure [32; 10; 9]).
  - discriminate.
  - reflexivity.
Defined.

(** X24. The last strategy recovers an object from prose around it: when
    the trimmed text is not JSON by itself, holds no backtick, and consists
    of a part without an opening brace, an object text, and a part without
    a closing brace, the object parsed from that text is returned. *)
Theorem object_in_prose_is_recovered (text pre inner post : str) (v : json) :
  strip text = pre ++ (123 :: inner ++ [125]) ++ post ->
  123 ∉ pre ->
  125 ∉ post ->
  96 ∉ text ->
  json_loads (strip text) = None ->
  json_loads (123 :: inner ++ [125]) = Some v ->
  extract_json text = Return v.
Proof.
  intros Hs H1 H2 Hb Hd Hv.
  assert (try_patterns patterns (strip text) = None) as Hp.
  { apply SalvageFacts.no_backtick_no_fence. intros H. apply Hb.
    eapply elem_of_sublist; [exact H|apply SpanFacts.strip_sublist]. }
  assert (brace_span (strip text) = Some v) as Hspan.
  { by rewrite Hs, SalvageFacts.brace_span_prose. }
  unfold extract_json. destruct text as [|c t]; [by destruct pre|].
  by rewrite Hd, Hp, Hspan.
Qed.

(** The theorem at an object inside a sentence. *)
Lemma object_in_prose_is_recovered_witness :
  extract_json (py "Sure! Here is the data: {'a': [1, 2]} Hope this helps.")
  = Return (JObj [(py "a", JArr [JInt 1; JInt 2])]).
Proof.
  apply (object_in_prose_is_recovered _ (py "Sure! Here is the data: ") (py "'a': [1, 2]")
           (py " Hope this helps.")).
  - reflexivity.
  - compute_done.
  - compute_done.
  - compute_done.
  - by vm_compute.
  - by vm_compute.
Defined.

(** X25. Only the direct parse can return something that is not an
    object: whatever [extract_json] returns through a fence or through the
    brace span is a JSON object. *)
Theorem only_the_direct_parse_gives_non_objects (text : str) (v : json) :
  extract_json text = Return v ->
  (exists m, v = JObj m) \/ json_loads (strip text) = Some v.
Proof.
  unfold extract_json. destruct text as [|c t]; [discriminate|].
  destruct (json_loads (strip (c :: t))) as [v0|]; [intros [= ->]; by right|].
  destruct (try_patterns patterns (strip (c :: t))) as [v1|] eqn:E1.
  { intros [= ->]. left. by eapply SalvageFacts.try_patterns_object. }
  destruct (brace_span (strip (c :: t))) as [v2|] eqn:E2; [|discriminate].
  intros [= ->]. left. by eapply SalvageFacts.brace_span_object.
Qed.

(** The theorem at the text of a number. *)
Lemma only_the_direct_parse_gives_non_objects_witness :
  (exists m, JInt 5 = JObj m) \/ json_loads (strip (py " 5 ")) = Some (JInt 5).
Proof.
  apply (only_the_direct_parse_gives_non_objects (py " 5 ") (JInt 5)). by vm_compute.
Defined.

(** X26. The unlabeled fence: when the trimmed text is not JSON by itself
    and holds no marker labeled json, and its first triple backtick opens a
    block of whitespace, an object text, whitespace and a closing triple
    backtick, with no closing brace of the object text followed inside it
    by optional whitespace and a triple backtick, then the object parsed
    from the fenced text is returned. *)
Theorem unlabeled_fence_object (text pre ws1 inner ws2 post : str) (v : json) :
  let body := 123 :: inner ++ [125] in
  strip text = pre ++ backticks ++ ws1 ++ body ++ ws2 ++ backticks ++ post ->
  find fence_json (strip text) = None ->
  find backticks (strip text) = Some (length pre) ->
  forallb isspace ws1 = true ->
  forallb isspace ws2 = true ->
  early_close body = false ->
  json_loads (strip text) = None ->
  json_loads body = Some v ->
  extract_json text = Return v.
Proof.
  intros body Hs Hl Hf H1 H2 He Hd Hb.
  assert (text <> []) as Hne by (intros ->; by destruct pre).
  rewrite extract_json_order by done. cbv zeta. rewrite Hd.
  rewrite SalvageFacts.no_label_no_match by done. simpl.
  assert (re_search [plain_fence] (strip text) = Some body) as ->.
  { rewrite Hs in Hf |- *. subst body. rewrite <-app_comm_cons, <-app_assoc in Hf |- *.
    by apply SalvageFacts.plain_fence_search. }
  simpl. by rewrite Hb.
Qed.

(** The theorem at a line of prose and an unlabeled fence. *)
Lemma unlabeled_fence_object_witness :
  extract_json (py "Result:" ++ [10] ++ backticks ++ [10] ++ py "{'a': {'b': 1}}" ++ [10]
                ++ backticks)
  = Return (JObj [(py "a", JObj [(py "b", JInt 1)])]).
Proof.
  apply (unlabeled_fence_object _ (py "Result:" ++ [10]) [10] (py "'a': {'b': 1}") [10] []);
    by vm_compute.
Defined.

(** The theorem on texts without a brace span, at a plain sentence. *)
Lemma extract_json_no_brace_span_witness :
  extract_json (py "I cannot help with that.") = Raise ParseFailure
  \/ extract_json (py "I cannot help with that.") = Raise EmptyResponse.
Proof.
  apply (extract_json_no_brace_span (py "I cannot help with that.")).
  - unfold has_brace_span. intros H.
    assert (123 ∈ py "I cannot help with that.") as Hin.
    { eapply elem_of_sublist; [|exact H]. left. }
    revert Hin. compute_done.
  - by vm_compute.
Defined.

(** ** The statistics of a battle *)

Module DuelFacts.
Import DictFacts.

Lemma duel_outcome_inv a b r :
  duel_outcome a b r = true ->
  exists mean std range diff,
    r = Return (JObj [(K_mean_score, JFloat mean);
                      (K_std_dev, JFloat std);
                      (K_score_range, JFloat range);
                      (K_close_competition, JBool (Z.abs (a - b) <=? 14)%Z);
                      (K_decisive_winner, JBool (negb (a =? b)%Z));
                      (K_score_difference, JFloat diff)])
    /\ (mean =? Z2F (a + b) / 2)%float = true
    /\ (range =? Z2F (Z.abs (a - b)))%float = true
    /\ (diff =? Z2F (Z.abs (a - b)))%float = true.
Proof.
  unfold duel_outcome. intros H. repeat (case_match; try discriminate). subst.
  repeat (apply andb_prop in H as [H ?]).
  repeat match goal with E : str_eqb _ _ = true |- _ => apply str_eqb_eq in E; subst end.
  repeat match goal with E : Bool.eqb _ _ = true |- _ => apply Bool.eqb_prop in E; subst end.
  by eexists _, _, _, _.
Qed.

End DuelFacts.

(** X27. In a battle of two channels with integer overall scores on the
    scale from 0 to 100, the statistics name a decisive winner whenever the
    two scores differ at all, even by one point: the difference of the top
    two scores is then the whole range, and it exceeds the sample deviation
    of two values, which is that distance over the square root of two. The
    competition counts as close up to a distance of 14. *)
Theorem duel_is_decisive_unless_tied
    (other : list json -> result json) (scores_df : list json) (a b : Z) :
  (0 <= a <= 100)%Z ->
  (0 <= b <= 100)%Z ->
  overall_column scores_df = Some [Z2F a; Z2F b] ->
  exists mean std range diff,
    calculate_battle_statistics (overall_statistics_of other) scores_df
    = Return (JObj [(K_mean_score, JFloat mean);
                    (K_std_dev, JFloat std);
                    (K_score_range, JFloat range);
                    (K_close_competition, JBool (Z.abs (a - b) <=? 14)%Z);
                    (K_decisive_winner, JBool (negb (a =? b)%Z));
                    (K_score_difference, JFloat diff)])
    /\ (mean =? Z2F (a + b) / 2)%float = true
    /\ (range =? Z2F (Z.abs (a - b)))%float = true
    /\ (diff =? Z2F (Z.abs (a - b)))%float = true.
Proof.
  intros Ha Hb Hc. apply DuelFacts.duel_outcome_inv.
  unfold calculate_battle_statistics, overall_statistics_of.
  pose proof (length_mapM _ _ _ Hc) as Hl.
  rewrite Hl, Hc. change (length [Z2F a; Z2F b] <? 2)%nat with false. cbv iota.
  assert (forallb (fun a => forallb (fun b =>
            duel_outcome a b (Return (numeric_statistics [Z2F a; Z2F b])))
            (zrange 0 101)) (zrange 0 101) = true) as Hall by (by vm_compute).
  rewrite forallb_forall in Hall.
  specialize (Hall a (ConfidenceFacts.zrange_elem 0 101 a ltac:(lia))).
  rewrite forallb_forall in Hall.
  exact (Hall b (ConfidenceFacts.zrange_elem 0 101 b ltac:(lia))).
Qed.

(** The theorem at the scores 80 and 79. *)
Lemma duel_is_decisive_unless_tied_witness :
  exists mean std range diff,
    calculate_battle_statistics (overall_statistics_of Examples.unreached_rows)
      [score_row (py "a") 80; score_row (py "b") 79]
    = Return (JObj [(K_mean_score, JFloat mean);
                    (K_std_dev, JFloat std);
                    (K_score_range, JFloat range);
                    (K_close_competition, JBool (Z.abs (80 - 79) <=? 14)%Z);
                    (K_decisive_winner, JBool (negb (80 =? 79)%Z));
                    (K_score_difference, JFloat diff)])
    /\ (mean =? Z2F (80 + 79) / 2)%float = true
    /\ (range =? Z2F (Z.abs (80 - 79)))%float = true
    /\ (diff =? Z2F (Z.abs (80 - 79)))%float = true.
Proof.
  apply (duel_is_decisive_unless_tied Examples.unreached_rows
           [score_row (py "a") 80; score_row (py "b") 79] 80 79).
  - lia.
  - lia.
  - reflexivity.
Defined.

(** ** The shape of the reports *)

Section ReportFacts.
Import DictFacts.

Variable lower : str -> str.
Variable generate_content : list prompt -> prompt -> result response.
Variable requests_get : str -> result (bool * result json).
Variable sort_values : sorter.
Variable to_numeric : json -> float.
Variable frame_of_other : json -> result frame.
Variable polyfit : list float -> list float -> result (float * float).
Variable normalize_topic_distribution : json -> result json.
Variable calculate_confidence_interval : json -> result json.

Lemma unique_sources_distinct response : distinct_sources (unique_sources response).
Proof.
  unfold distinct_sources, unique_sources. eexists. split; [done|].
  by destruct (SourceFacts.unique_from_spec (sources_of response) ∅) as (_ & H & _).
Qed.

Lemma dict_has_set k k' v d : dict_has k d = true -> dict_has k (dict_set k' v d) = true.
Proof.
  intros H. destruct (decide (k = k')) as [->|Hne].
  - apply dict_has_set_eq.
  - by rewrite dict_has_set_ne.
Qed.

Lemma attach_growth_has d m k :
  attach_growth sort_values to_numeric frame_of_other polyfit d = Return m ->
  dict_has k d = true -> dict_has k m = true.
Proof.
  unfold attach_growth. intros H Hk.
  destruct (dict_get K_growthTimeline d) as [tl|]; [|by simplify_eq].
  destruct (create_growth_dataframe _ _ _ tl) as [df|]; simpl in H; [|done].
  destruct (calculate_growth_rate df) as [g|]; simpl in H; [|done].
  destruct (calculate_trend_prediction polyfit df 1) as [t|]; simpl in H; [|done].
  destruct (prediction_available t); simplify_eq; by repeat apply dict_has_set.
Qed.

Lemma attach_growth_statistics d m :
  attach_growth sort_values to_numeric frame_of_other polyfit d = Return m ->
  dict_has K_growthTimeline d = true -> dict_has K_growthStatistics m = true.
Proof.
  unfold attach_growth, dict_has at 1. intros H Hk.
  destruct (dict_get K_growthTimeline d) as [tl|]; [|done].
  destruct (create_growth_dataframe _ _ _ tl) as [df|]; simpl in H; [|done].
  destruct (calculate_growth_rate df) as [g|]; simpl in H; [|done].
  destruct (calculate_trend_prediction polyfit df 1) as [t|]; simpl in H; [|done].
  destruct (prediction_available t); simplify_eq.
  - apply dict_has_set, dict_has_set_eq.
  - apply dict_has_set_eq.
Qed.

Lemma attach_topics_has d m k :
  attach_topics normalize_topic_distribution d = Return m ->
  dict_has k d = true -> dict_has k m = true.
Proof.
  unfold attach_topics. intros H Hk.
  destruct (dict_get K_topicAnalysis d) as [ta|]; [|by simplify_eq].
  destruct (py_in K_topicDistribution ta) as [[|]|]; simpl in H; simplify_eq; [|done].
  destruct ta; try done.
  destruct (normalize_topic_distribution _); simpl in H; simplify_eq.
  by apply dict_has_set.
Qed.

(** What validation returns has the required fields and growth
    statistics. *)
Lemma validate_shape v v' :
  validate_channel_data sort_values to_numeric frame_of_other polyfit normalize_topic_distribution v
  = Return v' ->
  exists m, v' = JObj m
            /\ dict_has K_channelName m = true
            /\ dict_has K_stats m = true
            /\ dict_has K_growthTimeline m = true
            /\ dict_has K_growthStatistics m = true.
Proof.
  unfold validate_channel_data. intros H.
  destruct (check_required required_fields v) eqn:Ec; simpl in H; [|done].
  destruct v as [| | | | | |d]; try done.
  destruct (attach_growth _ _ _ _ d) as [m1|] eqn:Eg; simpl in H; [|done].
  destruct (attach_topics _ m1) as [m2|] eqn:Et; simpl in H; [|done].
  injection H as <-. exists m2. split; [done|].
  unfold required_fields, check_required, py_in in Ec. simpl in Ec.
  destruct (dict_has K_channelName d) eqn:E1; [|done].
  destruct (dict_has K_stats d) eqn:E2; [|done].
  destruct (dict_has K_growthTimeline d) eqn:E3; [|done].
  repeat split; apply (attach_topics_has _ _ _ Et);
    first [by apply (attach_growth_has _ _ _ Eg) | by apply (attach_growth_statistics _ _ Eg)].
Qed.

Lemma channel_report_has_shape response r :
  channel_report sort_values to_numeric frame_of_other polyfit normalize_topic_distribution response
  = Return r ->
  channel_report_shape r.
Proof.
  unfold channel_report. intros H.
  destruct (resp_text response) as [text|]; simpl in H; [|done].
  destruct (extract_json text) as [cd|]; simpl in H; [|done].
  destruct (validate_channel_data _ _ _ _ _ cd) as [cd'|] eqn:Ev; simpl in H; [|done].
  apply validate_shape in Ev as (m & -> & H1 & H2 & H3 & H4).
  simpl in H. injection H as <-.
  exists (dict_set K_sources (unique_sources response) m), (unique_sources response).
  split; [done|]. repeat split; try by apply dict_has_set.
  - apply dict_get_set_eq.
  - apply unique_sources_distinct.
Qed.

(** X28. Every report [analyze_channel] returns or caches has the same
    shape: an object with the channel name, the stats and the timeline the
    model sent, growth statistics, and under sources a list of sources with
    pairwise distinct uris. When this holds of the cache before a call, it
    holds of the cache after it and of the report returned; it holds of
    the empty cache the process starts with. *)
Theorem reports_keep_their_shape (name : str) (w w' : world) (res : result json) :
  cache_shape w ->
  analyze_channel lower generate_content sort_values to_numeric frame_of_other polyfit
    normalize_topic_distribution name w = (res, w') ->
  cache_shape w' /\ (forall r, res = Return r -> channel_report_shape r).
Proof.
  intros Hw H. destruct (cache w !! cache_key lower name) as [c|] eqn:E.
  - rewrite (analyze_channel_hit _ _ _ _ _ _ _ _ _ _ E) in H. simplify_eq.
    split; [done|]. intros r [= <-]. by eapply Hw.
  - rewrite (analyze_channel_miss _ _ _ _ _ _ _ _ _ E) in H.
    destruct (generate_content _ _) as [response|]; [|simplify_eq; split; [done|by intros r [=]]].
    destruct (channel_report _ _ _ _ _ response) as [r0|] eqn:Er;
      [|simplify_eq; split; [done|by intros r [=]]].
    simplify_eq. apply channel_report_has_shape in Er. split.
    + intros k v. simpl. destruct (decide (k = cache_key lower name)) as [->|Hne].
      * rewrite lookup_insert_eq. by intros [= <-].
      * rewrite lookup_insert_ne by done. apply Hw.
    + by intros r [= <-].
Qed.

(** X29. A truth report carries derived fields the model cannot supply:
    whenever [analyze_video_truth] returns, the report is an object whose
    references are sources with pairwise distinct uris, and if it holds a
    truthScore, its scoreConfidence is what the confidence helper returned
    for that very score. *)
Theorem truth_report_derived_fields (video_input : str) (w w' : world) (report : json) :
  analyze_video_truth lower generate_content requests_get calculate_confidence_interval
    video_input w = (Return report, w') ->
  exists m references,
    report = JObj m
    /\ dict_get K_references m = Some references
    /\ distinct_sources references
    /\ (forall score, dict_get K_truthScore m = Some score ->
          exists confidence,
            calculate_confidence_interval score = Return confidence
            /\ dict_get K_scoreConfidence m = Some confidence).
Proof.
  unfold analyze_video_truth. intros H.
  destruct (negb _); [discriminate|].
  destruct (extract_video_id video_input) as [video_id|]; [|discriminate].
  destruct (fetch_video_metadata requests_get video_input) as [md|]; [|discriminate].
  unfold mbind, M_bind, call_model, lift in H.
  destruct (generate_content _ _) as [response|]; [|discriminate].
  simpl in H.
  destruct (resp_text response) as [text|]; [|discriminate]. simpl in H.
  destruct (extract_json text) as [analysis|]; [|discriminate]. simpl in H.
  destruct analysis as [| | | | | |a]; try discriminate. simpl in H.
  set (a2 := dict_set K_creatorName (author md) (dict_set K_videoTitle (title md) a)) in *.
  clearbody a2.
  destruct (dict_get K_truthScore a2) as [score|] eqn:Es; simpl in H.
  - destruct (calculate_confidence_interval score) as [conf|] eqn:Ec; [|discriminate].
    simpl in H. injection H as <- _.
    eexists _, _. split; [done|]. split; [apply dict_get_set_eq|].
    split; [apply unique_sources_distinct|].
    intros score'. rewrite !dict_get_set_ne by done. rewrite Es. intros [= <-].
    exists conf. split; [done|]. apply dict_get_set_eq.
  - injection H as <- _.
    eexists _, _. split; [done|]. split; [apply dict_get_set_eq|].
    split; [apply unique_sources_distinct|].
    intros score'. rewrite !dict_get_set_ne by done. by rewrite Es.
Qed.

End ReportFacts.

(** The theorem at the first analysis on the empty cache. *)
Lemma reports_keep_their_shape_witness :
  cache_shape (Examples.analyze_example (py "MrBeast") Examples.empty_world).2
  /\ (forall r, (Examples.analyze_example (py "MrBeast") Examples.empty_world).1 = Return r ->
                channel_report_shape r).
Proof.
  apply (reports_keep_their_shape Examples.ascii_lower Examples.scripted_model
           stable_sort Examples.numeric_cell Examples.unreached_frame Examples.ols_fit
           Examples.unreached_json (py "MrBeast") Examples.empty_world).
  - intros k v H. change (cache Examples.empty_world) with (∅ : gmap str json) in H.
    by rewrite lookup_empty in H.
  - apply surjective_pairing.
Defined.

(** The theorem at the report for the example link. *)
Lemma truth_report_derived_fields_witness :
  exists m references,
    Examples.truth_report = JObj m
    /\ dict_get K_references m = Some references
    /\ distinct_sources references
    /\ (forall score, dict_get K_truthScore m = Some score ->
          exists confidence,
            confidence_of_score score = Return confidence
            /\ dict_get K_scoreConfidence m = Some confidence).
Proof.
  apply (truth_report_derived_fields Examples.ascii_lower Examples.scripted_model
           Examples.scripted_oembed confidence_of_score Examples.example_url
           Examples.empty_world
           (analyze_video_truth Examples.ascii_lower Examples.scripted_model
              Examples.scripted_oembed confidence_of_score
              Examples.example_url Examples.empty_world).2).
  by vm_compute.
Defined.
